(** * ollama_review: the chunk-extraction and review-orchestration pipeline

    A shallow embedding of [cmd/review.go]: the function extractor
    ([extractFunctions]), the prompt builder ([buildPrompt]), the per-chunk
    dispatcher ([reviewChunk]) and the directory walk with its report
    ([Review]).  The collaborators the Go code calls into (tree-sitter, the
    Ollama client, text/template, net/url, the file system) are the fields of
    an environment record; the effects of the Go code are recorded in an
    explicit state. *)

From Stdlib Require Import List Arith Lia Bool.
From Stdlib.Strings Require Import Ascii String Byte.
From Stdlib Require DecimalString.
From Stdlib Require Import Sorted.
From Stdlib Require Import ZArith Permutation.
Import ListNotations.

Local Open Scope string_scope.
Local Open Scope list_scope.
Local Open Scope nat_scope.

(** Go's [+] on strings. *)
Infix "+++" := String.append (right associativity, at level 60).

(** ** Go values *)

(** A Go [[]byte]. *)
Definition bytes := list byte.

(** A Go [error]; only its message matters here ([%v] prints it). *)
Definition error := string.

(** The [(value, error)] pair of a fallible Go call. *)
Inductive result (A : Type) : Type :=
| Ok (a : A)
| Err (e : error).
Arguments Ok {A} a.
Arguments Err {A} e.

(** [string(b)] and [[]byte(s)]. *)
Definition string_of_bytes (b : bytes) : string := string_of_list_byte b.
Definition bytes_of_string (s : string) : bytes := list_byte_of_string s.

(** The line feed of the Go string literals. *)
Definition nl : string := String (ascii_of_nat 10) EmptyString.

(** [%d] of a non-negative [int]. *)
Definition fmt_d (n : nat) : string := DecimalString.NilZero.string_of_uint (Nat.to_uint n).

(** [src[lo:hi]].  Go panics unless [lo <= hi <= cap(src)]; the function
    below is total and agrees with Go on that range (see [slice_checked]). *)
Definition slice (src : bytes) (lo hi : nat) : bytes :=
  firstn (hi - lo) (skipn lo src).

Definition slice_checked (src : bytes) (lo hi : nat) : option bytes :=
  if (lo <=? hi) && (hi <=? List.length src) then Some (slice src lo hi) else None.

(** ** path/filepath *)

Module filepath.

Definition sep : ascii := "/"%char.

(** Splits at every separator; ["a//b"] gives ["a"; ""; "b"]. *)
Fixpoint split_acc (cur : string) (s : string) : list string :=
  match s with
  | EmptyString => [cur]
  | String c s' =>
      if Ascii.eqb c sep
      then cur :: split_acc EmptyString s'
      else split_acc (cur +++ String c EmptyString) s'
  end.

Definition split (s : string) : list string := split_acc EmptyString s.

Definition rooted (s : string) : bool :=
  match s with
  | String c _ => Ascii.eqb c sep
  | EmptyString => false
  end.

(** One element of the path pushed on the elements kept so far (innermost
    first), as [Clean] treats it: empty and [.] elements vanish, [..]
    removes the element before it, or stays when there is none to remove
    and the path is not rooted. *)
Definition push (isRooted : bool) (stack : list string) (elem : string)
  : list string :=
  if String.eqb elem "" || String.eqb elem "." then stack
  else if String.eqb elem ".." then
    match stack with
    | top :: rest =>
        if String.eqb top ".." then elem :: stack else rest
    | [] => if isRooted then [] else [elem]
    end
  else elem :: stack.

(** [filepath.Clean] on a slash-separated path. *)
Definition Clean (path : string) : string :=
  let r := rooted path in
  let elems := rev (fold_left (push r) (split path) []) in
  let out := (if r then "/" else "") +++ String.concat "/" elems in
  if String.eqb out "" then "." else out.

(** [filepath.Join] of two elements: empty elements are ignored, the
    result is cleaned, and joining nothing gives the empty string. *)
Definition Join (a b : string) : string :=
  if String.eqb a "" then
    if String.eqb b "" then "" else Clean b
  else if String.eqb b "" then Clean a
  else Clean (a +++ "/" +++ b).

(** [filepath.Ext]: scans back from the end of the path to the last dot
    of the last element; [rev_tail] is the part already passed, in
    order. *)
Fixpoint ext_scan (rev_path : list ascii) (tail : list ascii) : list ascii :=
  match rev_path with
  | [] => []
  | c :: rest =>
      if Ascii.eqb c sep then []
      else if Ascii.eqb c "."%char then c :: tail
      else ext_scan rest (c :: tail)
  end.

Definition Ext (path : string) : string :=
  string_of_list_ascii (ext_scan (rev (list_ascii_of_string path)) []).

End filepath.

(** [strings.TrimPrefix]. *)
Definition TrimPrefix (s pre : string) : string :=
  if String.prefix pre s
  then String.substring (String.length pre) (String.length s - String.length pre) s
  else s.

(** [strings.Join(elems, "")]. *)
Definition JoinEmpty (elems : list string) : string := String.concat "" elems.

(** ** tree-sitter: the syntax tree seen through *named* nodes

    [extractFunctions] reaches a node only through [NamedChild(0)] and
    [NextNamedSibling()], so a node is its type, its byte span and the list
    of its named children in sibling order. *)

Inductive Language : Type := python | java | cpp | golang.

Unset Elimination Schemes.
Inductive Node : Type :=
| mkNode (type : string) (startByte endByte : nat) (namedChildren : list Node).
Set Elimination Schemes.

Definition Type_ (n : Node) : string :=
  match n with mkNode t _ _ _ => t end.
Definition StartByte (n : Node) : nat :=
  match n with mkNode _ s _ _ => s end.
Definition EndByte (n : Node) : nat :=
  match n with mkNode _ _ e _ => e end.
Definition NamedChildren (n : Node) : list Node :=
  match n with mkNode _ _ _ cs => cs end.

(** [langConfig]: extension to grammar and function node type. *)
Definition langConfig : list (string * (Language * string)) :=
  [ (".py",   (python, "function_definition"));
    (".java", (java,   "method_declaration"));
    (".cpp",  (cpp,    "function_definition"));
    (".hpp",  (cpp,    "function_definition"));
    (".h",    (cpp,    "function_definition"));
    (".go",   (golang, "function_declaration")) ].

(** [v, ok := m[key]] on a map written as its list of entries. *)
Fixpoint lookup {V : Type} (key : string) (m : list (string * V)) : option V :=
  match m with
  | [] => None
  | (k, v) :: m' => if String.eqb k key then Some v else lookup key m'
  end.

(** The bytes a node spans: [src[n.StartByte():n.EndByte()]]. *)
Definition span (src : bytes) (n : Node) : bytes :=
  slice src (StartByte n) (EndByte n).

(** The closure [walk] of [extractFunctions]; [chunks] is the slice it
    appends to. *)
Fixpoint walk (src : bytes) (nodeType : string) (n : Node) (chunks : list bytes)
  : list bytes :=
  match n with
  | mkNode _ _ _ cs =>
      let chunks1 :=
        if String.eqb (Type_ n) nodeType
        then chunks ++ [span src n]
        else chunks in
      fold_left (fun acc c => walk src nodeType c acc) cs chunks1
  end.

(** The matching nodes of the tree, parent first and children in sibling
    order: the depth-first pre-order, written independently of [walk]. *)
Fixpoint preorder (n : Node) : list Node :=
  match n with
  | mkNode _ _ _ cs => n :: flat_map preorder cs
  end.

Definition isFunction (nodeType : string) (n : Node) : bool :=
  String.eqb (Type_ n) nodeType.

Definition matched (nodeType : string) (root : Node) : list Node :=
  filter (isFunction nodeType) (preorder root).

(** What tree-sitter guarantees of the trees it builds: a node's span is an
    interval, its children lie inside it, and siblings follow each other
    without overlap. *)
Fixpoint siblingsOrdered (cs : list Node) : bool :=
  match cs with
  | c1 :: (c2 :: _) as rest =>
      (EndByte c1 <=? StartByte c2) && siblingsOrdered rest
  | _ => true
  end.

Fixpoint wellFormed (n : Node) : bool :=
  match n with
  | mkNode _ s e cs =>
      (s <=? e)
      && forallb (fun c => (s <=? StartByte c) && (EndByte c <=? e)) cs
      && siblingsOrdered cs
      && forallb wellFormed cs
  end.



(** [m] lies strictly below [n] in the tree. *)
Definition nestedIn (m n : Node) : Prop :=
  In m (flat_map preorder (NamedChildren n)).

(** ** Induction over syntax trees *)

Section NodeInduction.
Variable P : Node -> Prop.
Hypothesis step :
  forall t s e cs, Forall P cs -> P (mkNode t s e cs).

Fixpoint Node_ind (n : Node) : P n :=
  match n with
  | mkNode t s e cs =>
      step t s e cs
        ((fix all (l : list Node) : Forall P l :=
            match l with
            | [] => Forall_nil P
            | c :: l' => Forall_cons c (Node_ind c) (all l')
            end) cs)
  end.
End NodeInduction.

(** ** The world around [Review] *)

(** What [os.Lstat] and [os.ReadDir] show of the tree under the root: a
    directory carries the entries [os.ReadDir] lists for it (sorted by file
    name, as Go returns them) and the error [os.ReadDir] reports, if any. *)
Unset Elimination Schemes.
Inductive Entry : Type :=
| File (name : string)
| Dir (name : string) (entries : list Entry) (readDirErr : option error).
Set Elimination Schemes.

Definition Name (d : Entry) : string :=
  match d with File n => n | Dir n _ _ => n end.
Definition IsDir (d : Entry) : bool :=
  match d with File _ => false | Dir _ _ _ => true end.

(** ** Induction over directory trees *)

Section EntryInduction.
Variable P : Entry -> Prop.
Hypothesis file : forall name, P (File name).
Hypothesis dir :
  forall name entries readErr, Forall P entries -> P (Dir name entries readErr).

Fixpoint Entry_ind (d : Entry) : P d :=
  match d with
  | File name => file name
  | Dir name entries readErr =>
      dir name entries readErr
        ((fix all (l : list Entry) : Forall P l :=
            match l with
            | [] => Forall_nil P
            | d1 :: l' => Forall_cons d1 (Entry_ind d1) (all l')
            end) entries)
  end.
End EntryInduction.

(** [api.Message] and [api.ChatRequest], the fields [reviewChunk] sets. *)
Record Message : Type := { Role : string; Content : string }.
Record ChatRequest : Type := { Model : string; Messages : list Message }.

(** A parsed backend endpoint; [api.NewClient] wraps it. *)
Definition URL := string.
Definition Client := URL.
Definition NewClient (base : URL) : Client := base.

(** What the program does to the outside, in the order it does it.
    [EvWalkFn] is the walker calling its callback; Go keeps no such record,
    the trace does, so that "the walker reported an error" can be said. *)
Inductive Event : Type :=
| EvWalkFn (path : string) (err : option error)
| EvReadFile (path : string)
| EvParseFiles (path : string)
| EvChat (client : Client) (req : ChatRequest)
| EvLog (line : string)
| EvPrint (text : string)
| EvWriteFile (path : string) (data : bytes) (perm : nat).

(** The data handed to [Template.Execute]: a [map[string]string]. *)
Definition Fields := list (string * string).

(** A parsed template is what [Execute] does with the data. *)
Definition Template := Fields -> result string.

(** The settings [viper] holds. *)
Record Config : Type := {
  cfg_model : string;
  cfg_exclude : list string;
  cfg_guideline : string;
  cfg_OllamaHost : string
}.

(** The collaborators. *)
Record Env : Type := {
  viper : Config;
  (** [os.Lstat] of the walk's root, with the tree below it. *)
  Lstat : string -> result Entry;
  (** [parser.ParseCtx] followed by [tree.RootNode]. *)
  ParseCtx : Language -> bytes -> result Node;
  (** text/template's parser, on the text of the template file. *)
  templateParse : string -> result Template;
  (** [url.Parse]. *)
  urlParse : string -> result URL;
  (** [client.Chat]: given what happened so far and the request, the
      fragments it hands to the callback, in order, and then its return
      value. *)
  Chat : Client -> list Event -> ChatRequest -> list string * option error;
  (** The error of [os.WriteFile] on a path, if it fails there. *)
  writeFileErr : string -> option error
}.

(** The state the program runs in: the trace of its effects, the contents
    of the files, and [Review]'s local variable [report], which [walkFn]
    captures and appends to. *)
Record State : Type := {
  trace : list Event;
  disk : string -> result bytes;
  report : list string
}.

Definition record (ev : Event) (st : State) : State :=
  {| trace := trace st ++ [ev]; disk := disk st; report := report st |}.

Definition setReport (r : list string) (st : State) : State :=
  {| trace := trace st; disk := disk st; report := r |}.

Definition setFile (path : string) (data : bytes) (st : State) : State :=
  {| trace := trace st;
     disk := fun p => if String.eqb p path then Ok data else disk st p;
     report := report st |}.

(** [os.ReadFile]. *)
Definition ReadFile (path : string) (st : State) : State * result bytes :=
  (record (EvReadFile path) st, disk st path).

(** [os.WriteFile]: the file is created or truncated and receives [data]. *)
Definition WriteFile (env : Env) (path : string) (data : bytes) (perm : nat)
  (st : State) : State * option error :=
  let st1 := record (EvWriteFile path data perm) st in
  match writeFileErr env path with
  | Some e => (st1, Some e)
  | None => (setFile path data st1, None)
  end.

(** [log.Printf] and [fmt.Println] / [fmt.Printf]. *)
Definition logPrintf (line : string) (st : State) : State := record (EvLog line) st.
Definition fmtPrint (text : string) (st : State) : State := record (EvPrint text) st.

(** ** [extractFunctions] *)

Definition extractFunctions (env : Env) (src : bytes) (lang : Language)
  (nodeType : string) : list bytes * option error :=
  match ParseCtx env lang src with
  | Err e => ([], Some ("parse source: " +++ e))
  | Ok root => (walk src nodeType root [], None)
  end.

(** ** [buildPrompt] *)

(** [template.ParseFiles]: reads the file, then parses its text. *)
Definition ParseFiles (env : Env) (tmplPath : string) (st : State)
  : State * result Template :=
  let st1 := record (EvParseFiles tmplPath) st in
  match disk st tmplPath with
  | Err e => (st1, Err e)
  | Ok text => (st1, templateParse env (string_of_bytes text))
  end.

(** The map literal of [buildPrompt]. *)
Definition promptData (lang : string) (code : bytes) : Fields :=
  [ ("lang", lang); ("code", string_of_bytes code) ].

Definition buildPrompt (env : Env) (tmplPath lang : string) (code : bytes)
  (st : State) : State * (string * option error) :=
  let (st1, parsed) := ParseFiles env tmplPath st in
  match parsed with
  | Err e => (st1, ("", Some ("parse template: " +++ e)))
  | Ok tmpl =>
      match tmpl (promptData lang code) with
      | Err e => (st1, ("", Some ("execute template: " +++ e)))
      | Ok out => (st1, (out, None))
      end
  end.

(** ** [reviewChunk] *)

Definition chatRequest (model prompt : string) : ChatRequest :=
  {| Model := model;
     Messages := [ {| Role := "user"; Content := prompt |} ] |}.

(** [outBuf] after the callback has seen the fragments. *)
Definition accumulate (fragments : list string) : string :=
  fold_left (fun buf frag => buf +++ frag) fragments "".

Definition reviewChunk (env : Env) (client : Client)
  (model guideline lang : string) (code : bytes) (st : State)
  : State * (string * option error) :=
  let '(st1, (prompt, err)) := buildPrompt env guideline lang code st in
  match err with
  | Some e => (st1, ("", Some e))
  | None =>
      let req := chatRequest model prompt in
      let (fragments, err) := Chat env client (trace st1) req in
      let st2 := record (EvChat client req) st1 in
      let outBuf := accumulate fragments in
      match err with
      | Some e => (st2, ("", Some e))
      | None => (st2, (outBuf, None))
      end
  end.

(** ** io/fs and [filepath.WalkDir] *)

(** The [error] a [fs.WalkDirFunc] returns: [nil], the sentinels
    [fs.SkipDir] and [fs.SkipAll], or any other error. *)
Inductive WalkErr : Type :=
| Nil
| SkipDir
| SkipAll
| Fail (e : error).

(** A [fs.WalkDirFunc]; [d] is [None] for Go's nil [DirEntry]. *)
Definition WalkDirFunc :=
  string -> option Entry -> option error -> State -> State * WalkErr.

(** A call of the callback by the walker, entered in the trace first. *)
Definition callFn (fn : WalkDirFunc) (path : string) (d : option Entry)
  (err : option error) (st : State) : State * WalkErr :=
  fn path d err (record (EvWalkFn path err) st).

(** [filepath.walkDir]: the callback on the entry itself; for a directory
    that was not skipped the listing, a second callback when the listing
    failed, then the entries in order.  [fs.SkipDir] from an entry of the
    listing ends the listing. *)
Fixpoint walkDir (fn : WalkDirFunc) (path : string) (d : Entry) (st : State)
  : State * WalkErr :=
  let (st1, err) := callFn fn path (Some d) None st in
  match d with
  | File _ => (st1, err)
  | Dir _ dirs readErr =>
      match err with
      | SkipDir => (st1, Nil)
      | Nil =>
          let (st2, err2) :=
            match readErr with
            | Some e => callFn fn path (Some d) (Some e) st1
            | None => (st1, Nil)
            end in
          match err2 with
          | SkipDir => (st2, Nil)
          | Nil =>
              (fix range (ds : list Entry) (st : State) : State * WalkErr :=
                 match ds with
                 | [] => (st, Nil)
                 | d1 :: rest =>
                     let path1 := filepath.Join path (Name d1) in
                     let (st', err1) := walkDir fn path1 d1 st in
                     match err1 with
                     | Nil => range rest st'
                     | SkipDir => (st', Nil)
                     | _ => (st', err1)
                     end
                 end) dirs st2
          | _ => (st2, err2)
          end
      | _ => (st1, err)
      end
  end.

(** The loop over a directory's entries, by itself. *)
Definition walkEntries (fn : WalkDirFunc) (path : string)
  : list Entry -> State -> State * WalkErr :=
  fix range (ds : list Entry) (st : State) : State * WalkErr :=
    match ds with
    | [] => (st, Nil)
    | d1 :: rest =>
        let path1 := filepath.Join path (Name d1) in
        let (st', err1) := walkDir fn path1 d1 st in
        match err1 with
        | Nil => range rest st'
        | SkipDir => (st', Nil)
        | _ => (st', err1)
        end
    end.

(** [filepath.WalkDir]. *)
Definition WalkDir (env : Env) (root : string) (fn : WalkDirFunc) (st : State)
  : State * option error :=
  let (st1, err) :=
    match Lstat env root with
    | Err e => callFn fn root None (Some e) st
    | Ok info => walkDir fn root info st
    end in
  match err with
  | Nil | SkipDir | SkipAll => (st1, None)
  | Fail e => (st1, Some e)
  end.

(** ** [Review] *)

(** [_, ok := ignoreDirs[name]] for the set built from the exclude list. *)
Definition inSet (name : string) (set : list string) : bool :=
  existsb (String.eqb name) set.

(** One section of the report:
    [fmt.Sprintf("## %s (chunk %d/%d)\n\n%s\n\n---\n", path, i+1, len(chunks), res)]. *)
Definition section (path : string) (index total : nat) (res : string) : string :=
  "## " +++ path +++ " (chunk " +++ fmt_d index +++ "/" +++ fmt_d total +++ ")"
    +++ nl +++ nl +++ res +++ nl +++ nl +++ "---" +++ nl.

(** [for i, chunk := range chunks] of [walkFn], from index [i] on;
    [total] is [len(chunks)] of the whole file. *)
Fixpoint reviewLoop (env : Env) (client : Client) (model guideline : string)
  (path ext : string) (total : nat) (i : nat) (chunks : list bytes) (st : State)
  : State :=
  match chunks with
  | [] => st
  | chunk :: rest =>
      let '(st1, (res, err)) :=
        reviewChunk env client model guideline (TrimPrefix ext ".") chunk st in
      match err with
      | Some e =>
          let st2 :=
            logPrintf ("Review error " +++ path +++ "[" +++ fmt_d (i + 1)
                         +++ "]: " +++ e) st1 in
          reviewLoop env client model guideline path ext total (S i) rest st2
      | None =>
          let st2 := fmtPrint res st1 in
          let st3 :=
            setReport (report st2 ++ [section path (i + 1) total res]) st2 in
          reviewLoop env client model guideline path ext total (S i) rest st3
      end
  end.

(** The closure [walkFn] of [Review]. *)
Definition walkFn (env : Env) (rootDir model : string)
  (ignoreDirs : list string) (guidelinePath : string) : WalkDirFunc :=
  fun path d err st =>
    match err with
    | Some e => (st, Fail e)
    | None =>
        match d with
        | None =>
            (* d.IsDir() on a nil DirEntry panics; the walker passes a nil
               entry only together with an error *)
            (st, Fail "invalid memory address or nil pointer dereference")
        | Some d =>
            if IsDir d then
              if inSet (Name d) ignoreDirs && negb (String.eqb path rootDir)
              then (st, SkipDir)
              else (st, Nil)
            else
              let ext := filepath.Ext path in
              match lookup ext langConfig with
              | None => (st, Nil)
              | Some (lang, nodeType) =>
                  let (st1, read) := ReadFile path st in
                  match read with
                  | Err e =>
                      (logPrintf ("Read error " +++ path +++ ": " +++ e) st1, Nil)
                  | Ok src =>
                      let (chunks, perr) := extractFunctions env src lang nodeType in
                      match perr with
                      | Some e =>
                          (logPrintf ("Parse error " +++ path +++ ": " +++ e) st1,
                           Nil)
                      | None =>
                          if Nat.eqb (List.length chunks) 0 then (st1, Nil)
                          else
                            match urlParse env (cfg_OllamaHost (viper env)) with
                            | Err e => (st1, Fail ("parse OLLAMA_HOST: " +++ e))
                            | Ok baseURL =>
                                let client := NewClient baseURL in
                                (reviewLoop env client model guidelinePath path ext
                                   (List.length chunks) 0 chunks st1, Nil)
                            end
                      end
                  end
              end
        end
    end.

Definition title : string := "# Code Review Report" +++ nl +++ nl.

(** The document [Review] writes. *)
Definition document (sections : list string) : bytes :=
  bytes_of_string (title +++ JoinEmpty sections).

(** [walkFn] with the variables [Review] has set when it builds it. *)
Definition reviewWalkFn (env : Env) : WalkDirFunc :=
  walkFn env "." (cfg_model (viper env)) (cfg_exclude (viper env))
    (cfg_guideline (viper env)).

Definition Review (env : Env) (repoRoot outFile : string) (st : State)
  : State * option error :=
  let rootDir := "." in
  let model := cfg_model (viper env) in
  let ignoreDirs := cfg_exclude (viper env) in
  let guidelinePath := cfg_guideline (viper env) in
  let st0 := setReport [] st in
  let (st1, err) :=
    WalkDir env repoRoot (walkFn env rootDir model ignoreDirs guidelinePath) st0 in
  match err with
  | Some e => (st1, Some e)
  | None =>
      let (st2, werr) := WriteFile env outFile (document (report st1)) 420 st1 in
      match werr with
      | Some e => (st2, Some ("write report: " +++ e))
      | None =>
          (fmtPrint ("Review completed: " +++ outFile +++ nl) st2, None)
      end
  end.

(** ** Vocabulary of the properties *)

(** What one chunk adds to the report, given what [reviewChunk] returned
    for it: a section labelled [k/total] when there was no error, nothing
    otherwise. *)
Definition sectionOf (path : string) (total : nat)
  (entry : nat * (string * option error)) : list string :=
  match entry with
  | (k, (res, None)) => [section path k total res]
  | (_, (_, Some _)) => []
  end.

(** The sections of a file all of whose [total] chunks were reviewed, with
    the review texts [texts]: indices [1..total], none missing. *)
Definition allSections (path : string) (total : nat) (texts : list string)
  : list string :=
  map (fun entry => section path (fst entry) total (snd entry))
      (combine (seq 1 total) texts).

(** A string of the form [Review] appends to the report. *)
Definition isSection (s : string) : Prop :=
  exists path k total res, 1 <= k <= total /\ s = section path k total res.

Definition isWrite (ev : Event) : bool :=
  match ev with EvWriteFile _ _ _ => true | _ => false end.

Definition isChat (ev : Event) : bool :=
  match ev with EvChat _ _ => true | _ => false end.

Definition isTemplateLoad (path : string) (ev : Event) : bool :=
  match ev with EvParseFiles p => String.eqb p path | _ => false end.

Definition isLog (ev : Event) : bool :=
  match ev with EvLog _ => true | _ => false end.

(** The events of the per-chunk loop: template loads, chat calls, log
    lines and printed reviews. *)
Definition fromLoop (ev : Event) : bool :=
  match ev with
  | EvParseFiles _ | EvChat _ _ | EvLog _ | EvPrint _ => true
  | _ => false
  end.

(** The events of [walkFn]: those of the loop and the reading of the
    file. *)
Definition fromWalkFn (ev : Event) : bool :=
  match ev with
  | EvReadFile _ => true
  | _ => fromLoop ev
  end.

(** The [i]-th line [walkFn] logs for a failed review. *)
Definition reviewErrorLine (path : string) (i : nat) (e : error) : string :=
  "Review error " +++ path +++ "[" +++ fmt_d (i + 1) +++ "]: " +++ e.

(** The six ways [walkFn] deals with a file, each with the state and the
    error it returns. *)
Inductive FileCase (env : Env) (model g path : string) (st : State)
  : State * WalkErr -> Prop :=
| file_unregistered :
    lookup (filepath.Ext path) langConfig = None ->
    FileCase env model g path st (st, Nil)
| file_unreadable (lang : Language) (nodeType : string) (e : error) :
    lookup (filepath.Ext path) langConfig = Some (lang, nodeType) ->
    disk st path = Err e ->
    FileCase env model g path st
      (logPrintf ("Read error " +++ path +++ ": " +++ e)
         (record (EvReadFile path) st), Nil)
| file_unparsed (lang : Language) (nodeType : string) (src : bytes)
    (chunks : list bytes) (e : error) :
    lookup (filepath.Ext path) langConfig = Some (lang, nodeType) ->
    disk st path = Ok src ->
    extractFunctions env src lang nodeType = (chunks, Some e) ->
    FileCase env model g path st
      (logPrintf ("Parse error " +++ path +++ ": " +++ e)
         (record (EvReadFile path) st), Nil)
| file_without_chunks (lang : Language) (nodeType : string) (src : bytes) :
    lookup (filepath.Ext path) langConfig = Some (lang, nodeType) ->
    disk st path = Ok src ->
    extractFunctions env src lang nodeType = ([], None) ->
    FileCase env model g path st (record (EvReadFile path) st, Nil)
| file_endpoint_malformed (lang : Language) (nodeType : string) (src : bytes)
    (chunks : list bytes) (e : error) :
    lookup (filepath.Ext path) langConfig = Some (lang, nodeType) ->
    disk st path = Ok src ->
    extractFunctions env src lang nodeType = (chunks, None) ->
    chunks <> [] ->
    urlParse env (cfg_OllamaHost (viper env)) = Err e ->
    FileCase env model g path st
      (record (EvReadFile path) st, Fail ("parse OLLAMA_HOST: " +++ e))
| file_reviewed (lang : Language) (nodeType : string) (src : bytes)
    (chunks : list bytes) (base : URL) :
    lookup (filepath.Ext path) langConfig = Some (lang, nodeType) ->
    disk st path = Ok src ->
    extractFunctions env src lang nodeType = (chunks, None) ->
    chunks <> [] ->
    urlParse env (cfg_OllamaHost (viper env)) = Ok base ->
    FileCase env model g path st
      (reviewLoop env (NewClient base) model g path (filepath.Ext path)
         (List.length chunks) 0 chunks (record (EvReadFile path) st), Nil).

(** A file [walkFn] passes over, with the state it leaves: a file whose
    extension has no entry in [langConfig], and a file that parses but
    holds no node of the function node type. *)
Inductive SkippedFile (env : Env) (st : State) (path : string) : State -> Prop :=
| skipped_unregistered :
    lookup (filepath.Ext path) langConfig = None ->
    SkippedFile env st path st
| skipped_without_chunks (lang : Language) (nodeType : string) (src : bytes) :
    lookup (filepath.Ext path) langConfig = Some (lang, nodeType) ->
    disk st path = Ok src ->
    extractFunctions env src lang nodeType = ([], None) ->
    SkippedFile env st path (record (EvReadFile path) st).

(** The events after which the walk cannot go on, each with the error the
    walk then ends in: the walker calling back with an error, and the
    reading of a file that yields chunks while the backend endpoint does
    not parse.  [files] is the content of the files during the walk. *)
Inductive Fatal (env : Env) (files : string -> result bytes)
  : Event -> error -> Prop :=
| fatal_traversal (path : string) (e : error) :
    Fatal env files (EvWalkFn path (Some e)) e
| fatal_endpoint (path : string) (lang : Language) (nodeType : string)
    (src : bytes) (chunks : list bytes) (e : error) :
    lookup (filepath.Ext path) langConfig = Some (lang, nodeType) ->
    files path = Ok src ->
    extractFunctions env src lang nodeType = (chunks, None) ->
    chunks <> [] ->
    urlParse env (cfg_OllamaHost (viper env)) = Err e ->
    Fatal env files (EvReadFile path) ("parse OLLAMA_HOST: " +++ e).

(** What holds between the state [st] in which a part of the walk starts,
    the state [st'] in which it ends and the error [r] it returns: the
    files are as they were, nothing was written, the report grew by
    sections, and a fatal event is the last event and gives the error. *)
Definition WalkInv (env : Env) (st st' : State) (r : WalkErr) : Prop :=
  disk st' = disk st
  /\ exists new secs,
      trace st' = trace st ++ new
      /\ report st' = report st ++ secs
      /\ filter isWrite new = []
      /\ Forall isSection secs
      /\ (forall ev err,
             In ev new -> Fatal env (disk st) ev err ->
             r = Fail err /\ exists l, new = l ++ [ev]).

(** ** A small world to run the pipeline in *)

Module Fixture.

(** The part of text/template the guideline file uses: literal text and
    field actions [{{.name}}].  Other actions are outside this fragment
    and rejected by its parser. *)
Inductive Seg : Type :=
| Text (s : string)
| Field (name : string).

Definition isSpace (c : ascii) : bool := Ascii.eqb c " "%char.

Fixpoint dropSpaces (s : string) : string :=
  match s with
  | String c s' => if isSpace c then dropSpaces s' else s
  | EmptyString => s
  end.

Definition revString (s : string) : string :=
  string_of_list_ascii (List.rev (list_ascii_of_string s)).

Definition trim (s : string) : string :=
  revString (dropSpaces (revString (dropSpaces s))).

Definition action (body : string) : result Seg :=
  match trim body with
  | String "."%char name =>
      if String.eqb name "" then Err "unexpected end of action"
      else Ok (Field name)
  | _ => Err "action outside the modelled fragment"
  end.

(** [cur] is the literal text, or the body of the action, read so far. *)
Fixpoint scan (s : string) (inAction : bool) (cur : string)
  : result (list Seg) :=
  match s with
  | EmptyString =>
      if inAction then Err "unclosed action" else Ok [Text cur]
  | String c1 EmptyString =>
      if inAction then Err "unclosed action"
      else Ok [Text (cur +++ String c1 EmptyString)]
  | String c1 (String c2 rest as s') =>
      if inAction then
        if Ascii.eqb c1 "}"%char && Ascii.eqb c2 "}"%char then
          match action cur, scan rest false "" with
          | Ok seg, Ok segs => Ok (seg :: segs)
          | Err e, _ => Err e
          | _, Err e => Err e
          end
        else scan s' true (cur +++ String c1 EmptyString)
      else
        if Ascii.eqb c1 "{"%char && Ascii.eqb c2 "{"%char then
          match scan rest true "" with
          | Ok segs => Ok (Text cur :: segs)
          | Err e => Err e
          end
        else scan s' false (cur +++ String c1 EmptyString)
  end.

(** A field the data lacks renders empty; [promptData] always has both
    fields of the guideline file. *)
Definition render (data : Fields) (seg : Seg) : string :=
  match seg with
  | Text s => s
  | Field name =>
      match lookup name data with
      | Some v => v
      | None => ""
      end
  end.

Definition parseTemplate (text : string) : result Template :=
  match scan text false "" with
  | Err e => Err e
  | Ok segs => Ok (fun data => Ok (String.concat "" (map (render data) segs)))
  end.

(** The fenced block of [guidelines.md]. *)
Definition guidelineText : string :=
  "Review:" +++ nl +++ "```{{.lang}}" +++ nl +++ "{{.code}}" +++ nl +++ "```" +++ nl.

(** Two top-level Python functions. *)
Definition srcTwo : bytes :=
  bytes_of_string ("def f(): pass" +++ nl +++ "def g(): pass").

Definition fn_leaf (s e : nat) : Node :=
  mkNode "function_definition" s e
    [ mkNode "identifier" (s + 4) (s + 5) [];
      mkNode "parameters" (s + 5) (s + 7) [];
      mkNode "block" (s + 9) e [ mkNode "pass_statement" (s + 9) e [] ] ].

Definition treeTwo : Node :=
  mkNode "module" 0 27 [ fn_leaf 0 13; fn_leaf 14 27 ].

(** A function defined inside another one. *)
Definition srcNested : bytes :=
  bytes_of_string ("def o():" +++ nl +++ "  def i(): pass").

Definition treeNested : Node :=
  mkNode "module" 0 24
    [ mkNode "function_definition" 0 24
        [ mkNode "identifier" 4 5 [];
          mkNode "parameters" 5 7 [];
          mkNode "block" 11 24 [ fn_leaf 11 24 ] ] ].

(** No function at all. *)
Definition srcNone : bytes := bytes_of_string "x = 1".
Definition treeNone : Node :=
  mkNode "module" 0 5
    [ mkNode "expression_statement" 0 5
        [ mkNode "assignment" 0 5
            [ mkNode "identifier" 0 1 []; mkNode "integer" 4 5 [] ] ] ].

Definition sameBytes (a b : bytes) : bool :=
  String.eqb (string_of_bytes a) (string_of_bytes b).

Definition parseTable (lang : Language) (src : bytes) : result Node :=
  if sameBytes src srcTwo then Ok treeTwo
  else if sameBytes src srcNested then Ok treeNested
  else if sameBytes src srcNone then Ok treeNone
  else Err "parsing cancelled".

(** A backend that answers every request in two fragments. *)
Definition chatOk (client : Client) (history : list Event) (req : ChatRequest)
  : list string * option error :=
  (["LG"; "TM"], None).

(** A backend that fails every call. *)
Definition chatDown (client : Client) (history : list Event)
  (req : ChatRequest) : list string * option error :=
  ([], Some "connection refused").

(** A backend whose first call breaks off after one fragment. *)
Definition chatFirstFails (client : Client) (history : list Event)
  (req : ChatRequest) : list string * option error :=
  if Nat.eqb (List.length (filter isChat history)) 0
  then (["LG"], Some "connection reset")
  else (["LG"; "TM"], None).

(** The checks of [url.Parse] that decide the endpoints used here: the
    scheme ([getScheme]), the colon in the first segment of a path without
    scheme, and the brackets and the port of the host.  What it rejects
    [url.Parse] rejects, with the same message as long as the text needs
    no escaping under [%q]; [url.Parse] also rejects control characters,
    bad escapes, bad characters in the host and bad user information,
    which are not looked at here. *)
Definition quote : string := String (ascii_of_nat 34) EmptyString.

Definition one (c : ascii) : string := String c EmptyString.

Definition isLetter (c : ascii) : bool :=
  let n := nat_of_ascii c in
  ((97 <=? n) && (n <=? 122)) || ((65 <=? n) && (n <=? 90)).

Definition isDigit (c : ascii) : bool :=
  let n := nat_of_ascii c in (48 <=? n) && (n <=? 57).

(** [strings.Cut] at a byte: the text before its first occurrence, and
    the text after it if it occurs. *)
Fixpoint cut (sep : ascii) (s : string) : string * option string :=
  match s with
  | EmptyString => (EmptyString, None)
  | String c s' =>
      if Ascii.eqb c sep then (EmptyString, Some s')
      else let (before, after) := cut sep s' in (String c before, after)
  end.

(** The text from the last occurrence of a byte on, if it occurs. *)
Fixpoint fromLast (sep : ascii) (s : string) : option string :=
  match s with
  | EmptyString => None
  | String c s' =>
      match fromLast sep s' with
      | Some tail => Some tail
      | None => if Ascii.eqb c sep then Some s else None
      end
  end.

Fixpoint allDigits (s : string) : bool :=
  match s with
  | EmptyString => true
  | String c s' => isDigit c && allDigits s'
  end.

(** [validOptionalPort]: empty, or a colon followed by digits. *)
Definition validOptionalPort (port : string) : bool :=
  match port with
  | EmptyString => true
  | String c digits => Ascii.eqb c ":"%char && allDigits digits
  end.

(** [getScheme]: the scheme and what follows its colon. *)
Fixpoint getScheme (first : bool) (seen : string) (s raw : string)
  : result (string * string) :=
  match s with
  | EmptyString => Ok (EmptyString, raw)
  | String c s' =>
      if isLetter c then getScheme false (seen +++ one c) s' raw
      else if isDigit c || Ascii.eqb c "+"%char || Ascii.eqb c "-"%char
              || Ascii.eqb c "."%char
      then if first then Ok (EmptyString, raw)
           else getScheme false (seen +++ one c) s' raw
      else if Ascii.eqb c ":"%char
      then if first then Err "missing protocol scheme" else Ok (seen, s')
      else Ok (EmptyString, raw)
  end.

(** [parseHost], as far as it can fail. *)
Definition checkHost (host : string) : option error :=
  let badPort port := "invalid port " +++ quote +++ port +++ quote +++ " after host" in
  if String.prefix "[" host then
    match fromLast "]"%char host with
    | None => Some "missing ']' in host"
    | Some (String _ colonPort) =>
        if validOptionalPort colonPort then None else Some (badPort colonPort)
    | Some EmptyString => None
    end
  else
    match fromLast ":"%char host with
    | Some colonPort =>
        if validOptionalPort colonPort then None else Some (badPort colonPort)
    | None => None
    end.

Definition checkURL (u : string) : option error :=
  match getScheme true EmptyString u u with
  | Err e => Some e
  | Ok (scheme, rest0) =>
      let rest := fst (cut "?"%char rest0) in
      let hasScheme := negb (String.eqb scheme "") in
      if negb (String.prefix "/" rest) && hasScheme then None
      else if negb (String.prefix "/" rest)
              && negb (String.eqb (fst (cut "/"%char rest))
                         (fst (cut ":"%char (fst (cut "/"%char rest)))))
      then Some "first path segment in URL cannot contain colon"
      else if String.prefix "//" rest
              && (hasScheme || negb (String.prefix "///" rest))
      then
        let authority :=
          fst (cut "/"%char
                 (String.substring 2 (String.length rest - 2) rest)) in
        let host :=
          match fromLast "@"%char authority with
          | Some (String _ h) => h
          | _ => authority
          end in
        checkHost host
      else None
  end.

(** [url.Parse]: the part before a fragment is checked, and an error is
    wrapped with the operation and the quoted text. *)
Definition parseURL (s : string) : result URL :=
  let u := fst (cut "#"%char s) in
  match checkURL u with
  | Some e => Err ("parse " +++ quote +++ u +++ quote +++ ": " +++ e)
  | None => Ok s
  end.

Definition config (exclude : list string) (host : string) : Config :=
  {| cfg_model := "codellama";
     cfg_exclude := exclude;
     cfg_guideline := "guidelines.md";
     cfg_OllamaHost := host |}.

Definition lstatTable (root : string) (info : Entry) (path : string)
  : result Entry :=
  if String.eqb path root then Ok info
  else Err ("lstat " +++ path +++ ": no such file or directory").

Definition env (cfg : Config) (root : string) (info : Entry)
  (chat : Client -> list Event -> ChatRequest -> list string * option error)
  : Env :=
  {| viper := cfg;
     Lstat := lstatTable root info;
     ParseCtx := parseTable;
     templateParse := parseTemplate;
     urlParse := parseURL;
     Chat := chat;
     writeFileErr := fun _ => None |}.

Definition files (fs : list (string * bytes)) (path : string) : result bytes :=
  match lookup path fs with
  | Some b => Ok b
  | None => Err ("open " +++ path +++ ": no such file or directory")
  end.

Definition start (fs : list (string * bytes)) : State :=
  {| trace := [];
     disk := files (("guidelines.md", bytes_of_string guidelineText) :: fs);
     report := [] |}.

(** The same without the guideline file. *)
Definition startBare (fs : list (string * bytes)) : State :=
  {| trace := []; disk := files fs; report := [] |}.

Definition host : string := "http://localhost:11434".

(** The two chunks of [srcTwo] and the prompt for the first. *)
Definition chunkF : bytes := bytes_of_string "def f(): pass".
Definition chunkG : bytes := bytes_of_string "def g(): pass".
Definition promptF : string :=
  "Review:" +++ nl +++ "```py" +++ nl +++ "def f(): pass" +++ nl +++ "```" +++ nl.

(** A directory [.] holding [a.py] and [b.txt]. *)
Definition repo : Entry := Dir "." [File "a.py"; File "b.txt"] None.
Definition repoFiles : list (string * bytes) :=
  [ ("a.py", srcTwo); ("b.txt", srcNone) ].

Definition envOk : Env := env (config [] host) "." repo chatOk.
Definition envFirstFails : Env := env (config [] host) "." repo chatFirstFails.
Definition envDown : Env := env (config [] host) "." repo chatDown.

(** The walk started at a directory named [vendor], with [vendor] among
    the excluded names. *)
Definition repoVendor : Entry := Dir "vendor" [File "a.py"] None.
Definition vendorFiles : list (string * bytes) := [ ("vendor/a.py", srcTwo) ].
Definition envVendor : Env :=
  env (config ["vendor"] host) "vendor" repoVendor chatOk.

Definition envVendorOpen : Env :=
  env (config [] host) "vendor" repoVendor chatOk.

(** The walk started at [.], with a directory [vendor] below it. *)
Definition repoWithVendor : Entry :=
  Dir "." [ File "a.py"; Dir "vendor" [File "a.py"] None ] None.
Definition envWithVendor : Env :=
  env (config ["vendor"] host) "." repoWithVendor chatOk.

(** An endpoint [url.Parse] rejects. *)
Definition badHost : string := "127.0.0.1:11434".

(** The error of [url.Parse] on it. *)
Definition badHostError : error :=
  "parse " +++ quote +++ badHost +++ quote
    +++ ": first path segment in URL cannot contain colon".
Definition envBadHost : Env := env (config [] badHost) "." repo chatOk.

(** A directory without a function in it. *)
Definition repoIdle : Entry := Dir "." [File "b.txt"; File "c.py"] None.
Definition idleFiles : list (string * bytes) :=
  [ ("b.txt", srcNone); ("c.py", srcNone) ].
Definition envBadHostIdle : Env :=
  env (config [] badHost) "." repoIdle chatOk.

(** The same directory with a sub-directory that cannot be listed. *)
Definition repoLocked : Entry :=
  Dir "."
    [ File "a.py";
      Dir "locked" [File "x.py"] (Some "open locked: permission denied");
      File "z.py" ]
    None.
Definition envLocked : Env := env (config [] host) "." repoLocked chatOk.

End Fixture.

(** ** Vocabulary of further properties *)

(** The extension of [path] has an entry in [langConfig]. *)
Definition registered (path : string) : bool :=
  match lookup (filepath.Ext path) langConfig with
  | Some _ => true
  | None => false
  end.

(** The request [reviewChunk] builds: the given model and one message, of
    role [user]. *)
Definition isReviewRequest (model : string) (req : ChatRequest) : Prop :=
  exists prompt, req = chatRequest model prompt.

(** A chat event of a run: sent through the client made from the parsed
    endpoint, with a request as [reviewChunk] builds it for the configured
    model.  Other events are not constrained. *)
Definition chatAsConfigured (env : Env) (ev : Event) : Prop :=
  match ev with
  | EvChat client req =>
      urlParse env (cfg_OllamaHost (viper env)) = Ok client
      /\ isReviewRequest (cfg_model (viper env)) req
  | _ => True
  end.

(** A section whose heading names [path]. *)
Definition isSectionOf (path : string) (s : string) : Prop :=
  exists k total res, s = section path k total res.

(** What a part of a run may do, as far as the report and the backend are
    concerned: the report grows by sections of registered files read in
    that part, by no more sections than requests were sent, and every
    request is as configured. *)
Definition Provenance (env : Env) (st st' : State) : Prop :=
  exists new secs,
    trace st' = trace st ++ new
    /\ report st' = report st ++ secs
    /\ Forall (fun s => exists path,
                  isSectionOf path s
                  /\ In (EvReadFile path) new
                  /\ registered path = true) secs
    /\ List.length secs <= List.length (filter isChat new)
    /\ Forall (chatAsConfigured env) new.

(** ** The root command: [ensureModel] and the command's [Run] *)

Module cmd.

(** [strings.ToLower] and [strings.TrimSpace] on ASCII.  Go also folds and
    trims runes outside ASCII; none of those folds to [y], and
    [fmt.Scanln] stores a word without spaces, so the comparison with
    ["y"] that [ensureModel] makes comes out the same. *)
Definition lowerAscii (c : ascii) : ascii :=
  let n := nat_of_ascii c in
  if (65 <=? n) && (n <=? 90) then ascii_of_nat (n + 32) else c.

Fixpoint ToLower (s : string) : string :=
  match s with
  | EmptyString => EmptyString
  | String c s' => String (lowerAscii c) (ToLower s')
  end.

Definition isSpace (c : ascii) : bool :=
  let n := nat_of_ascii c in
  ((9 <=? n) && (n <=? 13)) || Nat.eqb n 32.

Fixpoint trimLeft (s : string) : string :=
  match s with
  | String c s' => if isSpace c then trimLeft s' else s
  | EmptyString => s
  end.

Definition reverse (s : string) : string :=
  string_of_list_ascii (List.rev (list_ascii_of_string s)).

Definition TrimSpace (s : string) : string :=
  reverse (trimLeft (reverse (trimLeft s))).

(** The calls [ensureModel] makes on the client besides chat. *)
Inductive BackendCall : Type :=
| CallList (client : Client)
| CallPull (client : Client) (name : string).

(** The collaborators of the root command: [client.List] (the names of
    the models it returns), the word [fmt.Scanln] stores in [ans], and
    [client.Pull] (the [Status] of the progress responses it hands to the
    callback, then its return value). *)
Record Backend : Type := {
  ListModels : Client -> result (list string);
  Scanln : string;
  Pull : Client -> string -> list string * option error
}.

(** The flags and the one setting the root command reads itself. *)
Record Flags : Type := {
  flag_repository : string;
  flag_source : string;
  cfg_output : string
}.

(** The state of the command: that of the pipeline, and the calls made on
    the client by [ensureModel]. *)
Record CmdState : Type := {
  core : State;
  calls : list BackendCall
}.

Definition call (c : BackendCall) (st : CmdState) : CmdState :=
  {| core := core st; calls := calls st ++ [c] |}.

Definition onCore (f : State -> State) (st : CmdState) : CmdState :=
  {| core := f (core st); calls := calls st |}.

(** The callback of [client.Pull]: a status is logged unless empty. *)
Definition logStatus (st : CmdState) (status : string) : CmdState :=
  if String.eqb status "" then st else onCore (logPrintf status) st.

Definition ensureModel (env : Env) (be : Backend) (st : CmdState)
  : CmdState * option error :=
  let model := cfg_model (viper env) in
  if String.eqb model "" then (st, Some "model is not specified")
  else
    match urlParse env (cfg_OllamaHost (viper env)) with
    | Err e => (st, Some ("parse OllamaHost: " +++ e))
    | Ok baseURL =>
        let client := NewClient baseURL in
        let st1 := call (CallList client) st in
        match ListModels be client with
        | Err e => (st1, Some ("list models: " +++ e))
        | Ok names =>
            if existsb (fun name => String.eqb name model) names
            then (st1, None)
            else
              let st2 :=
                onCore (fmtPrint ("Model " +++ model
                                    +++ " not found. Pull now? [y/N]: ")) st1 in
              let ans := Scanln be in
              if negb (String.eqb (ToLower (TrimSpace ans)) "y")
              then (st2, Some ("required model " +++ model +++ " not available"))
              else
                let st3 := call (CallPull client model) st2 in
                let (statuses, err) := Pull be client model in
                let st4 := fold_left logStatus statuses st3 in
                match err with
                | Some e => (st4, Some ("pull model: " +++ e))
                | None => (st4, None)
                end
        end
    end.

(** How the command ends: [Run] returns, or [cobra.CheckErr] has printed
    [Error: ...] on the standard error and exited with status 1. *)
Inductive Outcome : Type :=
| Returned
| Exited (status : nat) (stderr : string).

(** [cobra.CheckErr]. *)
Definition CheckErr (err : option error) : option Outcome :=
  match err with
  | Some e => Some (Exited 1 ("Error: " +++ e +++ nl))
  | None => None
  end.

(** The [Run] function of [rootCmd]. *)
Definition Run (env : Env) (be : Backend) (flags : Flags) (st : CmdState)
  : CmdState * Outcome :=
  let (st1, err) := ensureModel env be st in
  match CheckErr err with
  | Some exit => (st1, exit)
  | None =>
      let output := cfg_output flags in
      let target :=
        if negb (String.eqb (flag_source flags) "")
        then flag_source flags else flag_repository flags in
      let (core2, rerr) := Review env target output (core st1) in
      let st2 := {| core := core2; calls := calls st1 |} in
      match CheckErr rerr with
      | Some exit => (st2, exit)
      | None => (st2, Returned)
      end
  end.

(** A backend with the configured model, one without it and a user who
    declines, and one without it and a user who accepts. *)
Definition backendReady : Backend :=
  {| ListModels := fun _ => Ok ["llama3"; "codellama"];
     Scanln := "";
     Pull := fun _ _ => ([], None) |}.

Definition backendDeclined : Backend :=
  {| ListModels := fun _ => Ok ["llama3"];
     Scanln := "n";
     Pull := fun _ _ => ([], None) |}.

Definition backendAccepted : Backend :=
  {| ListModels := fun _ => Ok ["llama3"];
     Scanln := "Y";
     Pull := fun _ _ => (["pulling manifest"; ""; "success"], None) |}.

Definition flagsRepo : Flags :=
  {| flag_repository := "."; flag_source := ""; cfg_output := "out.md" |}.

Definition begin (fs : list (string * bytes)) : CmdState :=
  {| core := Fixture.start fs; calls := [] |}.

End cmd.

(** ** The users handler ([handlers/users_handler.go]) *)

Module handlers.

(** Go's [int] on a 64-bit platform: [h.nextID++] wraps around. *)
Definition maxInt : Z := (2 ^ 63 - 1)%Z.

Definition wrap (z : Z) : Z := ((z + 2 ^ 63) mod 2 ^ 64 - 2 ^ 63)%Z.

Record User : Type := { ID : Z; UserName : string }.

(** [map[int]User], as the list of its entries; [h.users[id] = user]
    replaces the entry of a key the map has and adds one otherwise. *)
Definition Users := list (Z * User).

Fixpoint store (id : Z) (u : User) (m : Users) : Users :=
  match m with
  | [] => [(id, u)]
  | (k, v) :: m' =>
      if Z.eqb k id then (id, u) :: m' else (k, v) :: store id u m'
  end.

(** The fields of [UsersHandler] besides the mutex.  A request is served
    under the mutex where it touches them, so requests are modelled one
    after the other. *)
Record UsersHandler : Type := { nextID : Z; users : Users }.

Definition NewUsersHandler : UsersHandler := {| nextID := 1%Z; users := [] |}.

(** What is written to the [http.ResponseWriter]: the status, the content
    type, and the body, either a text line or the value handed to the
    JSON encoder. *)
Inductive Body : Type :=
| Text (line : string)
| JSONUser (u : User)
| JSONList (l : list User).

Record Response : Type := { Code : nat; ContentType : string; Payload : Body }.

Record Request : Type := { Method : string; RequestBody : bytes }.

(** [http.Error]. *)
Definition httpError (msg : string) (code : nat) : Response :=
  {| Code := code;
     ContentType := "text/plain; charset=utf-8";
     Payload := Text (msg +++ nl) |}.

(** [range h.users] visits the entries in an order the runtime chooses;
    [order] is that choice for one loop. *)
Definition listUsers (order : Users -> Users) (h : UsersHandler)
  : UsersHandler * Response :=
  let list := fold_left (fun acc entry => acc ++ [snd entry]) (order (users h)) [] in
  (h, {| Code := 200; ContentType := "application/json";
         Payload := JSONList list |}).

(** [decode] is [json.NewDecoder(r.Body).Decode(&input)]: an error, or the
    [Name] the body gave to [input]. *)
Definition createUser (decode : bytes -> result string) (h : UsersHandler)
  (r : Request) : UsersHandler * Response :=
  match decode (RequestBody r) with
  | Err _ => (h, httpError "invalid json" 400)
  | Ok name =>
      if String.eqb name "" then (h, httpError "name is required" 400)
      else
        let id := nextID h in
        let user := {| ID := id; UserName := name |} in
        ({| nextID := wrap (id + 1); users := store id user (users h) |},
         {| Code := 201; ContentType := "application/json";
            Payload := JSONUser user |})
  end.

Definition ServeHTTP (decode : bytes -> result string)
  (order : Users -> Users) (h : UsersHandler) (r : Request)
  : UsersHandler * Response :=
  if String.eqb (Method r) "GET" then listUsers order h
  else if String.eqb (Method r) "POST" then createUser decode h r
  else (h, httpError "method not allowed" 405).

(** Requests served one after the other; [orders n] is the iteration
    order of the [n]-th request. *)
Fixpoint serveAll (decode : bytes -> result string)
  (orders : nat -> Users -> Users) (n : nat) (reqs : list Request)
  (h : UsersHandler) : UsersHandler * list Response :=
  match reqs with
  | [] => (h, [])
  | r :: rest =>
      let (h1, resp) := ServeHTTP decode (orders n) h r in
      let (h2, resps) := serveAll decode orders (S n) rest h1 in
      (h2, resp :: resps)
  end.

(** The names of the requests that create a user, in order. *)
Fixpoint accepted (decode : bytes -> result string) (reqs : list Request)
  : list string :=
  match reqs with
  | [] => []
  | r :: rest =>
      if String.eqb (Method r) "POST" then
        match decode (RequestBody r) with
        | Ok name =>
            if String.eqb name "" then accepted decode rest
            else name :: accepted decode rest
        | Err _ => accepted decode rest
        end
      else accepted decode rest
  end.

(** The users with identifiers [first], [first + 1], ... and these names. *)
Fixpoint numbered (first : Z) (names : list string) : list User :=
  match names with
  | [] => []
  | name :: rest =>
      {| ID := first; UserName := name |} :: numbered (first + 1) rest
  end.

(** The store is consistent: every user is filed under its identifier,
    no identifier occurs twice, and the identifiers are those handed out
    so far, from 1 up to the one before [nextID]. *)
Definition consistent (h : UsersHandler) : Prop :=
  (1 <= nextID h)%Z
  /\ NoDup (map fst (users h))
  /\ Forall (fun entry => ID (snd entry) = fst entry
                          /\ (1 <= fst entry < nextID h)%Z) (users h)
  /\ Z.of_nat (List.length (users h)) = (nextID h - 1)%Z.

(** The users the responses announce as created, in order. *)
Definition created (resps : list Response) : list User :=
  flat_map (fun resp =>
              match Payload resp with
              | JSONUser u => if Nat.eqb (Code resp) 201 then [u] else []
              | _ => []
              end) resps.

(** A decoder to run examples with: the body is read as the name itself,
    and a lone opening brace does not decode. *)
Definition decodeTest (body : bytes) : result string :=
  if Fixture.sameBytes body (bytes_of_string "{") then Err "unexpected EOF"
  else Ok (string_of_bytes body).

Definition post (name : string) : Request :=
  {| Method := "POST"; RequestBody := bytes_of_string name |}.

Definition get : Request := {| Method := "GET"; RequestBody := [] |}.

End handlers.

(** ** Sections and where they come from *)

(** The texts printed among some events, in order. *)
Definition printed (evs : list Event) : list string :=
  flat_map (fun ev => match ev with EvPrint text => [text] | _ => [] end) evs.

(** A review that entered the report: the path of the file, the position
    of the chunk among the chunks of the file, their number, and the text
    of the review. *)
Record Reviewed : Type := {
  r_path : string;
  r_index : nat;
  r_total : nat;
  r_text : string
}.

(** The section [walkFn] appends for it. *)
Definition sectionFor (it : Reviewed) : string :=
  section (r_path it) (r_index it) (r_total it) (r_text it).

(** [it] is the review of a chunk of a file read among the events [new]:
    the file has a registered extension, [files] holds its source, the
    source yields the chunks counted, the chunk is the one at the position,
    and the text is what [reviewChunk] returned for it, without error,
    through the client of the configured endpoint. *)
Definition reviewedIn (env : Env) (files : string -> result bytes)
  (new : list Event) (it : Reviewed) : Prop :=
  exists lang nodeType src chunks chunk client stk st1,
    In (EvReadFile (r_path it)) new
    /\ lookup (filepath.Ext (r_path it)) langConfig = Some (lang, nodeType)
    /\ files (r_path it) = Ok src
    /\ extractFunctions env src lang nodeType = (chunks, None)
    /\ r_total it = List.length chunks
    /\ 1 <= r_index it
    /\ nth_error chunks (r_index it - 1) = Some chunk
    /\ urlParse env (cfg_OllamaHost (viper env)) = Ok client
    /\ disk stk = files
    /\ reviewChunk env client (cfg_model (viper env))
         (cfg_guideline (viper env))
         (TrimPrefix (filepath.Ext (r_path it)) ".") chunk stk
       = (st1, (r_text it, None)).

(** A part of a run that leaves the files alone, adds to the report
    nothing but the sections of such reviews, and prints their texts, and
    nothing else, in the order of the sections. *)
Definition Sectioned (env : Env) (st st' : State) : Prop :=
  disk st' = disk st
  /\ exists new items,
      trace st' = trace st ++ new
      /\ report st' = report st ++ map sectionFor items
      /\ printed new = map r_text items
      /\ Forall (reviewedIn env (disk st) new) items.

(** * Properties *)

(** ** The library functions on examples *)

Example Clean_dot_slash : filepath.Clean "./vendor//x/../y/" = "vendor/y".
Proof. reflexivity. Qed.

Example Join_dot : filepath.Join "." "a.py" = "a.py".
Proof. reflexivity. Qed.

Example Join_sub : filepath.Join "pkg/sub" "a.py" = "pkg/sub/a.py".
Proof. reflexivity. Qed.

Example Ext_py : filepath.Ext "pkg.d/a.test.py" = ".py".
Proof. reflexivity. Qed.

Example Ext_none : filepath.Ext "pkg.d/Makefile" = "".
Proof. reflexivity. Qed.

Example TrimPrefix_py : TrimPrefix ".py" "." = "py".
Proof. reflexivity. Qed.

Example fmt_d_12 : fmt_d 12 = "12".
Proof. reflexivity. Qed.

(** ** Slices *)

Lemma slice_length (src : bytes) (lo hi : nat) :
  lo <= hi -> hi <= List.length src -> List.length (slice src lo hi) = hi - lo.
Proof.
  intros Hlo Hhi. unfold slice.
  rewrite length_firstn, length_skipn. lia.
Qed.

Lemma slice_checked_in_range (src : bytes) (lo hi : nat) :
  lo <= hi -> hi <= List.length src ->
  slice_checked src lo hi = Some (slice src lo hi).
Proof.
  intros Hlo Hhi. unfold slice_checked.
  destruct (Nat.leb_spec lo hi); [|lia].
  destruct (Nat.leb_spec hi (List.length src)); [reflexivity|lia].
Qed.

Lemma firstn_plus {A : Type} (a b : nat) (l : list A) :
  firstn (a + b) l = firstn a l ++ firstn b (skipn a l).
Proof.
  revert l. induction a as [|a IH]; intros l; simpl; trivial.
  destruct l as [|x l]; simpl.
  - now rewrite firstn_nil.
  - now rewrite IH.
Qed.

Lemma slice_split (src : bytes) (lo mid hi : nat) :
  lo <= mid -> mid <= hi ->
  slice src lo hi = slice src lo mid ++ slice src mid hi.
Proof.
  intros H1 H2. unfold slice.
  replace (hi - lo) with ((mid - lo) + (hi - mid)) by lia.
  rewrite firstn_plus. f_equal.
  rewrite skipn_skipn. replace (mid - lo + lo) with mid by lia. reflexivity.
Qed.

(** The bytes of an inner span occur, as they are, inside the bytes of a
    span around it. *)
Lemma slice_inside (src : bytes) (lo lo' hi' hi : nat) :
  lo <= lo' -> lo' <= hi' -> hi' <= hi ->
  slice src lo hi = slice src lo lo' ++ slice src lo' hi' ++ slice src hi' hi.
Proof.
  intros H1 H2 H3.
  rewrite (slice_split src lo lo' hi) by lia.
  rewrite (slice_split src lo' hi' hi) by lia.
  reflexivity.
Qed.

(** ** The extractor visits the tree in pre-order *)

Lemma matched_node (nodeType t : string) (s e : nat) (cs : list Node) :
  matched nodeType (mkNode t s e cs) =
  (if isFunction nodeType (mkNode t s e cs) then [mkNode t s e cs] else [])
    ++ filter (isFunction nodeType) (flat_map preorder cs).
Proof.
  unfold matched. simpl.
  destruct (isFunction nodeType (mkNode t s e cs)); reflexivity.
Qed.

Lemma walk_children (src : bytes) (nodeType : string) (cs : list Node) :
  Forall (fun c => forall acc,
            walk src nodeType c acc
            = acc ++ map (span src) (matched nodeType c)) cs ->
  forall acc,
    fold_left (fun acc c => walk src nodeType c acc) cs acc
    = acc ++ map (span src) (filter (isFunction nodeType) (flat_map preorder cs)).
Proof.
  induction 1 as [|c cs Hc _ IH]; intros acc; simpl.
  - now rewrite app_nil_r.
  - rewrite Hc, IH, filter_app, map_app, <- app_assoc. reflexivity.
Qed.

Lemma walk_preorder (src : bytes) (nodeType : string) (n : Node) :
  forall acc,
    walk src nodeType n acc = acc ++ map (span src) (matched nodeType n).
Proof.
  induction n as [t s e cs IH] using Node_ind. intros acc.
  rewrite matched_node. cbn [walk].
  rewrite (walk_children src nodeType cs IH).
  unfold isFunction at 2.
  destruct (String.eqb (Type_ (mkNode t s e cs)) nodeType); simpl.
  - rewrite <- app_assoc. reflexivity.
  - reflexivity.
Qed.

(** ** Spans in a well-formed tree *)

Lemma wellFormed_node (t : string) (s e : nat) (cs : list Node) :
  wellFormed (mkNode t s e cs) = true ->
  s <= e
  /\ Forall (fun c => s <= StartByte c /\ EndByte c <= e) cs
  /\ siblingsOrdered cs = true
  /\ Forall (fun c => wellFormed c = true) cs.
Proof.
  cbn [wellFormed]. intros H.
  apply andb_prop in H as [H H4]. apply andb_prop in H as [H H3].
  apply andb_prop in H as [H1 H2].
  apply Nat.leb_le in H1.
  repeat split; trivial.
  - apply Forall_forall. intros c Hc.
    rewrite forallb_forall in H2. specialize (H2 c Hc).
    apply andb_prop in H2 as [Ha Hb].
    apply Nat.leb_le in Ha. apply Nat.leb_le in Hb. now split.
  - apply Forall_forall. intros c Hc.
    rewrite forallb_forall in H4. now apply H4.
Qed.

Lemma wellFormed_interval (n : Node) :
  wellFormed n = true -> StartByte n <= EndByte n.
Proof.
  destruct n as [t s e cs]. intros H.
  now apply wellFormed_node in H.
Qed.

(** Every node of a subtree is well formed and spans part of what the root
    of the subtree spans. *)
Lemma preorder_inside (n : Node) :
  wellFormed n = true ->
  forall m, In m (preorder n) ->
    wellFormed m = true
    /\ StartByte n <= StartByte m /\ EndByte m <= EndByte n.
Proof.
  induction n as [t s e cs IH] using Node_ind. intros Hwf m Hm.
  destruct (wellFormed_node _ _ _ _ Hwf) as (Hse & Hin & _ & Hcs).
  cbn [preorder] in Hm. destruct Hm as [<- | Hm].
  - simpl. auto.
  - apply in_flat_map in Hm as (c & Hc & Hm).
    rewrite Forall_forall in IH, Hin, Hcs.
    destruct (IH c Hc (Hcs c Hc) m Hm) as (Hwm & Hs & He).
    destruct (Hin c Hc) as [Hs' He'].
    simpl. repeat split; trivial; lia.
Qed.

Lemma nested_inside (n m : Node) :
  wellFormed n = true -> nestedIn m n ->
  StartByte n <= StartByte m /\ StartByte m <= EndByte m
  /\ EndByte m <= EndByte n.
Proof.
  intros Hwf Hm.
  assert (Hin : In m (preorder n)).
  { destruct n as [t s e cs]. cbn [preorder]. right. exact Hm. }
  destruct (preorder_inside n Hwf m Hin) as (Hwm & Hs & He).
  apply wellFormed_interval in Hwm. auto.
Qed.

(** ** Pre-order is source order *)







(** A subtree is visited in one piece. *)
Lemma preorder_subtree (root n : Node) :
  In n (preorder root) ->
  exists a b, preorder root = a ++ preorder n ++ b.
Proof.
  induction root as [t s e cs IH] using Node_ind. intros Hn.
  cbn [preorder] in Hn. destruct Hn as [<- | Hn].
  - exists [], []. now rewrite app_nil_r.
  - apply in_flat_map in Hn as (c & Hc & Hn).
    rewrite Forall_forall in IH.
    destruct (IH c Hc Hn) as (a & b & Hab).
    apply in_split in Hc as (l1 & l2 & ->).
    exists (mkNode t s e (l1 ++ c :: l2) :: flat_map preorder l1 ++ a),
           (b ++ flat_map preorder l2).
    cbn [preorder]. rewrite flat_map_app. cbn [flat_map].
    rewrite Hab. simpl. f_equal. now rewrite <- !app_assoc.
Qed.

(** ** Nested functions (C4) *)

(** C4.  When a node of the function node type lies inside another node of
    that type, the extractor returns both: the traversal goes on below the
    outer node, the inner node is a chunk of its own after the outer one,
    and the text of the outer chunk contains the text of the inner chunk
    as it is. *)
Theorem nested_function_is_separate_chunk
  (env : Env) (src : bytes) (lang : Language) (nodeType : string)
  (root outer inner : Node) :
  ParseCtx env lang src = Ok root ->
  wellFormed root = true ->
  EndByte root <= List.length src ->
  In outer (preorder root) ->
  isFunction nodeType outer = true ->
  nestedIn inner outer ->
  isFunction nodeType inner = true ->
  exists earlier between later pre post,
    extractFunctions env src lang nodeType
    = (earlier ++ span src outer :: between ++ span src inner :: later, None)
    /\ span src outer = pre ++ span src inner ++ post
    /\ slice_checked src (StartByte outer) (EndByte outer) = Some (span src outer)
    /\ slice_checked src (StartByte inner) (EndByte inner) = Some (span src inner).
Proof.
  intros Hparse Hwf Hlen Houter Hfo Hnested Hfi.
  destruct (preorder_inside root Hwf outer Houter) as (Hwo & Hos & Hoe).
  destruct (nested_inside outer inner Hwo Hnested) as (His & Hi & Hie).
  destruct (preorder_subtree root outer Houter) as (a & b & Hsplit).
  pose proof Hnested as Hin. unfold nestedIn in Hin.
  apply in_split in Hin as (q1 & q2 & Hq).
  assert (Hpo : preorder outer = outer :: q1 ++ inner :: q2).
  { destruct outer as [t s e cs]. cbn [preorder]. f_equal. exact Hq. }
  exists (map (span src) (filter (isFunction nodeType) a)),
         (map (span src) (filter (isFunction nodeType) q1)),
         (map (span src) (filter (isFunction nodeType) (q2 ++ b))),
         (slice src (StartByte outer) (StartByte inner)),
         (slice src (EndByte inner) (EndByte outer)).
  repeat split.
  - unfold extractFunctions. rewrite Hparse.
    rewrite walk_preorder. unfold matched. rewrite Hsplit, Hpo. simpl.
    rewrite !filter_app. cbn [filter]. rewrite Hfo.
    rewrite !filter_app. cbn [filter]. rewrite Hfi.
    rewrite !map_app. cbn [map]. rewrite map_app. cbn [map].
    rewrite !map_app. rewrite <- ?app_assoc. simpl.
    rewrite <- ?app_assoc. reflexivity.
  - unfold span. apply slice_inside; lia.
  - apply slice_checked_in_range; lia.
  - apply slice_checked_in_range; lia.
Qed.

Lemma nested_function_is_separate_chunk_witness :
  exists earlier between later pre post,
    extractFunctions
      (Fixture.env (Fixture.config [] "http://localhost:11434") "."
         (Dir "." [] None) Fixture.chatOk)
      Fixture.srcNested python "function_definition"
    = (earlier
         ++ span Fixture.srcNested
              (mkNode "function_definition" 0 24
                 [ mkNode "identifier" 4 5 [];
                   mkNode "parameters" 5 7 [];
                   mkNode "block" 11 24 [ Fixture.fn_leaf 11 24 ] ])
         :: between ++ span Fixture.srcNested (Fixture.fn_leaf 11 24) :: later,
       None)
    /\ span Fixture.srcNested
         (mkNode "function_definition" 0 24
            [ mkNode "identifier" 4 5 [];
              mkNode "parameters" 5 7 [];
              mkNode "block" 11 24 [ Fixture.fn_leaf 11 24 ] ])
       = pre ++ span Fixture.srcNested (Fixture.fn_leaf 11 24) ++ post
    /\ slice_checked Fixture.srcNested 0 24
       = Some (span Fixture.srcNested
                 (mkNode "function_definition" 0 24
                    [ mkNode "identifier" 4 5 [];
                      mkNode "parameters" 5 7 [];
                      mkNode "block" 11 24 [ Fixture.fn_leaf 11 24 ] ]))
    /\ slice_checked Fixture.srcNested 11 24
       = Some (span Fixture.srcNested (Fixture.fn_leaf 11 24)).
Proof.
  apply (nested_function_is_separate_chunk
           (Fixture.env (Fixture.config [] "http://localhost:11434") "."
              (Dir "." [] None) Fixture.chatOk)
           Fixture.srcNested python "function_definition"
           Fixture.treeNested
           (mkNode "function_definition" 0 24
              [ mkNode "identifier" 4 5 [];
                mkNode "parameters" 5 7 [];
                mkNode "block" 11 24 [ Fixture.fn_leaf 11 24 ] ])
           (Fixture.fn_leaf 11 24)).
  - reflexivity.
  - reflexivity.
  - vm_compute. lia.
  - simpl. right. left. reflexivity.
  - reflexivity.
  - unfold nestedIn. simpl. do 3 right. left. reflexivity.
  - reflexivity.
Defined.

(** ** What one review does *)

Lemma buildPrompt_loads (env : Env) (g lang : string) (code : bytes) (st : State) :
  fst (buildPrompt env g lang code st) = record (EvParseFiles g) st.
Proof.
  unfold buildPrompt, ParseFiles.
  destruct (disk st g) as [text|e]; [|reflexivity].
  destruct (templateParse env (string_of_bytes text)) as [tmpl|e]; [|reflexivity].
  destruct (tmpl (promptData lang code)); reflexivity.
Qed.

(** The two ways [reviewChunk] ends: the prompt could not be built, and
    nothing is sent; or one request is sent, and its outcome decides. *)
Lemma reviewChunk_cases (env : Env) (client : Client) (model g lang : string)
  (code : bytes) (st : State) :
  let st1 := record (EvParseFiles g) st in
  (exists e,
      buildPrompt env g lang code st = (st1, ("", Some e))
      /\ reviewChunk env client model g lang code st = (st1, ("", Some e)))
  \/
  (exists prompt,
      buildPrompt env g lang code st = (st1, (prompt, None))
      /\ reviewChunk env client model g lang code st
         = (record (EvChat client (chatRequest model prompt)) st1,
            match snd (Chat env client (trace st1) (chatRequest model prompt)) with
            | Some e => ("", Some e)
            | None =>
                (accumulate
                   (fst (Chat env client (trace st1) (chatRequest model prompt))),
                 None)
            end)).
Proof.
  intros st1. unfold reviewChunk.
  pose proof (buildPrompt_loads env g lang code st) as Hst.
  destruct (buildPrompt env g lang code st) as [st' [prompt [e|]]] eqn:Hb;
    simpl in Hst; subst st'.
  - left. exists e. split; [|reflexivity].
    unfold buildPrompt, ParseFiles in Hb.
    destruct (disk st g) as [text|e0].
    + destruct (templateParse env (string_of_bytes text)) as [tmpl|e0].
      * destruct (tmpl (promptData lang code)); now inversion Hb.
      * now inversion Hb.
    + now inversion Hb.
  - right. exists prompt. split; [reflexivity|].
    fold st1.
    destruct (Chat env client (trace st1) (chatRequest model prompt))
      as [fragments [e|]]; reflexivity.
Qed.

Lemma reviewChunk_effects (env : Env) (client : Client) (model g lang : string)
  (code : bytes) (st : State) :
  exists st' res err new,
    reviewChunk env client model g lang code st = (st', (res, err))
    /\ trace st' = trace st ++ new
    /\ disk st' = disk st
    /\ report st' = report st
    /\ forallb fromLoop new = true
    /\ List.length (filter (isTemplateLoad g) new) = 1
    /\ List.length (filter isChat new) <= 1
    /\ (err <> None -> res = "").
Proof.
  destruct (reviewChunk_cases env client model g lang code st)
    as [(e & _ & Hr) | (prompt & _ & Hr)]; rewrite Hr.
  - exists (record (EvParseFiles g) st), "", (Some e), [EvParseFiles g].
    simpl. rewrite String.eqb_refl. repeat split; auto.
  - set (req := chatRequest model prompt) in *.
    set (st1 := record (EvParseFiles g) st) in *.
    destruct (Chat env client (trace st1) req) as [fragments [e|]]; simpl.
    + exists (record (EvChat client req) st1), "", (Some e),
        [EvParseFiles g; EvChat client req].
      simpl. rewrite String.eqb_refl, <- app_assoc. repeat split; auto.
    + exists (record (EvChat client req) st1), (accumulate fragments), None,
        [EvParseFiles g; EvChat client req].
      simpl. rewrite String.eqb_refl, <- app_assoc. repeat split; auto.
      intros H. now contradiction H.
Qed.

(** ** What the loop over a file's chunks does *)

Lemma reviewLoop_cons (env : Env) (client : Client) (model g path ext : string)
  (total i : nat) (chunk : bytes) (rest : list bytes) (st : State) :
  reviewLoop env client model g path ext total i (chunk :: rest) st
  = let '(st1, (res, err)) :=
      reviewChunk env client model g (TrimPrefix ext ".") chunk st in
    reviewLoop env client model g path ext total (S i) rest
      match err with
      | Some e => logPrintf (reviewErrorLine path i e) st1
      | None =>
          setReport
            (report (fmtPrint res st1) ++ [section path (i + 1) total res])
            (fmtPrint res st1)
      end.
Proof.
  cbn [reviewLoop].
  destruct (reviewChunk env client model g (TrimPrefix ext ".") chunk st)
    as [st1 [res [e|]]]; reflexivity.
Qed.

Lemma reviewLoop_app (env : Env) (client : Client) (model g path ext : string)
  (total : nat) (l1 l2 : list bytes) :
  forall i st,
    reviewLoop env client model g path ext total i (l1 ++ l2) st
    = reviewLoop env client model g path ext total (i + List.length l1) l2
        (reviewLoop env client model g path ext total i l1 st).
Proof.
  induction l1 as [|c l1 IH]; intros i st.
  - simpl. now rewrite Nat.add_0_r.
  - rewrite <- app_comm_cons, !reviewLoop_cons.
    destruct (reviewChunk env client model g (TrimPrefix ext ".") c st)
      as [st1 [res err]].
    rewrite IH. simpl. rewrite (Nat.add_succ_r i (List.length l1)). reflexivity.
Qed.

(** The report after the loop: one outcome per chunk, and from each
    outcome without error the section with the chunk's index; the rest of
    the state is touched by the loop's own events only, with one template
    load per chunk and at most one request per chunk. *)
Lemma reviewLoop_effects (env : Env) (client : Client) (model g path ext : string)
  (total : nat) (chunks : list bytes) :
  forall i st,
    let st' := reviewLoop env client model g path ext total i chunks st in
    exists outs new,
      List.length outs = List.length chunks
      /\ report st'
         = report st
             ++ flat_map (sectionOf path total)
                  (combine (seq (i + 1) (List.length chunks)) outs)
      /\ trace st' = trace st ++ new
      /\ disk st' = disk st
      /\ forallb fromLoop new = true
      /\ List.length (filter (isTemplateLoad g) new) = List.length chunks
      /\ List.length (filter isChat new) <= List.length chunks
      /\ Forall2 (fun chunk out =>
                    exists stk,
                      snd (reviewChunk env client model g (TrimPrefix ext ".")
                             chunk stk) = out)
                 chunks outs.
Proof.
  induction chunks as [|c rest IH]; intros i st st'.
  - exists [], []. subst st'. simpl. rewrite !app_nil_r. repeat split; auto.
  - subst st'. rewrite reviewLoop_cons.
    destruct (reviewChunk_effects env client model g (TrimPrefix ext ".") c st)
      as (st1 & res & err & new1 & Hr & Ht & Hd & Hrep & Hl & Hp & Hc & _).
    rewrite Hr.
    match goal with
    | |- context [reviewLoop _ _ _ _ _ _ _ (S i) rest ?s] =>
        destruct (IH (S i) s)
          as (outs & new2 & Hlen & Hrep2 & Ht2 & Hd2 & Hl2 & Hp2 & Hc2 & Hall)
    end.
    assert (Hout : snd (reviewChunk env client model g (TrimPrefix ext ".") c st)
                   = (res, err)) by now rewrite Hr.
    destruct err as [e|].
    + exists ((res, Some e) :: outs), (new1 ++ EvLog (reviewErrorLine path i e) :: new2).
      rewrite Hrep2, Ht2, Hd2. simpl.
      rewrite Hrep, Ht, Hd, Hlen.
      rewrite !filter_app, !length_app, forallb_app. simpl.
      rewrite Hl, Hl2, Hp, Hp2, <- !app_assoc. simpl.
      replace (S (i + 1)) with (S i + 1) by lia.
      repeat split; auto; try lia.
      constructor; [now exists st|trivial].
    + exists ((res, None) :: outs), (new1 ++ EvPrint res :: new2).
      rewrite Hrep2, Ht2, Hd2. simpl.
      rewrite Hrep, Ht, Hd, Hlen.
      rewrite !filter_app, !length_app, forallb_app. simpl.
      rewrite Hl, Hl2, Hp, Hp2, <- !app_assoc. simpl.
      replace (S (i + 1)) with (S i + 1) by lia.
      repeat split; auto; try lia.
      constructor; [now exists st|trivial].
Qed.

(** A file never makes [walkFn] fail, whatever its reviews do, once the
    backend endpoint parses. *)
Lemma walkFn_file_continues (env : Env) (rootDir model : string)
  (ignoreDirs : list string) (g path name : string) (st : State) (base : URL) :
  urlParse env (cfg_OllamaHost (viper env)) = Ok base ->
  snd (walkFn env rootDir model ignoreDirs g path (Some (File name)) None st) = Nil.
Proof.
  intros Hurl. unfold walkFn. cbn [IsDir].
  destruct (lookup (filepath.Ext path) langConfig) as [[lang nodeType]|];
    [|reflexivity].
  unfold ReadFile.
  destruct (disk st path) as [src|e]; [|reflexivity].
  destruct (extractFunctions env src lang nodeType) as [chunks [e|]];
    [reflexivity|].
  destruct (Nat.eqb (List.length chunks) 0); [reflexivity|].
  rewrite Hurl. reflexivity.
Qed.

(** ** A failed review (C2) *)

(** C2.  When the chat call for a chunk returns an error, [reviewChunk]
    returns the empty text with that error, whatever fragments had arrived;
    the loop logs the failure and adds no section; exactly one request was
    sent for the chunk; the chunks after it are reviewed from the state so
    reached, under their own indices; and the file does not stop the
    walk. *)
Theorem failed_review_drops_only_its_chunk
  (env : Env) (client : Client) (model g path ext : string) (total i : nat)
  (earlier : list bytes) (chunk : bytes) (later : list bytes) (st : State)
  (prompt : string) (e : error) :
  let lang := TrimPrefix ext "." in
  let st0 := reviewLoop env client model g path ext total i earlier st in
  let st1 := record (EvParseFiles g) st0 in
  let req := chatRequest model prompt in
  let st2 :=
    logPrintf (reviewErrorLine path (i + List.length earlier) e)
      (record (EvChat client req) st1) in
  buildPrompt env g lang chunk st0 = (st1, (prompt, None)) ->
  snd (Chat env client (trace st1) req) = Some e ->
  reviewChunk env client model g lang chunk st0
  = (record (EvChat client req) st1, ("", Some e))
  /\ report st2 = report st0
  /\ disk st2 = disk st0
  /\ trace st2
     = trace st0
         ++ [ EvParseFiles g; EvChat client req;
              EvLog (reviewErrorLine path (i + List.length earlier) e) ]
  /\ reviewLoop env client model g path ext total i (earlier ++ chunk :: later) st
     = reviewLoop env client model g path ext total
         (i + List.length earlier + 1) later st2
  /\ (exists outs,
         List.length outs = List.length later
         /\ report (reviewLoop env client model g path ext total i
                      (earlier ++ chunk :: later) st)
            = report st0
                ++ flat_map (sectionOf path total)
                     (combine (seq (i + List.length earlier + 2)
                                   (List.length later)) outs))
  /\ (forall rootDir ignoreDirs file name stw base,
         urlParse env (cfg_OllamaHost (viper env)) = Ok base ->
         snd (walkFn env rootDir model ignoreDirs g file (Some (File name))
                None stw) = Nil).
Proof.
  intros lang st0 st1 req st2 Hprompt Hchat.
  assert (Hchunk : reviewChunk env client model g lang chunk st0
                   = (record (EvChat client req) st1, ("", Some e))).
  { destruct (reviewChunk_cases env client model g lang chunk st0)
      as [(e' & Hb & _) | (prompt' & Hb & Hr)].
    - fold st1 in Hb. rewrite Hprompt in Hb. discriminate.
    - fold st1 in Hb, Hr. rewrite Hprompt in Hb.
      inversion Hb; subst prompt'. fold req in Hr.
      rewrite Hr, Hchat. reflexivity. }
  assert (Hloop :
            reviewLoop env client model g path ext total i
              (earlier ++ chunk :: later) st
            = reviewLoop env client model g path ext total
                (i + List.length earlier + 1) later st2).
  { rewrite reviewLoop_app, reviewLoop_cons. fold st0 lang.
    rewrite Hchunk. fold st2.
    replace (S (i + List.length earlier)) with (i + List.length earlier + 1)
      by lia.
    reflexivity. }
  split; [exact Hchunk|].
  split; [reflexivity|].
  split; [reflexivity|].
  split.
  { subst st2 st1. simpl. rewrite <- !app_assoc. reflexivity. }
  split; [exact Hloop|].
  split.
  - rewrite Hloop.
    destruct (reviewLoop_effects env client model g path ext total later
                (i + List.length earlier + 1) st2)
      as (outs & new & Hlen & Hrep & _).
    exists outs. split; [exact Hlen|].
    rewrite Hrep.
    replace (i + List.length earlier + 1 + 1) with (i + List.length earlier + 2)
      by lia.
    reflexivity.
  - intros rootDir ignoreDirs file name stw base Hurl.
    now apply walkFn_file_continues with (base := base).
Qed.

Lemma failed_review_drops_only_its_chunk_witness :
  buildPrompt Fixture.envFirstFails "guidelines.md" (TrimPrefix ".py" ".")
    Fixture.chunkF (Fixture.start Fixture.repoFiles)
  = (record (EvParseFiles "guidelines.md") (Fixture.start Fixture.repoFiles),
     (Fixture.promptF, None))
  /\ snd (Chat Fixture.envFirstFails Fixture.host
            (trace (record (EvParseFiles "guidelines.md")
                      (Fixture.start Fixture.repoFiles)))
            (chatRequest "codellama" Fixture.promptF))
     = Some "connection reset"
  /\ reviewChunk Fixture.envFirstFails Fixture.host "codellama" "guidelines.md"
       (TrimPrefix ".py" ".") Fixture.chunkF (Fixture.start Fixture.repoFiles)
     = (record (EvChat Fixture.host (chatRequest "codellama" Fixture.promptF))
          (record (EvParseFiles "guidelines.md")
             (Fixture.start Fixture.repoFiles)),
        ("", Some "connection reset"))
  /\ report (reviewLoop Fixture.envFirstFails Fixture.host "codellama"
               "guidelines.md" "a.py" ".py" 2 0
               [Fixture.chunkF; Fixture.chunkG]
               (Fixture.start Fixture.repoFiles))
     = [section "a.py" 2 2 "LGTM"].
Proof.
  assert (H1 : buildPrompt Fixture.envFirstFails "guidelines.md"
                 (TrimPrefix ".py" ".") Fixture.chunkF
                 (reviewLoop Fixture.envFirstFails Fixture.host "codellama"
                    "guidelines.md" "a.py" ".py" 2 0 []
                    (Fixture.start Fixture.repoFiles))
               = (record (EvParseFiles "guidelines.md")
                    (Fixture.start Fixture.repoFiles),
                  (Fixture.promptF, None))) by reflexivity.
  assert (H2 : snd (Chat Fixture.envFirstFails Fixture.host
                      (trace (record (EvParseFiles "guidelines.md")
                                (Fixture.start Fixture.repoFiles)))
                      (chatRequest "codellama" Fixture.promptF))
               = Some "connection reset") by reflexivity.
  pose proof (failed_review_drops_only_its_chunk
                Fixture.envFirstFails Fixture.host "codellama" "guidelines.md"
                "a.py" ".py" 2 0 [] Fixture.chunkF [Fixture.chunkG]
                (Fixture.start Fixture.repoFiles) Fixture.promptF
                "connection reset" H1 H2) as (Hchunk & _ & _ & _ & _ & _).
  split; [exact H1|]. split; [exact H2|]. split; [exact Hchunk|].
  reflexivity.
Defined.

(** ** The invariant of the walk *)

Lemma WalkInv_refl (env : Env) (st : State) (r : WalkErr) : WalkInv env st st r.
Proof.
  split; [reflexivity|]. exists [], [].
  rewrite !app_nil_r.
  do 3 (split; [reflexivity|]). split; [constructor|].
  intros ev err [].
Qed.

(** A part of the walk that did not fail saw no fatal event. *)
Lemma WalkInv_relabel (env : Env) (st st' : State) (r r' : WalkErr) :
  WalkInv env st st' r -> (forall e, r <> Fail e) -> WalkInv env st st' r'.
Proof.
  intros (Hd & new & secs & Ht & Hr & Hw & Hs & Hf) Hr'.
  split; [exact Hd|]. exists new, secs.
  do 4 (split; [assumption|]).
  intros ev err Hin Hfatal.
  destruct (Hf ev err Hin Hfatal) as [Hfail _]. now apply Hr' in Hfail.
Qed.

Lemma WalkInv_seq (env : Env) (st st1 st2 : State) (r1 r2 : WalkErr) :
  WalkInv env st st1 r1 -> (forall e, r1 <> Fail e) ->
  WalkInv env st1 st2 r2 -> WalkInv env st st2 r2.
Proof.
  intros (Hd1 & new1 & secs1 & Ht1 & Hr1 & Hw1 & Hs1 & Hf1) Hok
         (Hd2 & new2 & secs2 & Ht2 & Hr2 & Hw2 & Hs2 & Hf2).
  split; [congruence|].
  exists (new1 ++ new2), (secs1 ++ secs2).
  split; [now rewrite Ht2, Ht1, app_assoc|].
  split; [now rewrite Hr2, Hr1, app_assoc|].
  split; [now rewrite filter_app, Hw1, Hw2|].
  split; [now apply Forall_app|].
  intros ev err Hin Hfatal.
  apply in_app_or in Hin as [Hin | Hin].
  - destruct (Hf1 ev err Hin Hfatal) as [Hfail _]. now apply Hok in Hfail.
  - rewrite <- Hd1 in Hfatal.
    destruct (Hf2 ev err Hin Hfatal) as [Hfail [l Hl]].
    split; [exact Hfail|]. exists (new1 ++ l). now rewrite Hl, app_assoc.
Qed.

Lemma fromLoop_not_fatal (env : Env) (files : string -> result bytes)
  (ev : Event) (err : error) :
  fromLoop ev = true -> ~ Fatal env files ev err.
Proof.
  intros Hloop Hfatal. destruct Hfatal; discriminate.
Qed.

Lemma fromLoop_not_write (new : list Event) :
  forallb fromLoop new = true -> filter isWrite new = [].
Proof.
  induction new as [|ev new IH]; simpl; trivial.
  intros H. apply andb_prop in H as [Hev H].
  destruct ev; try discriminate; simpl; auto.
Qed.

Lemma sectionOf_isSection (path : string) (total : nat) :
  forall (outs : list (string * option error)) (i : nat),
    i + List.length outs <= total ->
    Forall isSection
      (flat_map (sectionOf path total)
         (combine (seq (i + 1) (List.length outs)) outs)).
Proof.
  induction outs as [|[res [e|]] outs IH]; intros i Hle; simpl in *.
  - constructor.
  - replace (S (i + 1)) with (S i + 1) by lia. apply IH. lia.
  - constructor.
    + exists path, (i + 1), total, res. split; [lia|reflexivity].
    + replace (S (i + 1)) with (S i + 1) by lia. apply IH. lia.
Qed.

(** ** [walkFn], case by case *)

Lemma walkFn_error (env : Env) (rootDir model : string)
  (ignoreDirs : list string) (g path : string) (d : option Entry) (e : error)
  (st : State) :
  walkFn env rootDir model ignoreDirs g path d (Some e) st = (st, Fail e).
Proof. reflexivity. Qed.

Lemma walkFn_dir (env : Env) (rootDir model : string)
  (ignoreDirs : list string) (g path name : string) (entries : list Entry)
  (readErr : option error) (st : State) :
  walkFn env rootDir model ignoreDirs g path
    (Some (Dir name entries readErr)) None st
  = (st, if inSet name ignoreDirs && negb (String.eqb path rootDir)
         then SkipDir else Nil).
Proof.
  unfold walkFn. cbn [IsDir Name].
  destruct (inSet name ignoreDirs && negb (String.eqb path rootDir));
    reflexivity.
Qed.

Lemma walkFn_file (env : Env) (rootDir model : string)
  (ignoreDirs : list string) (g path name : string) (st : State) :
  FileCase env model g path st
    (walkFn env rootDir model ignoreDirs g path (Some (File name)) None st).
Proof.
  unfold walkFn. cbn [IsDir].
  destruct (lookup (filepath.Ext path) langConfig) as [[lang nodeType]|] eqn:Hl;
    [|now constructor].
  unfold ReadFile.
  destruct (disk st path) as [src|e] eqn:Hd;
    [|now apply file_unreadable with lang nodeType].
  destruct (extractFunctions env src lang nodeType) as [chunks [e|]] eqn:He;
    [now apply file_unparsed with lang nodeType src chunks|].
  destruct (Nat.eqb (List.length chunks) 0) eqn:Hn.
  - apply Nat.eqb_eq, length_zero_iff_nil in Hn. subst chunks.
    now apply file_without_chunks with lang nodeType src.
  - assert (Hne : chunks <> []) by (intros ->; discriminate Hn).
    destruct (urlParse env (cfg_OllamaHost (viper env))) as [base|e] eqn:Hu.
    + now apply file_reviewed with lang nodeType src.
    + now apply file_endpoint_malformed with lang nodeType src chunks.
Qed.

(** The walker's call of [walkFn] keeps the invariant. *)
Lemma callFn_walkFn_inv (env : Env) (rootDir model : string)
  (ignoreDirs : list string) (g path : string) (d : option Entry)
  (err : option error) (st : State) :
  WalkInv env st
    (fst (callFn (walkFn env rootDir model ignoreDirs g) path d err st))
    (snd (callFn (walkFn env rootDir model ignoreDirs g) path d err st)).
Proof.
  unfold callFn. set (st0 := record (EvWalkFn path err) st).
  (* the effects of the callback, apart from the walker's entry *)
  assert (Hinner :
            forall st' r new secs,
              walkFn env rootDir model ignoreDirs g path d err st0 = (st', r) ->
              disk st' = disk st ->
              trace st' = trace st ++ EvWalkFn path err :: new ->
              report st' = report st ++ secs ->
              filter isWrite new = [] ->
              Forall isSection secs ->
              (forall e, err = Some e -> new = [] /\ r = Fail e) ->
              (forall ev e, In ev new -> Fatal env (disk st) ev e ->
                            r = Fail e /\ exists l, new = l ++ [ev]) ->
              WalkInv env st st' r).
  { intros st' r new secs _ Hd Ht Hr Hw Hs Herr Hf.
    split; [exact Hd|]. exists (EvWalkFn path err :: new), secs.
    do 2 (split; [assumption|]). split; [exact Hw|]. split; [exact Hs|].
    intros ev e [<- | Hin] Hfatal.
    - inversion Hfatal; subst.
      destruct (Herr e eq_refl) as [-> ->]. split; [reflexivity|].
      now exists [].
    - destruct (Hf ev e Hin Hfatal) as [Hfail [l Hl]].
      split; [exact Hfail|]. exists (EvWalkFn path err :: l). now rewrite Hl. }
  destruct err as [e|].
  - rewrite walkFn_error. simpl.
    apply Hinner with (new := []) (secs := []); simpl; auto.
    + now rewrite app_nil_r.
    + intros e' He'. inversion He'. auto.
    + intros ev e' [].
  - destruct d as [[name|name entries readErr]|].
    + (* a file *)
      pose proof (walkFn_file env rootDir model ignoreDirs g path name st0) as Hcase.
      destruct (walkFn env rootDir model ignoreDirs g path (Some (File name))
                  None st0) as [st' r] eqn:Hw.
      simpl. inversion Hcase; subst.
      * apply Hinner with (new := []) (secs := []); simpl; auto;
          try (now rewrite app_nil_r); try discriminate.
        intros ev e [].
      * eapply Hinner with
          (new := [EvReadFile path;
                   EvLog ("Read error " +++ path +++ ": " +++ e)])
          (secs := []); simpl; auto; try discriminate.
        -- now rewrite <- !app_assoc.
        -- now rewrite app_nil_r.
        -- intros ev e' [<- | [<- | []]] Hfatal; inversion Hfatal; subst.
           simpl in *. congruence.
      * eapply Hinner with
          (new := [EvReadFile path;
                   EvLog ("Parse error " +++ path +++ ": " +++ e)])
          (secs := []); simpl; auto; try discriminate.
        -- now rewrite <- !app_assoc.
        -- now rewrite app_nil_r.
        -- intros ev e' [<- | [<- | []]] Hfatal; inversion Hfatal; subst.
           simpl in *. congruence.
      * eapply Hinner with (new := [EvReadFile path]) (secs := []);
          simpl; auto; try discriminate.
        -- now rewrite <- !app_assoc.
        -- now rewrite app_nil_r.
        -- intros ev e' [<- | []] Hfatal; inversion Hfatal; subst.
           simpl in *. congruence.
      * eapply Hinner with (new := [EvReadFile path]) (secs := []);
          simpl; auto; try discriminate.
        -- now rewrite <- !app_assoc.
        -- now rewrite app_nil_r.
        -- intros ev e' [<- | []] Hfatal; inversion Hfatal; subst.
           simpl in *. split; [congruence|]. now exists [].
      * destruct (reviewLoop_effects env (NewClient base) model g path
                    (filepath.Ext path) (List.length chunks) chunks 0
                    (record (EvReadFile path) st0))
          as (outs & new & Hlen & Hrep & Ht & Hd & Hl & _).
        eapply Hinner with (new := EvReadFile path :: new)
          (secs := flat_map (sectionOf path (List.length chunks))
                     (combine (seq (0 + 1) (List.length chunks)) outs));
          try discriminate.
        -- reflexivity.
        -- now rewrite Hd.
        -- rewrite Ht. simpl. now rewrite <- !app_assoc.
        -- now rewrite Hrep.
        -- simpl. now apply fromLoop_not_write.
        -- rewrite <- Hlen. apply sectionOf_isSection. lia.
        -- intros ev e' [<- | Hin] Hfatal.
           ++ inversion Hfatal; subst. simpl in *. congruence.
           ++ exfalso. rewrite forallb_forall in Hl.
              now apply (fromLoop_not_fatal env (disk st) ev e' (Hl ev Hin)).
    + (* a directory *)
      rewrite walkFn_dir. simpl.
      apply Hinner with (new := []) (secs := []);
        [apply walkFn_dir|..]; simpl; auto;
        try (now rewrite app_nil_r); try discriminate.
      intros ev e [].
    + (* no entry and no error *)
      simpl.
      apply Hinner with (new := []) (secs := []); simpl; auto;
        try (now rewrite app_nil_r); try discriminate.
      intros ev e [].
Qed.

(** ** The walker, equation by equation *)

Lemma walkDir_file (fn : WalkDirFunc) (path name : string) (st : State) :
  walkDir fn path (File name) st = callFn fn path (Some (File name)) None st.
Proof.
  cbn [walkDir]. now destruct (callFn fn path (Some (File name)) None st).
Qed.

Lemma walkDir_dir (fn : WalkDirFunc) (path name : string) (dirs : list Entry)
  (readErr : option error) (st : State) :
  walkDir fn path (Dir name dirs readErr) st
  = let d := Dir name dirs readErr in
    let (st1, err) := callFn fn path (Some d) None st in
    match err with
    | SkipDir => (st1, Nil)
    | Nil =>
        let (st2, err2) :=
          match readErr with
          | Some e => callFn fn path (Some d) (Some e) st1
          | None => (st1, Nil)
          end in
        match err2 with
        | SkipDir => (st2, Nil)
        | Nil => walkEntries fn path dirs st2
        | _ => (st2, err2)
        end
    | _ => (st1, err)
    end.
Proof. reflexivity. Qed.

Lemma walkEntries_cons (fn : WalkDirFunc) (path : string) (d1 : Entry)
  (rest : list Entry) (st : State) :
  walkEntries fn path (d1 :: rest) st
  = let (st', err1) := walkDir fn (filepath.Join path (Name d1)) d1 st in
    match err1 with
    | Nil => walkEntries fn path rest st'
    | SkipDir => (st', Nil)
    | _ => (st', err1)
    end.
Proof. reflexivity. Qed.

(** ** The invariant holds along the whole walk *)

Section WalkInvariant.
Variable env : Env.
Variables rootDir model g : string.
Variable ignoreDirs : list string.

Let fn : WalkDirFunc := walkFn env rootDir model ignoreDirs g.

Lemma walkEntries_inv (path : string) (ds : list Entry) :
  Forall (fun d => forall p st,
              WalkInv env st (fst (walkDir fn p d st)) (snd (walkDir fn p d st)))
         ds ->
  forall st,
    WalkInv env st (fst (walkEntries fn path ds st))
      (snd (walkEntries fn path ds st)).
Proof.
  induction 1 as [|d1 rest Hd1 _ IH]; intros st.
  - apply WalkInv_refl.
  - rewrite walkEntries_cons.
    specialize (Hd1 (filepath.Join path (Name d1)) st).
    destruct (walkDir fn (filepath.Join path (Name d1)) d1 st) as [st' err1].
    simpl in Hd1.
    destruct err1; simpl; trivial.
    + apply WalkInv_seq with st' Nil; [exact Hd1|discriminate|apply IH].
    + apply WalkInv_relabel with SkipDir; [exact Hd1|discriminate].
Qed.

Lemma walkDir_inv (d : Entry) :
  forall path st,
    WalkInv env st (fst (walkDir fn path d st)) (snd (walkDir fn path d st)).
Proof.
  induction d as [name|name dirs readErr IH] using Entry_ind; intros path st.
  - rewrite walkDir_file. apply callFn_walkFn_inv.
  - rewrite walkDir_dir. cbv zeta.
    pose proof (callFn_walkFn_inv env rootDir model ignoreDirs g path
                  (Some (Dir name dirs readErr)) None st) as H1.
    fold fn in H1.
    destruct (callFn fn path (Some (Dir name dirs readErr)) None st)
      as [st1 err].
    simpl in H1.
    destruct err; simpl; trivial.
    + (* the directory is entered *)
      assert (H2 : exists st2 err2,
                 match readErr with
                 | Some e =>
                     callFn fn path (Some (Dir name dirs readErr)) (Some e) st1
                 | None => (st1, Nil)
                 end = (st2, err2)
                 /\ WalkInv env st st2 err2).
      { destruct readErr as [e|].
        - pose proof (callFn_walkFn_inv env rootDir model ignoreDirs g path
                        (Some (Dir name dirs (Some e))) (Some e) st1) as H2.
          fold fn in H2.
          destruct (callFn fn path (Some (Dir name dirs (Some e))) (Some e) st1)
            as [st2 err2].
          exists st2, err2. split; [reflexivity|].
          apply WalkInv_seq with st1 Nil; [exact H1|discriminate|exact H2].
        - exists st1, Nil. split; [reflexivity|exact H1]. }
      destruct H2 as (st2 & err2 & -> & H2).
      destruct err2; simpl; trivial.
      * pose proof (walkEntries_inv path dirs IH st2) as H3.
        destruct (walkEntries fn path dirs st2) as [st3 err3].
        simpl in *.
        apply WalkInv_seq with st2 Nil; [exact H2|discriminate|exact H3].
      * apply WalkInv_relabel with SkipDir; [exact H2|discriminate].
    + apply WalkInv_relabel with SkipDir; [exact H1|discriminate].
Qed.

End WalkInvariant.

(** ** [WalkDir] and [Review] as a whole *)

Lemma WalkDir_inv (env : Env) (root : string) (st : State) :
  let out := WalkDir env root (reviewWalkFn env) st in
  disk (fst out) = disk st
  /\ exists new secs,
      trace (fst out) = trace st ++ new
      /\ report (fst out) = report st ++ secs
      /\ filter isWrite new = []
      /\ Forall isSection secs
      /\ (forall ev e,
             In ev new -> Fatal env (disk st) ev e ->
             snd out = Some e /\ exists l, new = l ++ [ev]).
Proof.
  intros out.
  assert (Hinv : exists st1 r,
             match Lstat env root with
             | Err e => callFn (reviewWalkFn env) root None (Some e) st
             | Ok info => walkDir (reviewWalkFn env) root info st
             end = (st1, r)
             /\ WalkInv env st st1 r).
  { destruct (Lstat env root) as [info|e].
    - pose proof (walkDir_inv env "." (cfg_model (viper env))
                    (cfg_guideline (viper env)) (cfg_exclude (viper env))
                    info root st) as H.
      fold (reviewWalkFn env) in H.
      destruct (walkDir (reviewWalkFn env) root info st) as [st1 r].
      now exists st1, r.
    - pose proof (callFn_walkFn_inv env "." (cfg_model (viper env))
                    (cfg_exclude (viper env)) (cfg_guideline (viper env))
                    root None (Some e) st) as H.
      fold (reviewWalkFn env) in H.
      destruct (callFn (reviewWalkFn env) root None (Some e) st) as [st1 r].
      now exists st1, r. }
  destruct Hinv as (st1 & r & Heq & Hd & new & secs & Ht & Hr & Hw & Hs & Hf).
  assert (Hout : out = (st1, match r with Fail e => Some e | _ => None end)).
  { subst out. unfold WalkDir. rewrite Heq. now destruct r. }
  rewrite Hout. simpl.
  split; [exact Hd|]. exists new, secs.
  do 4 (split; [assumption|]).
  intros ev e Hin Hfatal.
  destruct (Hf ev e Hin Hfatal) as [-> Hl]. now split.
Qed.

(** [Review] after its walk: the error of the walk, or the one write. *)
Lemma Review_after_walk (env : Env) (root outFile : string) (st : State) :
  Review env root outFile st
  = let walked := WalkDir env root (reviewWalkFn env) (setReport [] st) in
    let st1 := fst walked in
    match snd walked with
    | Some e => (st1, Some e)
    | None =>
        let st2 := record (EvWriteFile outFile (document (report st1)) 420) st1 in
        match writeFileErr env outFile with
        | Some e => (st2, Some ("write report: " +++ e))
        | None =>
            (fmtPrint ("Review completed: " +++ outFile +++ nl)
               (setFile outFile (document (report st1)) st2), None)
        end
    end.
Proof.
  unfold Review, WriteFile. fold (reviewWalkFn env).
  destruct (WalkDir env root (reviewWalkFn env) (setReport [] st)) as [st1 [e|]];
    cbn [fst snd]; [reflexivity|].
  destruct (writeFileErr env outFile); reflexivity.
Qed.

(** The entries after a file that [walkFn] lets pass are walked next. *)
Lemma walkEntries_after_file (fn : WalkDirFunc) (dir name : string)
  (rest : list Entry) (st st' : State) :
  fn (filepath.Join dir name) (Some (File name)) None
     (record (EvWalkFn (filepath.Join dir name) None) st) = (st', Nil) ->
  walkEntries fn dir (File name :: rest) st = walkEntries fn dir rest st'.
Proof.
  intros Hfn. rewrite walkEntries_cons. cbn [Name].
  rewrite walkDir_file. unfold callFn. now rewrite Hfn.
Qed.

(** A fatal event in a run of [Review] decides the run: its error is
    what [Review] returns, nothing happens after it, and nothing is
    written. *)
Lemma Review_fatal (env : Env) (root outFile : string) (st st' : State)
  (r : option error) (new : list Event) (ev : Event) (err : error) :
  Review env root outFile st = (st', r) ->
  trace st' = trace st ++ new ->
  In ev new ->
  Fatal env (disk st) ev err ->
  r = Some err
  /\ (exists l, new = l ++ [ev])
  /\ filter isWrite new = []
  /\ disk st' = disk st.
Proof.
  intros HReview Htrace Hin Hfatal.
  rewrite Review_after_walk in HReview. cbv zeta in HReview.
  destruct (WalkDir_inv env root (setReport [] st))
    as (Hd & wnew & secs & Ht & _ & Hw & _ & Hf).
  cbn [trace disk setReport] in Hd, Ht, Hf.
  destruct (snd (WalkDir env root (reviewWalkFn env) (setReport [] st)))
    as [e0|] eqn:Hwalk.
  - (* the walk ended in an error *)
    inversion HReview; subst st' r. clear HReview.
    rewrite Ht in Htrace. apply app_inv_head in Htrace. subst wnew.
    destruct (Hf _ _ Hin Hfatal) as [He Hl].
    repeat split; trivial.
  - (* the walk went through: it saw no fatal event *)
    exfalso.
    assert (Hnew : exists tail,
               new = wnew ++ tail
               /\ forall ev, In ev tail -> isWrite ev = true \/ exists t, ev = EvPrint t).
    { destruct (writeFileErr env outFile) as [e1|];
        inversion HReview; subst st' r; clear HReview;
        cbn [trace record fmtPrint setFile] in Htrace;
        rewrite Ht, <- ?app_assoc in Htrace;
        apply app_inv_head in Htrace; subst new.
      - eexists. split; [reflexivity|].
        intros ev' [<- | []]. now left.
      - eexists. split; [reflexivity|].
        intros ev' [<- | [<- | []]]; [now left|right; eauto]. }
    destruct Hnew as (tail & -> & Htail).
    apply in_app_or in Hin as [Hin | Hin].
    + destruct (Hf _ _ Hin Hfatal) as [He _]. discriminate.
    + destruct (Htail _ Hin) as [Hwr | [t Ht']]; destruct Hfatal; discriminate.
Qed.

(** ** Traversal errors (C5) *)

(** C5.  When the walker reports an error for an entry, that is, calls
    [walkFn] with a non-nil error, [Review] returns that very error, the
    report of the error is the last thing that happened in the run, and no
    file was written.  An unreadable file and a file that does not parse
    are another matter: each is logged, and the walk goes on with the
    entries after it. *)
Theorem traversal_error_aborts_run
  (env : Env) (root outFile : string) (st st' : State) (r : option error)
  (path : string) (e : error) (new : list Event) :
  Review env root outFile st = (st', r) ->
  trace st' = trace st ++ new ->
  In (EvWalkFn path (Some e)) new ->
  r = Some e
  /\ (exists l, new = l ++ [EvWalkFn path (Some e)])
  /\ filter isWrite new = []
  /\ disk st' = disk st
  /\ (forall dir name rest stw lang nodeType e',
         lookup (filepath.Ext (filepath.Join dir name)) langConfig
         = Some (lang, nodeType) ->
         disk stw (filepath.Join dir name) = Err e' ->
         walkEntries (reviewWalkFn env) dir (File name :: rest) stw
         = walkEntries (reviewWalkFn env) dir rest
             (logPrintf
                ("Read error " +++ filepath.Join dir name +++ ": " +++ e')
                (record (EvReadFile (filepath.Join dir name))
                   (record (EvWalkFn (filepath.Join dir name) None) stw))))
  /\ (forall dir name rest stw lang nodeType src e',
         lookup (filepath.Ext (filepath.Join dir name)) langConfig
         = Some (lang, nodeType) ->
         disk stw (filepath.Join dir name) = Ok src ->
         ParseCtx env lang src = Err e' ->
         walkEntries (reviewWalkFn env) dir (File name :: rest) stw
         = walkEntries (reviewWalkFn env) dir rest
             (logPrintf
                ("Parse error " +++ filepath.Join dir name +++ ": "
                   +++ "parse source: " +++ e')
                (record (EvReadFile (filepath.Join dir name))
                   (record (EvWalkFn (filepath.Join dir name) None) stw)))).
Proof.
  intros HReview Htrace Hin.
  destruct (Review_fatal env root outFile st st' r new
              (EvWalkFn path (Some e)) e HReview Htrace Hin
              (fatal_traversal env (disk st) path e))
    as (Hr & Hl & Hw & Hd).
  do 4 (split; [assumption|]).
  split.
  - intros dir name rest stw lang nodeType e' Hlang Hdisk.
    apply walkEntries_after_file.
    unfold reviewWalkFn, walkFn. cbn [IsDir]. rewrite Hlang.
    unfold ReadFile. cbn [disk record]. now rewrite Hdisk.
  - intros dir name rest stw lang nodeType src e' Hlang Hdisk Hparse.
    apply walkEntries_after_file.
    unfold reviewWalkFn, walkFn. cbn [IsDir]. rewrite Hlang.
    unfold ReadFile. cbn [disk record]. rewrite Hdisk.
    unfold extractFunctions. now rewrite Hparse.
Qed.

Lemma traversal_error_aborts_run_witness :
  In (EvWalkFn "locked" (Some "open locked: permission denied"))
     (trace (fst (Review Fixture.envLocked "." "out.md"
                    (Fixture.start Fixture.repoFiles))))
  /\ snd (Review Fixture.envLocked "." "out.md"
            (Fixture.start Fixture.repoFiles))
     = Some "open locked: permission denied"
  /\ filter isWrite
       (trace (fst (Review Fixture.envLocked "." "out.md"
                      (Fixture.start Fixture.repoFiles)))) = [].
Proof.
  assert (H3 : In (EvWalkFn "locked" (Some "open locked: permission denied"))
                 (trace (fst (Review Fixture.envLocked "." "out.md"
                                (Fixture.start Fixture.repoFiles))))).
  { vm_compute. repeat (try (left; reflexivity); right). }
  destruct (traversal_error_aborts_run
              Fixture.envLocked "." "out.md"
              (Fixture.start Fixture.repoFiles)
              (fst (Review Fixture.envLocked "." "out.md"
                      (Fixture.start Fixture.repoFiles)))
              (snd (Review Fixture.envLocked "." "out.md"
                      (Fixture.start Fixture.repoFiles)))
              "locked" "open locked: permission denied"
              (trace (fst (Review Fixture.envLocked "." "out.md"
                             (Fixture.start Fixture.repoFiles))))
              (surjective_pairing _) eq_refl H3)
    as (Hr & _ & Hw & _).
  split; [exact H3|]. split; [exact Hr|exact Hw].
Defined.

(** ** Files that are passed over (C7) *)

(** C7.  A file with an unregistered extension, and a file that parses
    but yields no chunk, make [walkFn] return nil: nothing is logged, no
    request is sent, the report and the files stay as they are (the first
    kind of file is not even read), and the walk goes on with the entries
    after the file. *)
Theorem skipped_file_adds_nothing
  (env : Env) (dir name : string) (rest : list Entry) (st st' : State) :
  let path := filepath.Join dir name in
  let st0 := record (EvWalkFn path None) st in
  SkippedFile env st0 path st' ->
  reviewWalkFn env path (Some (File name)) None st0 = (st', Nil)
  /\ report st' = report st
  /\ disk st' = disk st
  /\ filter isLog (trace st') = filter isLog (trace st)
  /\ filter isChat (trace st') = filter isChat (trace st)
  /\ filter isWrite (trace st') = filter isWrite (trace st)
  /\ walkEntries (reviewWalkFn env) dir (File name :: rest) st
     = walkEntries (reviewWalkFn env) dir rest st'.
Proof.
  intros path st0 Hskip.
  assert (Hfn : reviewWalkFn env path (Some (File name)) None st0 = (st', Nil)).
  { unfold reviewWalkFn, walkFn. cbn [IsDir].
    destruct Hskip as [Hnone | lang nodeType src Hlang Hdisk Hext].
    - now rewrite Hnone.
    - rewrite Hlang. unfold ReadFile. rewrite Hdisk, Hext. reflexivity. }
  split; [exact Hfn|].
  assert (Hst : st' = st0 \/ st' = record (EvReadFile path) st0)
    by (destruct Hskip; auto).
  repeat split.
  - destruct Hst as [-> | ->]; reflexivity.
  - destruct Hst as [-> | ->]; reflexivity.
  - destruct Hst as [-> | ->]; cbn [trace record st0];
      rewrite ?filter_app; simpl; now rewrite ?app_nil_r.
  - destruct Hst as [-> | ->]; cbn [trace record st0];
      rewrite ?filter_app; simpl; now rewrite ?app_nil_r.
  - destruct Hst as [-> | ->]; cbn [trace record st0];
      rewrite ?filter_app; simpl; now rewrite ?app_nil_r.
  - now apply walkEntries_after_file.
Qed.

Lemma skipped_file_adds_nothing_witness :
  SkippedFile Fixture.envOk
    (record (EvWalkFn "b.txt" None) (Fixture.start Fixture.repoFiles))
    "b.txt"
    (record (EvWalkFn "b.txt" None) (Fixture.start Fixture.repoFiles))
  /\ walkEntries (reviewWalkFn Fixture.envOk) "." [File "b.txt"; File "a.py"]
       (Fixture.start Fixture.repoFiles)
     = walkEntries (reviewWalkFn Fixture.envOk) "." [File "a.py"]
         (record (EvWalkFn "b.txt" None) (Fixture.start Fixture.repoFiles)).
Proof.
  assert (H : SkippedFile Fixture.envOk
                (record (EvWalkFn (filepath.Join "." "b.txt") None)
                   (Fixture.start Fixture.repoFiles))
                (filepath.Join "." "b.txt")
                (record (EvWalkFn "b.txt" None) (Fixture.start Fixture.repoFiles))).
  { apply skipped_unregistered. reflexivity. }
  split; [exact H|].
  exact (proj2 (proj2 (proj2 (proj2 (proj2 (proj2
           (skipped_file_adds_nothing Fixture.envOk "." "b.txt" [File "a.py"]
              (Fixture.start Fixture.repoFiles) _ H))))))).
Defined.

(** A file that parses without a function node, in the same way. *)
Example file_without_functions_is_skipped :
  SkippedFile Fixture.envOk
    (record (EvWalkFn "c.py" None) (Fixture.start [("c.py", Fixture.srcNone)]))
    "c.py"
    (record (EvReadFile "c.py")
       (record (EvWalkFn "c.py" None) (Fixture.start [("c.py", Fixture.srcNone)]))).
Proof.
  apply skipped_without_chunks with python "function_definition" Fixture.srcNone;
    reflexivity.
Qed.

(** ** The prompt builder (C8) *)

(** C8.  [buildPrompt] loads the template on every call, from the files
    as they are at that call, and hands it two fields, the language tag and
    the text of the chunk as it is; over a file's chunks the template is
    loaded once per chunk.  When loading, parsing or executing the template
    fails, [reviewChunk] returns that error without sending a request, and
    the loop logs it and goes on with the next chunk. *)
Theorem prompt_is_built_afresh_for_every_chunk
  (env : Env) (client : Client) (model g path ext : string) (total i : nat)
  (chunks : list bytes) (st : State) :
  (forall lang code stq,
      buildPrompt env g lang code stq
      = (record (EvParseFiles g) stq,
         match disk stq g with
         | Err e => ("", Some ("parse template: " +++ e))
         | Ok text =>
             match templateParse env (string_of_bytes text) with
             | Err e => ("", Some ("parse template: " +++ e))
             | Ok tmpl =>
                 match tmpl [("lang", lang); ("code", string_of_bytes code)] with
                 | Err e => ("", Some ("execute template: " +++ e))
                 | Ok out => (out, None)
                 end
             end
         end))
  /\ (exists new,
         trace (reviewLoop env client model g path ext total i chunks st)
         = trace st ++ new
         /\ List.length (filter (isTemplateLoad g) new) = List.length chunks)
  /\ (forall chunk rest e stq,
         snd (snd (buildPrompt env g (TrimPrefix ext ".") chunk stq)) = Some e ->
         reviewChunk env client model g (TrimPrefix ext ".") chunk stq
         = (record (EvParseFiles g) stq, ("", Some e))
         /\ reviewLoop env client model g path ext total i (chunk :: rest) stq
            = reviewLoop env client model g path ext total (S i) rest
                (logPrintf (reviewErrorLine path i e)
                   (record (EvParseFiles g) stq))).
Proof.
  split; [|split].
  - intros lang code stq. unfold buildPrompt, ParseFiles, promptData.
    destruct (disk stq g) as [text|e]; [|reflexivity].
    destruct (templateParse env (string_of_bytes text)) as [tmpl|e];
      [|reflexivity].
    destruct (tmpl [("lang", lang); ("code", string_of_bytes code)]);
      reflexivity.
  - destruct (reviewLoop_effects env client model g path ext total chunks i st)
      as (outs & new & _ & _ & Ht & _ & _ & Hp & _).
    exists new. now split.
  - intros chunk rest e stq Hfail.
    assert (Hchunk : reviewChunk env client model g (TrimPrefix ext ".") chunk stq
                     = (record (EvParseFiles g) stq, ("", Some e))).
    { destruct (reviewChunk_cases env client model g (TrimPrefix ext ".")
                  chunk stq) as [(e' & Hb & Hr) | (prompt & Hb & _)];
        rewrite Hb in Hfail; simpl in Hfail.
      - inversion Hfail; subst e'. exact Hr.
      - discriminate. }
    split; [exact Hchunk|].
    rewrite reviewLoop_cons, Hchunk. reflexivity.
Qed.

Lemma prompt_is_built_afresh_for_every_chunk_witness :
  snd (snd (buildPrompt Fixture.envOk "guidelines.md" (TrimPrefix ".py" ".")
              Fixture.chunkF (Fixture.startBare Fixture.repoFiles)))
  = Some "parse template: open guidelines.md: no such file or directory"
  /\ reviewChunk Fixture.envOk Fixture.host "codellama" "guidelines.md"
       (TrimPrefix ".py" ".") Fixture.chunkF
       (Fixture.startBare Fixture.repoFiles)
     = (record (EvParseFiles "guidelines.md")
          (Fixture.startBare Fixture.repoFiles),
        ("", Some "parse template: open guidelines.md: no such file or directory")).
Proof.
  assert (H : snd (snd (buildPrompt Fixture.envOk "guidelines.md"
                          (TrimPrefix ".py" ".") Fixture.chunkF
                          (Fixture.startBare Fixture.repoFiles)))
              = Some "parse template: open guidelines.md: no such file or directory")
    by reflexivity.
  split; [exact H|].
  exact (proj1
           (proj2 (proj2
              (prompt_is_built_afresh_for_every_chunk Fixture.envOk Fixture.host
                 "codellama" "guidelines.md" "a.py" ".py" 2 0
                 [Fixture.chunkF; Fixture.chunkG]
                 (Fixture.startBare Fixture.repoFiles)))
              Fixture.chunkF [Fixture.chunkG] _
              (Fixture.startBare Fixture.repoFiles) H)).
Defined.

(** The guideline's fenced block, rendered for a chunk. *)
Example prompt_for_python_chunk :
  snd (buildPrompt Fixture.envOk "guidelines.md" "python"
         (bytes_of_string "def f(): pass") (Fixture.start []))
  = ("Review:" +++ nl +++ "```python" +++ nl +++ "def f(): pass" +++ nl
       +++ "```" +++ nl, None).
Proof. reflexivity. Qed.

(** ** A relation kept by every call of the callback is kept by the walk *)

Section WalkPreserves.
Variable fn : WalkDirFunc.
Variable R : State -> State -> Prop.
Hypothesis R_refl : forall st, R st st.
Hypothesis R_trans : forall a b c, R a b -> R b c -> R a c.
Hypothesis R_call :
  forall path d err st, R st (fst (callFn fn path d err st)).

Lemma walkEntries_preserves (path : string) (ds : list Entry) :
  Forall (fun d => forall p st, R st (fst (walkDir fn p d st))) ds ->
  forall st, R st (fst (walkEntries fn path ds st)).
Proof.
  induction 1 as [|d1 rest Hd1 _ IH]; intros st.
  - apply R_refl.
  - rewrite walkEntries_cons.
    specialize (Hd1 (filepath.Join path (Name d1)) st).
    destruct (walkDir fn (filepath.Join path (Name d1)) d1 st) as [st' err1].
    simpl in Hd1.
    destruct err1; simpl; trivial.
    apply R_trans with st'; [exact Hd1|apply IH].
Qed.

Lemma walkDir_preserves (d : Entry) :
  forall path st, R st (fst (walkDir fn path d st)).
Proof.
  induction d as [name|name dirs readErr IH] using Entry_ind; intros path st.
  - rewrite walkDir_file. apply R_call.
  - rewrite walkDir_dir. cbv zeta.
    pose proof (R_call path (Some (Dir name dirs readErr)) None st) as H1.
    destruct (callFn fn path (Some (Dir name dirs readErr)) None st)
      as [st1 err].
    simpl in H1.
    destruct err; simpl; trivial.
    assert (H2 : R st (fst match readErr with
                           | Some e =>
                               callFn fn path (Some (Dir name dirs readErr))
                                 (Some e) st1
                           | None => (st1, Nil)
                           end)).
    { destruct readErr as [e|]; [|exact H1].
      apply R_trans with st1; [exact H1|apply R_call]. }
    destruct (match readErr with
              | Some e =>
                  callFn fn path (Some (Dir name dirs readErr)) (Some e) st1
              | None => (st1, Nil)
              end) as [st2 err2].
    simpl in H2.
    destruct err2; simpl; trivial.
    apply R_trans with st2; [exact H2|].
    now apply walkEntries_preserves.
Qed.

Lemma WalkDir_preserves (env : Env) (root : string) (st : State) :
  R st (fst (WalkDir env root fn st)).
Proof.
  unfold WalkDir.
  destruct (Lstat env root) as [info|e].
  - pose proof (walkDir_preserves info root st) as H.
    destruct (walkDir fn root info st) as [st1 [| | |e]]; exact H.
  - pose proof (R_call root None (Some e) st) as H.
    destruct (callFn fn root None (Some e) st) as [st1 [| | |e']]; exact H.
Qed.

End WalkPreserves.

(** ** Sections, one by one *)

Lemma printed_app (l1 l2 : list Event) :
  printed (l1 ++ l2) = printed l1 ++ printed l2.
Proof. unfold printed. apply flat_map_app. Qed.

(** [reviewChunk] prints nothing and leaves files and report alone. *)
Lemma reviewChunk_quiet (env : Env) (client : Client) (model g lang : string)
  (code : bytes) (st : State) :
  exists new,
    trace (fst (reviewChunk env client model g lang code st)) = trace st ++ new
    /\ printed new = []
    /\ disk (fst (reviewChunk env client model g lang code st)) = disk st
    /\ report (fst (reviewChunk env client model g lang code st)) = report st.
Proof.
  destruct (reviewChunk_cases env client model g lang code st)
    as [(e & _ & Hr) | (prompt & _ & Hr)]; rewrite Hr.
  - exists [EvParseFiles g]. repeat split.
  - exists [EvParseFiles g; EvChat client (chatRequest model prompt)].
    cbn [fst trace record disk report]. rewrite <- app_assoc. repeat split.
Qed.

(** What the loop adds: for each chunk whose review returned without
    error, in the order of the chunks, the printed text and the section
    with the path, the position of the chunk counted from one, the number of
    chunks and that text. *)
Lemma reviewLoop_items (env : Env) (client : Client)
  (model g path ext : string) (total : nat) (chunks : list bytes) :
  forall i st,
    exists items new,
      trace (reviewLoop env client model g path ext total i chunks st)
      = trace st ++ new
      /\ report (reviewLoop env client model g path ext total i chunks st)
         = report st ++ map sectionFor items
      /\ printed new = map r_text items
      /\ Forall (fun it =>
                   r_path it = path
                   /\ r_total it = total
                   /\ exists j chunk stk st1,
                       r_index it = i + j + 1
                       /\ nth_error chunks j = Some chunk
                       /\ disk stk = disk st
                       /\ reviewChunk env client model g (TrimPrefix ext ".")
                            chunk stk = (st1, (r_text it, None))) items.
Proof.
  induction chunks as [|c rest IH]; intros i st.
  - exists [], []. simpl. rewrite !app_nil_r. repeat split. constructor.
  - rewrite reviewLoop_cons.
    destruct (reviewChunk_quiet env client model g (TrimPrefix ext ".") c st)
      as (new1 & Ht1 & Hp1 & Hd1 & Hrep1).
    destruct (reviewChunk env client model g (TrimPrefix ext ".") c st)
      as [st1 [res err]] eqn:Hr.
    cbn [fst] in Ht1, Hd1, Hrep1.
    assert (Hshift :
              forall files items,
                files = disk st ->
                Forall (fun it =>
                          r_path it = path
                          /\ r_total it = total
                          /\ exists j chunk stk st2,
                              r_index it = S i + j + 1
                              /\ nth_error rest j = Some chunk
                              /\ disk stk = files
                              /\ reviewChunk env client model g
                                   (TrimPrefix ext ".") chunk stk
                                 = (st2, (r_text it, None))) items ->
                Forall (fun it =>
                          r_path it = path
                          /\ r_total it = total
                          /\ exists j chunk stk st2,
                              r_index it = i + j + 1
                              /\ nth_error (c :: rest) j = Some chunk
                              /\ disk stk = disk st
                              /\ reviewChunk env client model g
                                   (TrimPrefix ext ".") chunk stk
                                 = (st2, (r_text it, None))) items).
    { intros files items -> Hitems. eapply Forall_impl; [|exact Hitems].
      intros it (Hpath & Htot & j & chunk & stk & st2 & Hidx & Hnth & Hdk & Hrev).
      split; [exact Hpath|]. split; [exact Htot|].
      exists (S j), chunk, stk, st2.
      split; [lia|]. split; [exact Hnth|]. split; [exact Hdk|exact Hrev]. }
    destruct err as [e|].
    + destruct (IH (S i) (logPrintf (reviewErrorLine path i e) st1))
        as (items & new2 & Ht2 & Hrep2 & Hp2 & Hitems).
      exists items, (new1 ++ EvLog (reviewErrorLine path i e) :: new2).
      split.
      { rewrite Ht2. cbn [trace logPrintf record]. rewrite Ht1, <- !app_assoc.
        reflexivity. }
      split.
      { rewrite Hrep2. cbn [report logPrintf record]. now rewrite Hrep1. }
      split.
      { rewrite printed_app, Hp1. exact Hp2. }
      apply (Hshift (disk (logPrintf (reviewErrorLine path i e) st1)));
        [exact Hd1|exact Hitems].
    + destruct (IH (S i)
                  (setReport
                     (report (fmtPrint res st1) ++ [section path (i + 1) total res])
                     (fmtPrint res st1)))
        as (items & new2 & Ht2 & Hrep2 & Hp2 & Hitems).
      exists ({| r_path := path; r_index := i + 1; r_total := total;
                 r_text := res |} :: items),
             (new1 ++ EvPrint res :: new2).
      split.
      { rewrite Ht2. cbn [trace setReport fmtPrint record].
        rewrite Ht1, <- !app_assoc. reflexivity. }
      split.
      { rewrite Hrep2. cbn [report setReport fmtPrint record].
        rewrite Hrep1, <- app_assoc. reflexivity. }
      split.
      { rewrite printed_app, Hp1. cbn [app]. change (printed (EvPrint res :: new2))
          with (res :: printed new2). rewrite Hp2. reflexivity. }
      constructor.
      * cbn [r_path r_index r_total r_text].
        split; [reflexivity|]. split; [reflexivity|].
        exists 0, c, st, st1.
        split; [lia|]. split; [reflexivity|]. split; [reflexivity|exact Hr].
      * apply (Hshift
                 (disk (setReport
                          (report (fmtPrint res st1)
                             ++ [section path (i + 1) total res])
                          (fmtPrint res st1))));
          [exact Hd1|exact Hitems].
Qed.

Lemma reviewedIn_more (env : Env) (files : string -> result bytes)
  (before new after : list Event) (it : Reviewed) :
  reviewedIn env files new it ->
  reviewedIn env files (before ++ new ++ after) it.
Proof.
  intros (lang & nodeType & src & chunks & chunk & client & stk & st1
          & Hin & Hrest).
  exists lang, nodeType, src, chunks, chunk, client, stk, st1.
  split; [|exact Hrest].
  apply in_or_app. right. apply in_or_app. now left.
Qed.

Lemma Sectioned_refl (env : Env) (st : State) : Sectioned env st st.
Proof.
  split; [reflexivity|]. exists [], []. simpl. rewrite !app_nil_r.
  repeat split. constructor.
Qed.

Lemma Sectioned_trans (env : Env) (a b c : State) :
  Sectioned env a b -> Sectioned env b c -> Sectioned env a c.
Proof.
  intros (Hd1 & new1 & items1 & Ht1 & Hr1 & Hp1 & Hs1)
         (Hd2 & new2 & items2 & Ht2 & Hr2 & Hp2 & Hs2).
  split; [congruence|].
  exists (new1 ++ new2), (items1 ++ items2).
  split; [now rewrite Ht2, Ht1, app_assoc|].
  split; [now rewrite Hr2, Hr1, map_app, app_assoc|].
  split; [now rewrite printed_app, map_app, Hp1, Hp2|].
  apply Forall_app. split.
  - eapply Forall_impl; [|exact Hs1]. intros it Hit.
    apply (reviewedIn_more env (disk a) [] new1 new2 it Hit).
  - eapply Forall_impl; [|exact Hs2]. intros it Hit. rewrite Hd1 in Hit.
    pose proof (reviewedIn_more env (disk a) new1 new2 [] it Hit) as H.
    now rewrite app_nil_r in H.
Qed.

(** An event other than a printed text, by itself. *)
Lemma Sectioned_event (env : Env) (st : State) (ev : Event) :
  printed [ev] = [] -> Sectioned env st (record ev st).
Proof.
  intros Hp. split; [reflexivity|]. exists [ev], []. simpl. rewrite app_nil_r.
  split; [reflexivity|]. split; [reflexivity|]. split; [exact Hp|constructor].
Qed.

Lemma callFn_Sectioned (env : Env) (path : string) (d : option Entry)
  (err : option error) (st : State) :
  Sectioned env st (fst (callFn (reviewWalkFn env) path d err st)).
Proof.
  unfold callFn. set (st0 := record (EvWalkFn path err) st).
  apply Sectioned_trans with st0; [now apply Sectioned_event|].
  destruct err as [e|]; [apply Sectioned_refl|].
  destruct d as [[name|name entries readErr]|].
  - pose proof (walkFn_file env "." (cfg_model (viper env))
                  (cfg_exclude (viper env)) (cfg_guideline (viper env))
                  path name st0) as Hcase.
    fold (reviewWalkFn env) in Hcase.
    destruct (reviewWalkFn env path (Some (File name)) None st0) as [st' r].
    simpl. inversion Hcase; subst.
    + apply Sectioned_refl.
    + apply Sectioned_trans with (record (EvReadFile path) st0);
        now apply Sectioned_event.
    + apply Sectioned_trans with (record (EvReadFile path) st0);
        now apply Sectioned_event.
    + now apply Sectioned_event.
    + now apply Sectioned_event.
    + destruct (reviewLoop_items env (NewClient base)
                  (cfg_model (viper env)) (cfg_guideline (viper env)) path
                  (filepath.Ext path) (List.length chunks) chunks 0
                  (record (EvReadFile path) st0))
        as (items & new & Ht & Hrep & Hp & Hitems).
      destruct (reviewLoop_effects env (NewClient base)
                  (cfg_model (viper env)) (cfg_guideline (viper env)) path
                  (filepath.Ext path) (List.length chunks) chunks 0
                  (record (EvReadFile path) st0))
        as (outs & new' & _ & _ & _ & Hd & _).
      split; [exact Hd|].
      exists (EvReadFile path :: new), items.
      split; [rewrite Ht; simpl; now rewrite <- app_assoc|].
      split; [exact Hrep|].
      split; [exact Hp|].
      eapply Forall_impl; [|exact Hitems].
      intros it (Hpath & Htot & j & chunk & stk & st1 & Hidx & Hnth & Hdk & Hrev).
      match goal with
      | Hl : lookup _ _ = Some (?lang, ?nodeType),
        Hs : disk st0 path = Ok ?src |- _ =>
          exists lang, nodeType, src, chunks, chunk, (NewClient base), stk, st1;
          rewrite Hpath;
          split; [now left|];
          split; [exact Hl|];
          split; [exact Hs|]
      end.
      split; [assumption|].
      split; [exact Htot|].
      split; [lia|].
      split; [now replace (r_index it - 1) with j by lia|].
      split; [assumption|].
      split; [exact Hdk|exact Hrev].
  - unfold reviewWalkFn. rewrite walkFn_dir. apply Sectioned_refl.
  - apply Sectioned_refl.
Qed.

(** The walk of [Review], as a whole. *)
Lemma WalkDir_Sectioned (env : Env) (root : string) (st : State) :
  Sectioned env st (fst (WalkDir env root (reviewWalkFn env) st)).
Proof.
  apply (WalkDir_preserves (reviewWalkFn env) (Sectioned env)
           (Sectioned_refl env) (Sectioned_trans env)
           (callFn_Sectioned env)).
Qed.

(** ** The report document (C6, C10) *)

Lemma append_empty_r (s : string) : s +++ "" = s.
Proof. induction s as [|c s IH]; simpl; [reflexivity|now rewrite IH]. Qed.





(** C10.  When the walk returns no error, [Review] calls [os.WriteFile]
    exactly once, on the output path and with the document of the report
    accumulated by then; with an empty report the document is the title
    alone.  If the write succeeds [Review] returns nil and the file holds
    the document; if it fails [Review] returns the wrapped error. *)
Theorem completed_walk_writes_once
  (env : Env) (root outFile : string) (st st1 : State) :
  WalkDir env root (reviewWalkFn env) (setReport [] st) = (st1, None) ->
  exists st' r new,
    Review env root outFile st = (st', r)
    /\ trace st' = trace st ++ new
    /\ filter isWrite new = [EvWriteFile outFile (document (report st1)) 420]
    /\ (report st1 = [] -> document (report st1) = bytes_of_string title)
    /\ (writeFileErr env outFile = None ->
        r = None /\ disk st' outFile = Ok (document (report st1)))
    /\ (forall e, writeFileErr env outFile = Some e ->
                  r = Some ("write report: " +++ e)).
Proof.
  intros Hwalk.
  destruct (WalkDir_inv env root (setReport [] st))
    as (_ & wnew & secs & Ht & _ & Hw & _ & _).
  rewrite Hwalk in Ht. cbn [fst trace setReport] in Ht.
  rewrite Review_after_walk, Hwalk. cbv zeta. cbn [fst snd].
  assert (Htitle : report st1 = [] -> document (report st1) = bytes_of_string title).
  { intros ->. unfold document, JoinEmpty. simpl String.concat.
    now rewrite append_empty_r. }
  destruct (writeFileErr env outFile) as [e|].
  - eexists _, _, (wnew ++ [EvWriteFile outFile (document (report st1)) 420]).
    split; [reflexivity|].
    cbn [trace record]. rewrite Ht, <- app_assoc, filter_app, Hw.
    repeat split; auto; try discriminate.
    intros e' He'. now inversion He'.
  - eexists _, _,
      (wnew ++ [ EvWriteFile outFile (document (report st1)) 420;
                 EvPrint ("Review completed: " +++ outFile +++ nl) ]).
    split; [reflexivity|].
    cbn [trace disk record fmtPrint setFile].
    rewrite Ht, <- !app_assoc, filter_app, Hw, String.eqb_refl.
    repeat split; auto; discriminate.
Qed.

Lemma completed_walk_writes_once_witness :
  report (fst (WalkDir Fixture.envDown "." (reviewWalkFn Fixture.envDown)
                 (setReport [] (Fixture.start Fixture.repoFiles)))) = []
  /\ exists st' r new,
      Review Fixture.envDown "." "out.md" (Fixture.start Fixture.repoFiles)
      = (st', r)
      /\ trace st' = trace (Fixture.start Fixture.repoFiles) ++ new
      /\ filter isWrite new = [EvWriteFile "out.md" (bytes_of_string title) 420].
Proof.
  split; [reflexivity|].
  destruct (completed_walk_writes_once Fixture.envDown "." "out.md"
              (Fixture.start Fixture.repoFiles)
              (fst (WalkDir Fixture.envDown "." (reviewWalkFn Fixture.envDown)
                      (setReport [] (Fixture.start Fixture.repoFiles))))
              eq_refl)
    as (st' & r & new & HReview & Ht & Hw & Htitle & _).
  exists st', r, new. split; [exact HReview|]. split; [exact Ht|].
  rewrite Hw. f_equal.
Defined.

(** ** The backend endpoint (C9) *)

(** C9.  A backend endpoint that does not parse is fatal.  The root
    command stops in [ensureModel], before [Review] is called: it exits
    with status 1 and the error on the standard error, the state being
    exactly as it was, so that nothing is read, no request is sent and no
    report is written.  [Review] itself, where it parses the endpoint (at
    the first file it reads that yields a chunk), ends there: it returns
    the wrapped parse error to its caller, the reading of that file is the
    last event of the run, and no file is written. *)
Theorem malformed_endpoint_is_fatal (env : Env) (e : error) :
  urlParse env (cfg_OllamaHost (viper env)) = Err e ->
  (forall (be : cmd.Backend) (flags : cmd.Flags) (st : cmd.CmdState),
      exists message,
        cmd.Run env be flags st
        = (st, cmd.Exited 1 ("Error: " +++ message +++ nl))
        /\ (cfg_model (viper env) <> "" ->
            message = "parse OllamaHost: " +++ e))
  /\ (forall (root outFile : string) (st st' : State) (r : option error)
             (new : list Event) (file : string) (lang : Language)
             (nodeType : string) (src : bytes) (chunks : list bytes),
         Review env root outFile st = (st', r) ->
         trace st' = trace st ++ new ->
         In (EvReadFile file) new ->
         lookup (filepath.Ext file) langConfig = Some (lang, nodeType) ->
         disk st file = Ok src ->
         extractFunctions env src lang nodeType = (chunks, None) ->
         chunks <> [] ->
         r = Some ("parse OLLAMA_HOST: " +++ e)
         /\ (exists l, new = l ++ [EvReadFile file])
         /\ filter isWrite new = []
         /\ disk st' = disk st).
Proof.
  intros Hurl. split.
  - intros be flags st. unfold cmd.Run, cmd.ensureModel. rewrite Hurl.
    destruct (String.eqb_spec (cfg_model (viper env)) "") as [Hm|Hm].
    + exists "model is not specified". split; [reflexivity|]. now intros H.
    + exists ("parse OllamaHost: " +++ e). split; reflexivity.
  - intros root outFile st st' r new file lang nodeType src chunks
           HReview Htrace Hin Hlang Hdisk Hext Hne.
    apply (Review_fatal env root outFile st st' r new (EvReadFile file)
             ("parse OLLAMA_HOST: " +++ e) HReview Htrace Hin).
    now apply fatal_endpoint with lang nodeType src chunks.
Qed.

Lemma malformed_endpoint_is_fatal_witness :
  (exists message,
      cmd.Run Fixture.envBadHost cmd.backendReady cmd.flagsRepo
        (cmd.begin Fixture.repoFiles)
      = (cmd.begin Fixture.repoFiles,
         cmd.Exited 1 ("Error: " +++ message +++ nl))
      /\ message = "parse OllamaHost: " +++ Fixture.badHostError)
  /\ snd (Review Fixture.envBadHost "." "out.md"
            (Fixture.start Fixture.repoFiles))
     = Some ("parse OLLAMA_HOST: " +++ Fixture.badHostError)
  /\ filter isWrite
       (trace (fst (Review Fixture.envBadHost "." "out.md"
                      (Fixture.start Fixture.repoFiles)))) = [].
Proof.
  assert (Hin : In (EvReadFile "a.py")
                  (trace (fst (Review Fixture.envBadHost "." "out.md"
                                 (Fixture.start Fixture.repoFiles))))).
  { vm_compute. repeat (try (left; reflexivity); right). }
  assert (Hne : [Fixture.chunkF; Fixture.chunkG] <> []) by discriminate.
  assert (Hmodel : cfg_model (viper Fixture.envBadHost) <> "") by discriminate.
  destruct (malformed_endpoint_is_fatal Fixture.envBadHost
              Fixture.badHostError eq_refl) as (HRun & HReview).
  destruct (HRun cmd.backendReady cmd.flagsRepo (cmd.begin Fixture.repoFiles))
    as (message & Hexit & Hmessage).
  destruct (HReview "." "out.md"
              (Fixture.start Fixture.repoFiles)
              (fst (Review Fixture.envBadHost "." "out.md"
                      (Fixture.start Fixture.repoFiles)))
              (snd (Review Fixture.envBadHost "." "out.md"
                      (Fixture.start Fixture.repoFiles)))
              (trace (fst (Review Fixture.envBadHost "." "out.md"
                             (Fixture.start Fixture.repoFiles))))
              "a.py" python "function_definition" Fixture.srcTwo
              [Fixture.chunkF; Fixture.chunkG]
              (surjective_pairing _) eq_refl Hin eq_refl eq_refl eq_refl Hne)
    as (Hr & _ & Hw & _).
  split; [|split; [exact Hr|exact Hw]].
  exists message. split; [exact Hexit|exact (Hmessage Hmodel)].
Defined.

(** ** Section indices (C1) *)






(** The same file when every review succeeds: sections 1/2 and 2/2. *)
Example sections_of_two_functions :
  report (fst (Review Fixture.envOk "." "out.md" (Fixture.start Fixture.repoFiles)))
  = allSections "a.py" 2 ["LGTM"; "LGTM"].
Proof. reflexivity. Qed.

(** ** Excluded directories (C3) *)

(** A directory with an excluded name, at any path but ["."], is not
    entered: the walker's call of [walkFn] on it is all that happens. *)
Lemma excluded_directory_is_skipped (env : Env) (path name : string)
  (entries : list Entry) (readErr : option error) (st : State) :
  inSet name (cfg_exclude (viper env)) = true ->
  path <> "." ->
  walkDir (reviewWalkFn env) path (Dir name entries readErr) st
  = (record (EvWalkFn path None) st, Nil).
Proof.
  intros Hin Hpath. rewrite walkDir_dir. cbv zeta.
  unfold callFn, reviewWalkFn. rewrite walkFn_dir, Hin.
  apply String.eqb_neq in Hpath. rewrite Hpath. reflexivity.
Qed.

(** The entries after it are walked from there. *)
Lemma excluded_directory_siblings_walked (env : Env) (dir name : string)
  (entries rest : list Entry) (readErr : option error) (st : State) :
  inSet name (cfg_exclude (viper env)) = true ->
  filepath.Join dir name <> "." ->
  walkEntries (reviewWalkFn env) dir (Dir name entries readErr :: rest) st
  = walkEntries (reviewWalkFn env) dir rest
      (record (EvWalkFn (filepath.Join dir name) None) st).
Proof.
  intros Hin Hpath. rewrite walkEntries_cons. cbn [Name].
  now rewrite excluded_directory_is_skipped.
Qed.

(** The guard of [walkFn] lets a directory through when its path is
    ["."], whatever its name. *)
Lemma directory_at_dot_is_entered (env : Env) (name : string)
  (entries : list Entry) (readErr : option error) (st : State) :
  reviewWalkFn env "." (Some (Dir name entries readErr)) None st = (st, Nil).
Proof.
  unfold reviewWalkFn. rewrite walkFn_dir.
  now rewrite String.eqb_refl, andb_false_r.
Qed.

(** C3 at a root that is not ["."].  The walk starts at the directory
    [vendor], whose name is excluded; [walkFn] compares the path with ["."]
    and not with the root of the walk, so it skips the root: [vendor/a.py]
    is never read and the report is the title alone.  With nothing
    excluded the same walk reviews both chunks of the file; and below a
    root ["."] the directory [vendor] is skipped while its sibling [a.py]
    is reviewed. *)
Theorem excluded_name_skips_root_other_than_dot :
  trace (fst (Review Fixture.envVendor "vendor" "out.md"
                (Fixture.start Fixture.vendorFiles)))
  = [ EvWalkFn "vendor" None;
      EvWriteFile "out.md" (bytes_of_string title) 420;
      EvPrint ("Review completed: out.md" +++ nl) ]
  /\ report (fst (Review Fixture.envVendorOpen "vendor" "out.md"
                    (Fixture.start Fixture.vendorFiles)))
     = allSections "vendor/a.py" 2 ["LGTM"; "LGTM"]
  /\ report (fst (Review Fixture.envWithVendor "." "out.md"
                    (Fixture.start (("a.py", Fixture.srcTwo)
                                      :: Fixture.vendorFiles))))
     = allSections "a.py" 2 ["LGTM"; "LGTM"].
Proof. repeat split; reflexivity. Qed.

(** * Further properties *)

(** ** The extractor, chunk by chunk *)

Lemma span_of_inner_node (src : bytes) (root n : Node) :
  wellFormed root = true ->
  EndByte root <= List.length src ->
  In n (preorder root) ->
  List.length (span src n) = EndByte n - StartByte n
  /\ slice_checked src (StartByte n) (EndByte n) = Some (span src n).
Proof.
  intros Hwf Hlen Hin.
  destruct (preorder_inside root Hwf n Hin) as (Hwn & Hs & He).
  apply wellFormed_interval in Hwn.
  split.
  - apply slice_length; lia.
  - apply slice_checked_in_range; lia.
Qed.

(** X1.  [extractFunctions] returns one chunk for every node of the function
    node type, no other chunk, in pre-order; each chunk is exactly the
    bytes its node spans, a slice Go takes without panicking. *)
Theorem extract_one_chunk_per_function_node
  (env : Env) (src : bytes) (lang : Language) (nodeType : string) (root : Node) :
  ParseCtx env lang src = Ok root ->
  wellFormed root = true ->
  EndByte root <= List.length src ->
  exists chunks,
    extractFunctions env src lang nodeType = (chunks, None)
    /\ List.length chunks
       = List.length (filter (isFunction nodeType) (preorder root))
    /\ Forall2 (fun node chunk =>
                  Type_ node = nodeType
                  /\ slice_checked src (StartByte node) (EndByte node) = Some chunk
                  /\ List.length chunk = EndByte node - StartByte node)
               (matched nodeType root) chunks
    /\ (chunks = [] <->
        forall node, In node (preorder root) -> Type_ node <> nodeType).
Proof.
  intros Hparse Hwf Hlen.
  exists (map (span src) (matched nodeType root)).
  split.
  { unfold extractFunctions. rewrite Hparse, walk_preorder. reflexivity. }
  split; [now rewrite length_map|].
  split.
  - assert (Hall : Forall (fun node => In node (preorder root)
                                       /\ isFunction nodeType node = true)
                     (matched nodeType root)).
    { apply Forall_forall. intros node Hn. now apply filter_In in Hn. }
    induction Hall as [|node nodes [Hin Hfun] _ IH]; simpl; constructor; trivial.
    destruct (span_of_inner_node src root node Hwf Hlen Hin) as [Hl Hc].
    split; [now apply String.eqb_eq|]. now split.
  - split.
    + intros Hnil node Hin Hty.
      apply map_eq_nil in Hnil.
      assert (Hm : In node (matched nodeType root)).
      { apply filter_In. split; trivial. now apply String.eqb_eq. }
      rewrite Hnil in Hm. destruct Hm.
    + intros Hnone.
      destruct (matched nodeType root) as [|node nodes] eqn:Hm; trivial.
      assert (Hin : In node (matched nodeType root)) by (rewrite Hm; now left).
      apply filter_In in Hin as [Hin Hfun].
      apply String.eqb_eq in Hfun. now destruct (Hnone node Hin).
Qed.

Lemma extract_one_chunk_per_function_node_witness :
  exists chunks,
    extractFunctions Fixture.envOk Fixture.srcTwo python "function_definition"
    = (chunks, None)
    /\ List.length chunks = 2.
Proof.
  destruct (extract_one_chunk_per_function_node Fixture.envOk Fixture.srcTwo
              python "function_definition" Fixture.treeTwo eq_refl eq_refl)
    as (chunks & Hext & Hlen & _).
  - vm_compute. lia.
  - exists chunks. split; [exact Hext|]. rewrite Hlen. reflexivity.
Defined.

(** ** The dispatcher, fragment by fragment *)

Lemma append_assoc (a b c : string) : (a +++ b) +++ c = a +++ (b +++ c).
Proof. induction a as [|x a IH]; simpl; [reflexivity|now rewrite IH]. Qed.

Lemma accumulate_from (fragments : list string) :
  forall buf,
    fold_left (fun buf frag => buf +++ frag) fragments buf
    = buf +++ fold_right String.append "" fragments.
Proof.
  induction fragments as [|frag rest IH]; intros buf; simpl.
  - now rewrite append_empty_r.
  - now rewrite IH, append_assoc.
Qed.

Lemma concat_fragments_app (first second : list string) :
  fold_right String.append "" (first ++ second)
  = fold_right String.append "" first +++ fold_right String.append "" second.
Proof.
  induction first as [|frag first IH]; simpl; trivial.
  now rewrite IH, append_assoc.
Qed.

Lemma accumulate_in_order (fragments : list string) :
  accumulate fragments = fold_right String.append "" fragments.
Proof. unfold accumulate. now rewrite accumulate_from. Qed.

(** X2.  When the prompt is built and the chat call returns no error, the text
    [reviewChunk] returns is the fragments in the order they arrived, one
    after the other with nothing between them: what arrived in two batches
    reads as the first batch followed by the second, and a call without
    fragments gives the empty text.  One request was sent, holding the
    model and a single message of role [user] with the prompt. *)
Theorem review_text_is_fragments_in_order
  (env : Env) (client : Client) (model g lang : string) (code : bytes)
  (st : State) (prompt : string) (first second : list string) :
  snd (buildPrompt env g lang code st) = (prompt, None) ->
  Chat env client (trace (record (EvParseFiles g) st)) (chatRequest model prompt)
  = (first ++ second, None) ->
  reviewChunk env client model g lang code st
  = (record (EvChat client
               {| Model := model;
                  Messages := [ {| Role := "user"; Content := prompt |} ] |})
       (record (EvParseFiles g) st),
     (fold_right String.append "" first +++ fold_right String.append "" second,
      None))
  /\ (first ++ second = [] ->
      snd (reviewChunk env client model g lang code st) = ("", None)).
Proof.
  intros Hprompt Hchat.
  assert (Hr : reviewChunk env client model g lang code st
               = (record (EvChat client (chatRequest model prompt))
                    (record (EvParseFiles g) st),
                  (accumulate (first ++ second), None))).
  { destruct (reviewChunk_cases env client model g lang code st)
      as [(e & Hb & _) | (prompt' & Hb & Hr)];
      rewrite Hb in Hprompt; simpl in Hprompt; [discriminate|].
    inversion Hprompt; subst prompt'. rewrite Hr, Hchat. reflexivity. }
  split.
  - rewrite Hr. unfold chatRequest. do 2 f_equal.
    now rewrite accumulate_in_order, concat_fragments_app.
  - intros Hnil. rewrite Hr, Hnil. reflexivity.
Qed.

Lemma review_text_is_fragments_in_order_witness :
  reviewChunk Fixture.envOk Fixture.host "codellama" "guidelines.md" "py"
    Fixture.chunkF (Fixture.start Fixture.repoFiles)
  = (record (EvChat Fixture.host
               {| Model := "codellama";
                  Messages := [ {| Role := "user"; Content := Fixture.promptF |} ] |})
       (record (EvParseFiles "guidelines.md") (Fixture.start Fixture.repoFiles)),
     ("LG" +++ "TM", None)).
Proof.
  exact (proj1 (review_text_is_fragments_in_order Fixture.envOk Fixture.host
                  "codellama" "guidelines.md" "py" Fixture.chunkF
                  (Fixture.start Fixture.repoFiles) Fixture.promptF
                  ["LG"] ["TM"] eq_refl eq_refl)).
Defined.

(** ** The loop, outcome by outcome *)

(** What one review adds to the trace: the template load, and then the
    request unless the prompt could not be built; a review without error
    has sent its request. *)
Lemma reviewChunk_trace (env : Env) (client : Client) (model g lang : string)
  (code : bytes) (st : State) :
  exists st' res err,
    reviewChunk env client model g lang code st = (st', (res, err))
    /\ disk st' = disk st
    /\ report st' = report st
    /\ ((err <> None /\ trace st' = trace st ++ [EvParseFiles g])
        \/ exists prompt,
            trace st'
            = trace st ++ [EvParseFiles g; EvChat client (chatRequest model prompt)]).
Proof.
  destruct (reviewChunk_cases env client model g lang code st)
    as [(e & _ & Hr) | (prompt & _ & Hr)]; rewrite Hr.
  - eexists _, _, _. split; [reflexivity|]. do 2 (split; [reflexivity|]).
    left. split; [discriminate|reflexivity].
  - destruct (snd (Chat env client (trace (record (EvParseFiles g) st))
                     (chatRequest model prompt)));
      eexists _, _, _; (split; [reflexivity|]);
      do 2 (split; [reflexivity|]); right; exists prompt;
      simpl; now rewrite <- app_assoc.
Qed.

Lemma reviewLoop_provenance (env : Env) (client : Client)
  (model g path ext : string) (total : nat) (chunks : list bytes) :
  forall i st,
    let st' := reviewLoop env client model g path ext total i chunks st in
    exists new secs,
      trace st' = trace st ++ new
      /\ report st' = report st ++ secs
      /\ Forall (isSectionOf path) secs
      /\ List.length secs + List.length (filter isLog new) = List.length chunks
      /\ List.length secs <= List.length (filter isChat new)
      /\ List.length (filter isChat new) <= List.length chunks
      /\ Forall (fun ev =>
                   match ev with
                   | EvChat c req => c = client /\ isReviewRequest model req
                   | _ => True
                   end) new
      /\ forallb fromLoop new = true.
Proof.
  induction chunks as [|c rest IH]; intros i st st'.
  - exists [], []. subst st'. simpl. rewrite !app_nil_r.
    repeat split; auto.
  - subst st'. rewrite reviewLoop_cons.
    destruct (reviewChunk_trace env client model g (TrimPrefix ext ".") c st)
      as (st1 & res & err & Hr & _ & Hrep & Htr).
    rewrite Hr.
    match goal with
    | |- context [reviewLoop _ _ _ _ _ _ _ (S i) rest ?s] =>
        destruct (IH (S i) s)
          as (new2 & secs2 & Ht2 & Hr2 & Hs2 & Hn2 & Hc2 & Hc2' & Hq2 & Hl2)
    end.
    destruct err as [e|].
    + (* the review failed: a log line and no section *)
      destruct Htr as [[_ Htr] | [prompt Htr]].
      * exists ([EvParseFiles g] ++ EvLog (reviewErrorLine path i e) :: new2), secs2.
        rewrite Ht2, Hr2. cbn [trace report logPrintf record].
        rewrite Htr, Hrep, <- !app_assoc. simpl.
        repeat split; auto; try lia.
      * exists ([EvParseFiles g; EvChat client (chatRequest model prompt)]
                  ++ EvLog (reviewErrorLine path i e) :: new2), secs2.
        rewrite Ht2, Hr2. cbn [trace report logPrintf record].
        rewrite Htr, Hrep, <- !app_assoc. simpl.
        repeat split; auto; try lia.
        constructor; [exact I|]. constructor; [|constructor; trivial].
        split; [reflexivity|now exists prompt].
    + (* the review succeeded: a request and a section *)
      destruct Htr as [[Hne _] | [prompt Htr]]; [now contradiction Hne|].
      exists ([EvParseFiles g; EvChat client (chatRequest model prompt)]
                ++ EvPrint res :: new2),
             (section path (i + 1) total res :: secs2).
      rewrite Ht2, Hr2. cbn [trace report fmtPrint setReport record].
      rewrite Htr, Hrep, <- !app_assoc. simpl.
      repeat split; auto; try lia.
      * constructor; trivial. now exists (i + 1), total, res.
      * constructor; [exact I|]. constructor; [|constructor; trivial].
        split; [reflexivity|now exists prompt].
Qed.

(** X3.  Every chunk of a file leaves exactly one thing behind: a section in
    the report, or a [Review error] line in the log.  No section is added
    without a request to the backend, and no chunk is sent twice. *)
Theorem each_chunk_yields_section_or_log
  (env : Env) (client : Client) (model g path ext : string) (total i : nat)
  (chunks : list bytes) (st : State) :
  exists new secs,
    trace (reviewLoop env client model g path ext total i chunks st)
    = trace st ++ new
    /\ report (reviewLoop env client model g path ext total i chunks st)
       = report st ++ secs
    /\ List.length secs + List.length (filter isLog new) = List.length chunks
    /\ List.length secs <= List.length (filter isChat new)
    /\ List.length (filter isChat new) <= List.length chunks.
Proof.
  destruct (reviewLoop_provenance env client model g path ext total chunks i st)
    as (new & secs & Ht & Hr & _ & Hn & Hc & Hc' & _).
  exists new, secs. repeat split; assumption.
Qed.

(** ** Where sections and requests come from *)

Lemma Provenance_refl (env : Env) (st : State) : Provenance env st st.
Proof.
  exists [], []. rewrite !app_nil_r. repeat split; auto.
Qed.

Lemma Provenance_trans (env : Env) (a b c : State) :
  Provenance env a b -> Provenance env b c -> Provenance env a c.
Proof.
  intros (new1 & secs1 & Ht1 & Hr1 & Hs1 & Hn1 & Hc1)
         (new2 & secs2 & Ht2 & Hr2 & Hs2 & Hn2 & Hc2).
  exists (new1 ++ new2), (secs1 ++ secs2).
  split; [now rewrite Ht2, Ht1, app_assoc|].
  split; [now rewrite Hr2, Hr1, app_assoc|].
  split.
  { apply Forall_app. split.
    - eapply Forall_impl; [|exact Hs1].
      intros s (path & Hsec & Hin & Hreg). exists path.
      repeat split; trivial. apply in_or_app. now left.
    - eapply Forall_impl; [|exact Hs2].
      intros s (path & Hsec & Hin & Hreg). exists path.
      repeat split; trivial. apply in_or_app. now right. }
  split; [rewrite filter_app, !length_app; lia|].
  now apply Forall_app.
Qed.

Lemma Provenance_event (env : Env) (st : State) (ev : Event) :
  isChat ev = false -> Provenance env st (record ev st).
Proof.
  intros Hev. exists [ev], []. rewrite app_nil_r.
  repeat split; auto.
  - simpl. rewrite Hev. simpl. lia.
  - constructor; [|constructor]. now destruct ev.
Qed.

Lemma callFn_Provenance (env : Env) (path : string) (d : option Entry)
  (err : option error) (st : State) :
  Provenance env st (fst (callFn (reviewWalkFn env) path d err st)).
Proof.
  unfold callFn. set (st0 := record (EvWalkFn path err) st).
  assert (H0 : Provenance env st st0) by now apply Provenance_event.
  apply Provenance_trans with st0; [exact H0|]. clear H0.
  destruct err as [e|]; [apply Provenance_refl|].
  destruct d as [[name|name entries readErr]|].
  - pose proof (walkFn_file env "." (cfg_model (viper env))
                  (cfg_exclude (viper env)) (cfg_guideline (viper env))
                  path name st0) as Hcase.
    fold (reviewWalkFn env) in Hcase.
    destruct (reviewWalkFn env path (Some (File name)) None st0) as [st' r].
    simpl. inversion Hcase; subst.
    + apply Provenance_refl.
    + apply Provenance_trans with (record (EvReadFile path) st0);
        now apply Provenance_event.
    + apply Provenance_trans with (record (EvReadFile path) st0);
        now apply Provenance_event.
    + now apply Provenance_event.
    + now apply Provenance_event.
    + destruct (reviewLoop_provenance env (NewClient base)
                  (cfg_model (viper env)) (cfg_guideline (viper env)) path
                  (filepath.Ext path) (List.length chunks) chunks 0
                  (record (EvReadFile path) st0))
        as (new & secs & Ht & Hr & Hs & _ & Hc & _ & Hq & _).
      exists (EvReadFile path :: new), secs.
      split; [rewrite Ht; simpl; now rewrite <- app_assoc|].
      split; [exact Hr|].
      split.
      { eapply Forall_impl; [|exact Hs].
        intros s Hsec. exists path. split; [exact Hsec|].
        split; [now left|]. unfold registered.
        match goal with H : lookup _ _ = Some _ |- _ => now rewrite H end. }
      split; [exact Hc|].
      constructor; [exact I|].
      eapply Forall_impl; [|exact Hq].
      intros ev Hev. destruct ev; trivial.
      destruct Hev as [-> Hreq]. split; [assumption|exact Hreq].
  - unfold reviewWalkFn. rewrite walkFn_dir. apply Provenance_refl.
  - apply Provenance_refl.
Qed.

Lemma Review_provenance (env : Env) (root outFile : string) (st st' : State)
  (r : option error) :
  Review env root outFile st = (st', r) ->
  exists new,
    trace st' = trace st ++ new
    /\ Forall (fun s => exists path,
                  isSectionOf path s
                  /\ In (EvReadFile path) new
                  /\ registered path = true) (report st')
    /\ List.length (report st') <= List.length (filter isChat new)
    /\ Forall (chatAsConfigured env) new.
Proof.
  intros HReview.
  rewrite Review_after_walk in HReview. cbv zeta in HReview.
  destruct (WalkDir_preserves (reviewWalkFn env) (Provenance env)
              (Provenance_refl env) (Provenance_trans env)
              (callFn_Provenance env) env root (setReport [] st))
    as (new & secs & Ht & Hr & Hs & Hn & Hc).
  cbn [trace report setReport app] in Ht, Hr.
  assert (Hgrow : forall tail,
             Forall (fun s => exists path,
                        isSectionOf path s
                        /\ In (EvReadFile path) (new ++ tail)
                        /\ registered path = true) secs).
  { intros tail. eapply Forall_impl; [|exact Hs].
    intros s (path & Hsec & Hin & Hreg). exists path.
    repeat split; trivial. apply in_or_app. now left. }
  destruct (snd (WalkDir env root (reviewWalkFn env) (setReport [] st)))
    as [e|].
  - inversion HReview; subst st' r. exists new. rewrite Hr.
    repeat split; trivial.
  - destruct (writeFileErr env outFile) as [e|];
      inversion HReview; subst st' r;
      cbn [trace report record fmtPrint setFile]; rewrite Hr, Ht.
    + exists (new ++ [EvWriteFile outFile (document secs) 420]).
      rewrite <- app_assoc. split; [reflexivity|].
      split; [apply Hgrow|].
      split; [rewrite filter_app, length_app; lia|].
      apply Forall_app. split; [exact Hc|]. now repeat constructor.
    + exists (new ++ [ EvWriteFile outFile (document secs) 420;
                       EvPrint ("Review completed: " +++ outFile +++ nl) ]).
      rewrite <- !app_assoc. split; [reflexivity|].
      split; [apply Hgrow|].
      split; [rewrite filter_app, length_app; lia|].
      apply Forall_app. split; [exact Hc|]. now repeat constructor.
Qed.

(** The report [Review] leaves, review by review. *)
Lemma Review_items (env : Env) (root outFile : string) (st st' : State)
  (r : option error) :
  Review env root outFile st = (st', r) ->
  exists new items,
    trace st' = trace st ++ new
    /\ report st' = map sectionFor items
    /\ Forall (reviewedIn env (disk st) new) items.
Proof.
  intros HReview.
  rewrite Review_after_walk in HReview. cbv zeta in HReview.
  destruct (WalkDir_Sectioned env root (setReport [] st))
    as (_ & new & items & Ht & Hr & _ & Hitems).
  cbn [trace disk report setReport app] in Ht, Hr, Hitems.
  assert (Hgrow : forall tail,
             Forall (reviewedIn env (disk st) (new ++ tail)) items).
  { intros tail. eapply Forall_impl; [|exact Hitems]. intros it Hit.
    apply (reviewedIn_more env (disk st) [] new tail it Hit). }
  destruct (snd (WalkDir env root (reviewWalkFn env) (setReport [] st)))
    as [e|].
  - inversion HReview; subst st' r. exists new, items. auto.
  - destruct (writeFileErr env outFile) as [e|];
      inversion HReview; subst st' r;
      cbn [trace report record fmtPrint setFile]; rewrite Ht.
    + eexists (new ++ [_]), items. rewrite <- app_assoc.
      split; [reflexivity|]. split; [exact Hr|apply Hgrow].
    + eexists (new ++ [_; _]), items. rewrite <- !app_assoc.
      split; [reflexivity|]. split; [exact Hr|apply Hgrow].
Qed.

(** X4.  The report [Review] leaves consists of sections built for files
    that were read in this run and whose extension is registered: it is
    the list of the headings [## path (chunk k/total)], each followed by a
    text and the rule, for certain reviews, the path of each of which was
    read in this run and has an entry in [langConfig], with [k] between 1
    and [total].  A run that reads no file leaves the report empty. *)
Theorem report_names_only_registered_files_read
  (env : Env) (root outFile : string) (st st' : State) (r : option error)
  (new : list Event) :
  Review env root outFile st = (st', r) ->
  trace st' = trace st ++ new ->
  (exists items,
      report st'
      = map (fun it =>
               "## " +++ r_path it +++ " (chunk " +++ fmt_d (r_index it)
                 +++ "/" +++ fmt_d (r_total it) +++ ")" +++ nl +++ nl
                 +++ r_text it +++ nl +++ nl +++ "---" +++ nl) items
      /\ Forall (fun it =>
                   In (EvReadFile (r_path it)) new
                   /\ lookup (filepath.Ext (r_path it)) langConfig <> None
                   /\ 1 <= r_index it <= r_total it) items)
  /\ ((forall path, ~ In (EvReadFile path) new) -> report st' = []).
Proof.
  intros HReview Htrace.
  destruct (Review_items env root outFile st st' r HReview)
    as (new' & items & Ht & Hr & Hitems).
  rewrite Ht in Htrace. apply app_inv_head in Htrace. subst new'.
  split.
  - exists items. split; [exact Hr|].
    eapply Forall_impl; [|exact Hitems].
    intros it (lang & nodeType & src & chunks & chunk & client & stk & st1
               & Hin & Hl & _ & _ & Htot & Hk & Hnth & _).
    assert (Hlt : r_index it - 1 < List.length chunks)
      by (apply nth_error_Some; congruence).
    split; [exact Hin|]. split; [congruence|lia].
  - intros Hnone. rewrite Hr.
    destruct Hitems as [|it items' Hit _]; [reflexivity|].
    destruct Hit as (lang & nodeType & src & chunks & chunk & client & stk
                     & st1 & Hin & _).
    now destruct (Hnone (r_path it)).
Qed.

Lemma report_names_only_registered_files_read_witness :
  (exists items,
      report (fst (Review Fixture.envOk "." "out.md"
                     (Fixture.start Fixture.repoFiles)))
      = map (fun it =>
               "## " +++ r_path it +++ " (chunk " +++ fmt_d (r_index it)
                 +++ "/" +++ fmt_d (r_total it) +++ ")" +++ nl +++ nl
                 +++ r_text it +++ nl +++ nl +++ "---" +++ nl) items
      /\ Forall (fun it =>
                   In (EvReadFile (r_path it))
                     (trace (fst (Review Fixture.envOk "." "out.md"
                                    (Fixture.start Fixture.repoFiles))))
                   /\ lookup (filepath.Ext (r_path it)) langConfig <> None
                   /\ 1 <= r_index it <= r_total it) items)
  /\ List.length (report (fst (Review Fixture.envOk "." "out.md"
                                 (Fixture.start Fixture.repoFiles)))) = 2.
Proof.
  destruct (report_names_only_registered_files_read Fixture.envOk "." "out.md"
              (Fixture.start Fixture.repoFiles)
              (fst (Review Fixture.envOk "." "out.md"
                      (Fixture.start Fixture.repoFiles)))
              (snd (Review Fixture.envOk "." "out.md"
                      (Fixture.start Fixture.repoFiles)))
              (trace (fst (Review Fixture.envOk "." "out.md"
                             (Fixture.start Fixture.repoFiles))))
              (surjective_pairing _) eq_refl)
    as (Hitems & _).
  split; [exact Hitems|reflexivity].
Defined.

(** X5.  Every request a run of [Review] sends goes through the client made
    from the configured endpoint, which therefore parsed, names the
    configured model, and holds exactly one message, of role [user]. *)
Theorem requests_are_as_configured
  (env : Env) (root outFile : string) (st st' : State) (r : option error)
  (new : list Event) (client : Client) (req : ChatRequest) :
  Review env root outFile st = (st', r) ->
  trace st' = trace st ++ new ->
  In (EvChat client req) new ->
  urlParse env (cfg_OllamaHost (viper env)) = Ok client
  /\ Model req = cfg_model (viper env)
  /\ exists prompt, Messages req = [ {| Role := "user"; Content := prompt |} ].
Proof.
  intros HReview Htrace Hin.
  destruct (Review_provenance env root outFile st st' r HReview)
    as (new' & Ht & _ & _ & Hc).
  rewrite Ht in Htrace. apply app_inv_head in Htrace. subst new'.
  rewrite Forall_forall in Hc.
  destruct (Hc _ Hin) as [Hurl [prompt ->]].
  split; [exact Hurl|]. split; [reflexivity|]. now exists prompt.
Qed.

Lemma requests_are_as_configured_witness :
  urlParse Fixture.envOk (cfg_OllamaHost (viper Fixture.envOk)) = Ok Fixture.host
  /\ Model (chatRequest "codellama" Fixture.promptF)
     = cfg_model (viper Fixture.envOk).
Proof.
  assert (Hin : In (EvChat Fixture.host (chatRequest "codellama" Fixture.promptF))
                  (trace (fst (Review Fixture.envOk "." "out.md"
                                 (Fixture.start Fixture.repoFiles))))).
  { vm_compute. repeat (try (left; reflexivity); right). }
  destruct (requests_are_as_configured Fixture.envOk "." "out.md"
              (Fixture.start Fixture.repoFiles)
              (fst (Review Fixture.envOk "." "out.md"
                      (Fixture.start Fixture.repoFiles)))
              (snd (Review Fixture.envOk "." "out.md"
                      (Fixture.start Fixture.repoFiles)))
              (trace (fst (Review Fixture.envOk "." "out.md"
                             (Fixture.start Fixture.repoFiles))))
              Fixture.host (chatRequest "codellama" Fixture.promptF)
              (surjective_pairing _) eq_refl Hin)
    as (Hurl & Hmodel & _).
  split; [exact Hurl|exact Hmodel].
Defined.

Lemma document_of_empty_report : document [] = bytes_of_string title.
Proof.
  unfold document, JoinEmpty. simpl String.concat. now rewrite append_empty_r.
Qed.

(** X6.  With an endpoint that does not parse, no run of [Review] ever sends a
    request to the backend, and its report stays empty: whatever the run
    writes is the title alone. *)
Theorem no_request_with_malformed_endpoint
  (env : Env) (root outFile : string) (st st' : State) (r : option error)
  (new : list Event) (e : error) :
  urlParse env (cfg_OllamaHost (viper env)) = Err e ->
  Review env root outFile st = (st', r) ->
  trace st' = trace st ++ new ->
  filter isChat new = []
  /\ report st' = []
  /\ (forall path data perm,
         In (EvWriteFile path data perm) new -> data = bytes_of_string title).
Proof.
  intros Hurl HReview Htrace.
  destruct (Review_provenance env root outFile st st' r HReview)
    as (new' & Ht & _ & Hn & Hc).
  rewrite Ht in Htrace. apply app_inv_head in Htrace. subst new'.
  assert (Hchat : filter isChat new = []).
  { destruct (filter isChat new) as [|ev evs] eqn:Hf; trivial.
    assert (Hin : In ev (filter isChat new)) by (rewrite Hf; now left).
    apply filter_In in Hin as [Hin Hev].
    rewrite Forall_forall in Hc. specialize (Hc ev Hin).
    destruct ev; try discriminate.
    destruct Hc as [Hok _]. rewrite Hurl in Hok. discriminate. }
  assert (Hrep : report st' = []).
  { rewrite Hchat in Hn. simpl in Hn.
    destruct (report st'); [reflexivity|simpl in Hn; lia]. }
  do 2 (split; [assumption|]).
  intros path data perm Hin.
  pose proof document_of_empty_report as Htitle.
  pose proof HReview as HR.
  rewrite Review_after_walk in HR. cbv zeta in HR.
  destruct (WalkDir_inv env root (setReport [] st))
    as (_ & wnew & secs & Hwt & Hwr & Hww & _).
  cbn [trace report setReport app] in Hwt, Hwr.
  destruct (snd (WalkDir env root (reviewWalkFn env) (setReport [] st)))
    as [e0|].
  - inversion HR; subst st' r. rewrite Hwt in Ht.
    apply app_inv_head in Ht. subst wnew.
    assert (Hf : In (EvWriteFile path data perm) (filter isWrite new))
      by (apply filter_In; now split).
    rewrite Hww in Hf. destruct Hf.
  - assert (Hsecs : secs = [])
      by (destruct (writeFileErr env outFile); inversion HR; subst st' r;
          cbn [report record fmtPrint setFile] in Hrep; congruence).
    destruct (writeFileErr env outFile) as [e1|];
      inversion HR; subst st' r;
      cbn [trace record fmtPrint setFile] in Ht;
      rewrite Hwt, Hwr, Hsecs, <- ?app_assoc in Ht;
      apply app_inv_head in Ht; subst new;
      apply in_app_or in Hin as [Hin | Hin].
    + assert (Hf : In (EvWriteFile path data perm) (filter isWrite wnew))
        by (apply filter_In; now split).
      rewrite Hww in Hf. destruct Hf.
    + destruct Hin as [Heq | []]. inversion Heq. apply Htitle.
    + assert (Hf : In (EvWriteFile path data perm) (filter isWrite wnew))
        by (apply filter_In; now split).
      rewrite Hww in Hf. destruct Hf.
    + destruct Hin as [Heq | [Heq | []]]; inversion Heq. apply Htitle.
Qed.

Lemma no_request_with_malformed_endpoint_witness :
  filter isChat
    (trace (fst (Review Fixture.envBadHostIdle "." "out.md"
                   (Fixture.start Fixture.idleFiles)))) = []
  /\ report (fst (Review Fixture.envBadHostIdle "." "out.md"
                    (Fixture.start Fixture.idleFiles))) = [].
Proof.
  destruct (no_request_with_malformed_endpoint Fixture.envBadHostIdle "."
              "out.md" (Fixture.start Fixture.idleFiles)
              (fst (Review Fixture.envBadHostIdle "." "out.md"
                      (Fixture.start Fixture.idleFiles)))
              (snd (Review Fixture.envBadHostIdle "." "out.md"
                      (Fixture.start Fixture.idleFiles)))
              (trace (fst (Review Fixture.envBadHostIdle "." "out.md"
                             (Fixture.start Fixture.idleFiles))))
              Fixture.badHostError
              eq_refl (surjective_pairing _) eq_refl)
    as (Hchat & Hrep & _).
  split; [exact Hchat|exact Hrep].
Defined.

(** ** Excluded directories below the root *)

(** X7.  A directory whose name is in the exclude list, at any path but ["."],
    is not entered: [walkFn] is called on it once and on nothing below it,
    its listing is not read (an error of the listing is never reported),
    and the walk goes on with the entries that follow it. *)
Theorem excluded_directory_below_root_is_not_entered
  (env : Env) (dir name : string) (entries rest : list Entry)
  (readErr : option error) (st : State) :
  inSet name (cfg_exclude (viper env)) = true ->
  filepath.Join dir name <> "." ->
  walkDir (reviewWalkFn env) (filepath.Join dir name)
    (Dir name entries readErr) st
  = (record (EvWalkFn (filepath.Join dir name) None) st, Nil)
  /\ walkEntries (reviewWalkFn env) dir (Dir name entries readErr :: rest) st
     = walkEntries (reviewWalkFn env) dir rest
         (record (EvWalkFn (filepath.Join dir name) None) st).
Proof.
  intros Hin Hpath. split.
  - now apply excluded_directory_is_skipped.
  - now apply excluded_directory_siblings_walked.
Qed.

Lemma excluded_directory_below_root_is_not_entered_witness :
  walkDir (reviewWalkFn Fixture.envWithVendor) "vendor"
    (Dir "vendor" [File "a.py"] (Some "permission denied"))
    (Fixture.start Fixture.vendorFiles)
  = (record (EvWalkFn "vendor" None) (Fixture.start Fixture.vendorFiles), Nil).
Proof.
  assert (Hpath : filepath.Join "." "vendor" <> ".") by discriminate.
  exact (proj1 (excluded_directory_below_root_is_not_entered
                  Fixture.envWithVendor "." "vendor" [File "a.py"] []
                  (Some "permission denied")
                  (Fixture.start Fixture.vendorFiles) eq_refl Hpath)).
Defined.

(** ** The model check of the root command *)

Lemma lowerAscii_is_y (c : ascii) :
  cmd.lowerAscii c = "y"%char -> c = "y"%char \/ c = "Y"%char.
Proof.
  destruct c as [b0 b1 b2 b3 b4 b5 b6 b7].
  destruct b0, b1, b2, b3, b4, b5, b6, b7; vm_compute; intros H;
    try discriminate H; auto.
Qed.

Lemma ToLower_is_y (s : string) :
  cmd.ToLower s = "y" -> s = "y" \/ s = "Y".
Proof.
  destruct s as [|c [|c' s]]; simpl; intros H; try discriminate H.
  injection H as H. apply lowerAscii_is_y in H as [-> | ->]; auto.
Qed.

(** The pull callback logs the statuses that are not empty, in order, and
    touches nothing else. *)
Lemma logStatus_fold (statuses : list string) :
  forall st,
    cmd.calls (fold_left cmd.logStatus statuses st) = cmd.calls st
    /\ disk (cmd.core (fold_left cmd.logStatus statuses st)) = disk (cmd.core st)
    /\ report (cmd.core (fold_left cmd.logStatus statuses st))
       = report (cmd.core st)
    /\ trace (cmd.core (fold_left cmd.logStatus statuses st))
       = trace (cmd.core st)
           ++ map EvLog
                (filter (fun status => negb (String.eqb status "")) statuses).
Proof.
  induction statuses as [|status rest IH]; intros st; simpl.
  - now rewrite app_nil_r.
  - destruct (IH (cmd.logStatus st status)) as (Hc & Hd & Hr & Ht).
    rewrite Hc, Hd, Hr, Ht. unfold cmd.logStatus.
    destruct (String.eqb status ""); simpl; auto.
    rewrite <- app_assoc. auto.
Qed.

(** The ways [ensureModel] ends, with the state each leaves. *)
Lemma ensureModel_cases (env : Env) (be : cmd.Backend) (st : cmd.CmdState) :
  let model := cfg_model (viper env) in
  let question :=
    EvPrint ("Model " +++ model +++ " not found. Pull now? [y/N]: ") in
  exists st' r new evs,
    cmd.ensureModel env be st = (st', r)
    /\ cmd.calls st' = cmd.calls st ++ new
    /\ trace (cmd.core st') = trace (cmd.core st) ++ evs
    /\ disk (cmd.core st') = disk (cmd.core st)
    /\ report (cmd.core st') = report (cmd.core st)
    /\ ((model = "" /\ r = Some "model is not specified"
         /\ new = [] /\ evs = [])
        \/ (model <> "" /\
            ((exists e,
                 urlParse env (cfg_OllamaHost (viper env)) = Err e
                 /\ r = Some ("parse OllamaHost: " +++ e)
                 /\ new = [] /\ evs = [])
             \/ exists client,
                 urlParse env (cfg_OllamaHost (viper env)) = Ok client
                 /\ ((exists e,
                         cmd.ListModels be client = Err e
                         /\ r = Some ("list models: " +++ e)
                         /\ new = [cmd.CallList client] /\ evs = [])
                     \/ exists names,
                         cmd.ListModels be client = Ok names
                         /\ ((In model names /\ r = None
                              /\ new = [cmd.CallList client] /\ evs = [])
                             \/ (~ In model names
                                 /\ ((cmd.ToLower (cmd.TrimSpace (cmd.Scanln be))
                                      <> "y"
                                      /\ r = Some ("required model " +++ model
                                                     +++ " not available")
                                      /\ new = [cmd.CallList client]
                                      /\ evs = [question])
                                     \/ (cmd.ToLower (cmd.TrimSpace (cmd.Scanln be))
                                         = "y"
                                         /\ r = match snd (cmd.Pull be client model) with
                                                | Some e => Some ("pull model: " +++ e)
                                                | None => None
                                                end
                                         /\ new = [cmd.CallList client;
                                                   cmd.CallPull client model]
                                         /\ evs
                                            = question
                                                :: map EvLog
                                                     (filter
                                                        (fun status =>
                                                           negb (String.eqb status ""))
                                                        (fst (cmd.Pull be client
                                                                model))))))))))).
Proof.
  intros model question. unfold cmd.ensureModel. fold model.
  destruct (String.eqb_spec model "") as [Hm|Hm].
  { exists st, (Some "model is not specified"), [], [].
    rewrite !app_nil_r. repeat split; auto. }
  destruct (urlParse env (cfg_OllamaHost (viper env))) as [client|e] eqn:Hurl.
  2:{ eexists st, _, [], []. rewrite !app_nil_r.
      do 5 (split; [reflexivity|]). right. split; [exact Hm|].
      left. exists e. repeat split; auto. }
  unfold NewClient.
  destruct (cmd.ListModels be client) as [names|e] eqn:Hlist.
  2:{ eexists _, _, [cmd.CallList client], []. rewrite !app_nil_r.
      do 5 (split; [reflexivity|]). right. split; [exact Hm|].
      right. exists client. split; [reflexivity|].
      left. exists e. repeat split; auto. }
  destruct (existsb (fun name => String.eqb name model) names) eqn:Hex.
  { eexists _, _, [cmd.CallList client], []. rewrite !app_nil_r.
    do 5 (split; [reflexivity|]). right. split; [exact Hm|].
    right. exists client. split; [reflexivity|].
    right. exists names. split; [exact Hlist|]. left.
    apply existsb_exists in Hex as (name & Hin & Heq).
    apply String.eqb_eq in Heq. subst name. repeat split; auto. }
  assert (Hnot : ~ In model names).
  { intros Hin. assert (Ht : existsb (fun name => String.eqb name model) names = true).
    { apply existsb_exists. exists model. split; [exact Hin|apply String.eqb_refl]. }
    rewrite Ht in Hex. discriminate. }
  destruct (String.eqb_spec (cmd.ToLower (cmd.TrimSpace (cmd.Scanln be))) "y")
    as [Hy|Hy]; cbn [negb].
  - destruct (cmd.Pull be client model) as [statuses err] eqn:Hpull.
    destruct (logStatus_fold statuses
                (cmd.call (cmd.CallPull client model)
                   (cmd.onCore (fmtPrint ("Model " +++ model
                                            +++ " not found. Pull now? [y/N]: "))
                      (cmd.call (cmd.CallList client) st))))
      as (Hc & Hd & Hr & Ht).
    destruct err as [e|];
      (eexists _, _, [cmd.CallList client; cmd.CallPull client model], _);
      (split; [reflexivity|]);
      (split; [rewrite Hc; simpl; now rewrite <- app_assoc|]);
      (split; [rewrite Ht; simpl; rewrite <- app_assoc; reflexivity|]);
      (split; [rewrite Hd; reflexivity|]);
      (split; [rewrite Hr; reflexivity|]);
      right; (split; [exact Hm|]); right; exists client;
      (split; [reflexivity|]); right; exists names;
      (split; [exact Hlist|]); right; (split; [exact Hnot|]); right;
      rewrite ?Hpull; repeat split; auto.
  - eexists _, _, [cmd.CallList client], [question].
    do 5 (split; [reflexivity|]). right. split; [exact Hm|].
    right. exists client. split; [reflexivity|].
    right. exists names. split; [exact Hlist|]. right.
    split; [exact Hnot|]. left. repeat split; auto.
Qed.

(** X8.  [ensureModel] returns nil only when the model can be used: a model is
    configured, the endpoint parses, the list of models was fetched, and
    either the model is in the list, in which case nothing was asked and
    nothing pulled, or the user answered [y] or [Y] and one pull of the
    configured model returned without error. *)
Theorem ensureModel_nil_means_model_available
  (env : Env) (be : cmd.Backend) (st st' : cmd.CmdState) :
  cmd.ensureModel env be st = (st', None) ->
  let model := cfg_model (viper env) in
  model <> ""
  /\ exists client names,
      urlParse env (cfg_OllamaHost (viper env)) = Ok client
      /\ cmd.ListModels be client = Ok names
      /\ ((In model names
           /\ cmd.calls st' = cmd.calls st ++ [cmd.CallList client]
           /\ trace (cmd.core st') = trace (cmd.core st))
          \/ (~ In model names
              /\ (cmd.TrimSpace (cmd.Scanln be) = "y"
                  \/ cmd.TrimSpace (cmd.Scanln be) = "Y")
              /\ snd (cmd.Pull be client model) = None
              /\ cmd.calls st'
                 = cmd.calls st
                     ++ [cmd.CallList client; cmd.CallPull client model])).
Proof.
  intros Hens model.
  destruct (ensureModel_cases env be st)
    as (st1 & r & new & evs & Heq & Hc & Ht & _ & _ & Hcases).
  rewrite Hens in Heq. inversion Heq; subst st1 r. clear Heq.
  fold model in Hcases.
  destruct Hcases as [(_ & Hr & _) | (Hm & Hcases)]; [discriminate|].
  split; [exact Hm|].
  destruct Hcases as [(e & _ & Hr & _) | (client & Hurl & Hcases)];
    [discriminate|].
  destruct Hcases as [(e & _ & Hr & _) | (names & Hlist & Hcases)];
    [discriminate|].
  exists client, names. do 2 (split; [assumption|]).
  destruct Hcases as [(Hin & _ & Hnew & Hevs) | (Hnot & Hcases)].
  - left. subst new evs. rewrite app_nil_r in Ht. auto.
  - right. split; [exact Hnot|].
    destruct Hcases as [(_ & Hr & _) | (Hy & Hr & Hnew & _)]; [discriminate|].
    split; [now apply ToLower_is_y|].
    split; [|now subst new].
    destruct (snd (cmd.Pull be client model)); [discriminate|reflexivity].
Qed.

Lemma ensureModel_nil_means_model_available_witness :
  cmd.calls (fst (cmd.ensureModel Fixture.envOk cmd.backendAccepted
                    (cmd.begin Fixture.repoFiles)))
  = [cmd.CallList Fixture.host; cmd.CallPull Fixture.host "codellama"]
  /\ cfg_model (viper Fixture.envOk) <> "".
Proof.
  destruct (ensureModel_nil_means_model_available Fixture.envOk
              cmd.backendAccepted (cmd.begin Fixture.repoFiles)
              (fst (cmd.ensureModel Fixture.envOk cmd.backendAccepted
                      (cmd.begin Fixture.repoFiles)))
              eq_refl)
    as (Hm & _).
  split; [reflexivity|exact Hm].
Defined.

(** X9.  [ensureModel] pulls a model only when asked to: a pull is of the
    configured model, is the only pull of the call, comes after the list
    was fetched and did not name the model, and after the user answered
    [y] or [Y]. *)
Theorem ensureModel_pulls_only_on_yes
  (env : Env) (be : cmd.Backend) (st st' : cmd.CmdState) (r : option error)
  (new : list cmd.BackendCall) (client : Client) (name : string) :
  cmd.ensureModel env be st = (st', r) ->
  cmd.calls st' = cmd.calls st ++ new ->
  In (cmd.CallPull client name) new ->
  name = cfg_model (viper env)
  /\ new = [cmd.CallList client; cmd.CallPull client name]
  /\ (cmd.TrimSpace (cmd.Scanln be) = "y" \/ cmd.TrimSpace (cmd.Scanln be) = "Y")
  /\ exists names,
      cmd.ListModels be client = Ok names /\ ~ In name names.
Proof.
  intros Hens Hcalls Hin.
  destruct (ensureModel_cases env be st)
    as (st1 & r1 & new1 & evs & Heq & Hc & _ & _ & _ & Hcases).
  rewrite Hens in Heq. inversion Heq; subst st1 r1. clear Heq.
  rewrite Hc in Hcalls. apply app_inv_head in Hcalls. subst new1.
  destruct Hcases as [(_ & _ & Hnew & _) | (_ & Hcases)];
    [subst new; destruct Hin|].
  destruct Hcases as [(e & _ & _ & Hnew & _) | (client' & _ & Hcases)];
    [subst new; destruct Hin|].
  destruct Hcases as [(e & _ & _ & Hnew & _) | (names & Hlist & Hcases)];
    [subst new; destruct Hin as [Hin | []]; discriminate|].
  destruct Hcases as [(_ & _ & Hnew & _) | (Hnot & Hcases)];
    [subst new; destruct Hin as [Hin | []]; discriminate|].
  destruct Hcases as [(_ & _ & Hnew & _) | (Hy & _ & Hnew & _)];
    [subst new; destruct Hin as [Hin | []]; discriminate|].
  subst new. destruct Hin as [Hin | [Hin | []]]; [discriminate|].
  inversion Hin; subst client' name.
  split; [reflexivity|]. split; [reflexivity|].
  split; [now apply ToLower_is_y|]. now exists names.
Qed.

Lemma ensureModel_pulls_only_on_yes_witness :
  cmd.TrimSpace (cmd.Scanln cmd.backendAccepted) = "y"
  \/ cmd.TrimSpace (cmd.Scanln cmd.backendAccepted) = "Y".
Proof.
  assert (Hin : In (cmd.CallPull Fixture.host "codellama")
                  [cmd.CallList Fixture.host;
                   cmd.CallPull Fixture.host "codellama"])
    by (right; left; reflexivity).
  destruct (ensureModel_pulls_only_on_yes Fixture.envOk cmd.backendAccepted
              (cmd.begin Fixture.repoFiles)
              (fst (cmd.ensureModel Fixture.envOk cmd.backendAccepted
                      (cmd.begin Fixture.repoFiles)))
              (snd (cmd.ensureModel Fixture.envOk cmd.backendAccepted
                      (cmd.begin Fixture.repoFiles)))
              [cmd.CallList Fixture.host; cmd.CallPull Fixture.host "codellama"]
              Fixture.host "codellama"
              (surjective_pairing _) eq_refl Hin)
    as (_ & _ & Hy & _).
  exact Hy.
Defined.

(** X10.  [ensureModel] leaves the pipeline alone: it reads and writes no file,
    sends no chat request and does not touch the report; all it adds to
    the trace is the question, when the model is missing, and after it the
    non-empty statuses of the pull, as log lines in the order received. *)
Theorem ensureModel_only_asks_and_logs
  (env : Env) (be : cmd.Backend) (st : cmd.CmdState) :
  let st' := fst (cmd.ensureModel env be st) in
  disk (cmd.core st') = disk (cmd.core st)
  /\ report (cmd.core st') = report (cmd.core st)
  /\ exists evs,
      trace (cmd.core st') = trace (cmd.core st) ++ evs
      /\ (evs = []
          \/ exists client,
              evs
              = EvPrint ("Model " +++ cfg_model (viper env)
                           +++ " not found. Pull now? [y/N]: ")
                  :: map EvLog
                       (filter (fun status => negb (String.eqb status ""))
                          (if String.eqb
                                (cmd.ToLower (cmd.TrimSpace (cmd.Scanln be))) "y"
                           then fst (cmd.Pull be client (cfg_model (viper env)))
                           else []))).
Proof.
  intros st'. subst st'.
  destruct (ensureModel_cases env be st)
    as (st1 & r & new & evs & Heq & _ & Ht & Hd & Hr & Hcases).
  rewrite Heq. cbn [fst].
  do 2 (split; [assumption|]). exists evs. split; [exact Ht|].
  destruct Hcases as [(_ & _ & _ & Hevs) | (_ & Hcases)]; [now left|].
  destruct Hcases as [(e & _ & _ & _ & Hevs) | (client & _ & Hcases)];
    [now left|].
  destruct Hcases as [(e & _ & _ & _ & Hevs) | (names & _ & Hcases)];
    [now left|].
  destruct Hcases as [(_ & _ & _ & Hevs) | (_ & Hcases)]; [now left|].
  right. exists client.
  destruct Hcases as [(Hy & _ & _ & Hevs) | (Hy & _ & _ & Hevs)].
  - apply String.eqb_neq in Hy. now rewrite Hy.
  - rewrite Hy. exact Hevs.
Qed.

(** ** The command as a whole *)

(** What [Review] writes, if it writes: the document of its report, to
    the output path, with mode 0644. *)
Lemma Review_writes (env : Env) (root outFile : string) (st st' : State)
  (r : option error) (new : list Event) (path : string) (data : bytes)
  (perm : nat) :
  Review env root outFile st = (st', r) ->
  trace st' = trace st ++ new ->
  In (EvWriteFile path data perm) new ->
  path = outFile /\ data = document (report st') /\ perm = 420.
Proof.
  intros HReview Htrace Hin.
  rewrite Review_after_walk in HReview. cbv zeta in HReview.
  destruct (WalkDir_inv env root (setReport [] st))
    as (_ & wnew & secs & Ht & _ & Hw & _).
  cbn [trace setReport] in Ht.
  assert (Hwalk : ~ In (EvWriteFile path data perm) wnew).
  { intros Hin'.
    assert (Hf : In (EvWriteFile path data perm) (filter isWrite wnew))
      by (apply filter_In; now split).
    rewrite Hw in Hf. destruct Hf. }
  destruct (snd (WalkDir env root (reviewWalkFn env) (setReport [] st)))
    as [e|].
  - inversion HReview; subst st' r. rewrite Ht in Htrace.
    apply app_inv_head in Htrace. subst wnew. now contradiction Hwalk.
  - destruct (writeFileErr env outFile) as [e|];
      inversion HReview; subst st' r;
      cbn [trace report record fmtPrint setFile] in *;
      rewrite Ht, <- ?app_assoc in Htrace;
      apply app_inv_head in Htrace; subst new;
      apply in_app_or in Hin as [Hin | Hin]; try (now contradiction Hwalk).
    + destruct Hin as [Heq | []]. inversion Heq. auto.
    + destruct Hin as [Heq | [Heq | []]]; inversion Heq. auto.
Qed.

Lemma Review_nil_leaves_document (env : Env) (root outFile : string)
  (st st' : State) :
  Review env root outFile st = (st', None) ->
  disk st' outFile = Ok (document (report st')).
Proof.
  intros HReview.
  rewrite Review_after_walk in HReview. cbv zeta in HReview.
  destruct (snd (WalkDir env root (reviewWalkFn env) (setReport [] st)));
    [discriminate|].
  destruct (writeFileErr env outFile); [discriminate|].
  inversion HReview. cbn [disk report record fmtPrint setFile].
  now rewrite String.eqb_refl.
Qed.

Lemma ensureModel_writes_nothing (env : Env) (be : cmd.Backend)
  (st : cmd.CmdState) :
  exists evs,
    trace (cmd.core (fst (cmd.ensureModel env be st)))
    = trace (cmd.core st) ++ evs
    /\ forall ev, In ev evs -> exists text, ev = EvPrint text \/ ev = EvLog text.
Proof.
  destruct (ensureModel_cases env be st)
    as (st1 & r & new & evs & Heq & _ & Ht & _ & _ & Hcases).
  rewrite Heq. cbn [fst]. exists evs. split; [exact Ht|].
  assert (Hshape : evs = []
                   \/ exists q statuses, evs = EvPrint q :: map EvLog statuses).
  { destruct Hcases as [(_ & _ & _ & Hevs) | (_ & Hcases)]; [now left|].
    destruct Hcases as [(e & _ & _ & _ & Hevs) | (client & _ & Hcases)];
      [now left|].
    destruct Hcases as [(e & _ & _ & _ & Hevs) | (names & _ & Hcases)];
      [now left|].
    destruct Hcases as [(_ & _ & _ & Hevs) | (_ & Hcases)]; [now left|].
    right.
    destruct Hcases as [(_ & _ & _ & Hevs) | (_ & _ & _ & Hevs)].
    - eexists _, []. exact Hevs.
    - eexists _, _. exact Hevs. }
  intros ev Hin.
  destruct Hshape as [-> | (q & statuses & ->)]; [destruct Hin|].
  destruct Hin as [<- | Hin]; [exists q; now left|].
  apply in_map_iff in Hin as (status & <- & _). exists status. now right.
Qed.

(** X11.  In every run of the root command, a report is written only after the
    model check has passed, and then to the configured output path: when
    [ensureModel] returns an error the command exits with status 1 and
    that error, in the state [ensureModel] left, and [Review] is never
    started: the run consists of the question and the log lines of
    [ensureModel] at most, without any call of the walker's callback, any
    file read, any request or any write. *)
Theorem run_writes_report_only_after_model_check
  (env : Env) (be : cmd.Backend) (flags : cmd.Flags) (st st' : cmd.CmdState)
  (out : cmd.Outcome) (new : list Event) :
  cmd.Run env be flags st = (st', out) ->
  trace (cmd.core st') = trace (cmd.core st) ++ new ->
  (forall (path : string) (data : bytes) (perm : nat),
      In (EvWriteFile path data perm) new ->
      snd (cmd.ensureModel env be st) = None
      /\ path = cmd.cfg_output flags
      /\ data = document (report (cmd.core st')))
  /\ (forall e : error,
         snd (cmd.ensureModel env be st) = Some e ->
         st' = fst (cmd.ensureModel env be st)
         /\ out = cmd.Exited 1 ("Error: " +++ e +++ nl)
         /\ (forall ev, In ev new ->
                        exists text, ev = EvPrint text \/ ev = EvLog text)
         /\ (forall ev, In ev new ->
                        match ev with
                        | EvWalkFn _ _ | EvReadFile _ | EvParseFiles _
                        | EvChat _ _ | EvWriteFile _ _ _ => False
                        | EvLog _ | EvPrint _ => True
                        end)).
Proof.
  intros HRun Htrace.
  unfold cmd.Run in HRun.
  destruct (ensureModel_writes_nothing env be st) as (evs & Hevs & Hquiet).
  destruct (cmd.ensureModel env be st) as [st1 [e|]]; cbn [fst snd] in *.
  - inversion HRun; subst st' out. rewrite Hevs in Htrace.
    apply app_inv_head in Htrace. subst new.
    split.
    + intros path data perm Hin.
      destruct (Hquiet _ Hin) as [text [Ht | Ht]]; discriminate.
    + intros e' He'. inversion He'; subst e'.
      split; [reflexivity|]. split; [reflexivity|]. split; [exact Hquiet|].
      intros ev Hin. destruct (Hquiet _ Hin) as [text [-> | ->]]; exact I.
  - split; [|discriminate].
    intros path data perm Hin.
    assert (Hnot : ~ In (EvWriteFile path data perm) evs).
    { intros H. destruct (Hquiet _ H) as [text [Ht | Ht]]; discriminate. }
    cbn [cmd.CheckErr] in HRun.
    destruct (Review env
                (if negb (String.eqb (cmd.flag_source flags) "")
                 then cmd.flag_source flags else cmd.flag_repository flags)
                (cmd.cfg_output flags) (cmd.core st1))
      as [core2 rerr] eqn:HReview.
    assert (Hst : cmd.core st' = core2)
      by (destruct rerr; inversion HRun; reflexivity).
    rewrite Hst in *.
    assert (Hnew : exists rnew, trace core2 = trace (cmd.core st1) ++ rnew
                                /\ new = evs ++ rnew).
    { destruct (Review_provenance env _ _ _ _ _ HReview) as (rnew & Hr & _).
      exists rnew. split; [exact Hr|].
      rewrite Hr, Hevs, <- app_assoc in Htrace.
      now apply app_inv_head in Htrace. }
    destruct Hnew as (rnew & Hr & ->).
    apply in_app_or in Hin as [Hin | Hin]; [now contradiction Hnot|].
    destruct (Review_writes env _ _ _ _ _ rnew path data perm HReview Hr Hin)
      as (Hp & Hdata & _).
    auto.
Qed.

Lemma run_writes_report_only_after_model_check_witness :
  snd (cmd.ensureModel Fixture.envOk cmd.backendReady
         (cmd.begin Fixture.repoFiles)) = None
  /\ snd (cmd.Run Fixture.envOk cmd.backendReady cmd.flagsRepo
            (cmd.begin Fixture.repoFiles)) = cmd.Returned
  /\ snd (cmd.Run Fixture.envOk cmd.backendDeclined cmd.flagsRepo
            (cmd.begin Fixture.repoFiles))
     = cmd.Exited 1
         ("Error: required model codellama not available" +++ nl)
  /\ trace (cmd.core (fst (cmd.Run Fixture.envOk cmd.backendDeclined
                             cmd.flagsRepo (cmd.begin Fixture.repoFiles))))
     = [EvPrint "Model codellama not found. Pull now? [y/N]: "].
Proof.
  assert (Hin : In (EvWriteFile "out.md"
                      (document [section "a.py" 1 2 "LGTM";
                                 section "a.py" 2 2 "LGTM"]) 420)
                  (trace (cmd.core (fst (cmd.Run Fixture.envOk cmd.backendReady
                                           cmd.flagsRepo
                                           (cmd.begin Fixture.repoFiles)))))).
  { vm_compute. repeat (try (left; reflexivity); right). }
  destruct (run_writes_report_only_after_model_check Fixture.envOk
              cmd.backendReady cmd.flagsRepo (cmd.begin Fixture.repoFiles)
              (fst (cmd.Run Fixture.envOk cmd.backendReady cmd.flagsRepo
                      (cmd.begin Fixture.repoFiles)))
              (snd (cmd.Run Fixture.envOk cmd.backendReady cmd.flagsRepo
                      (cmd.begin Fixture.repoFiles)))
              (trace (cmd.core (fst (cmd.Run Fixture.envOk cmd.backendReady
                                       cmd.flagsRepo
                                       (cmd.begin Fixture.repoFiles)))))
              (surjective_pairing _) eq_refl)
    as (Hwrite & _).
  destruct (Hwrite "out.md"
              (document [section "a.py" 1 2 "LGTM"; section "a.py" 2 2 "LGTM"])
              420 Hin)
    as (Hens & _).
  destruct (run_writes_report_only_after_model_check Fixture.envOk
              cmd.backendDeclined cmd.flagsRepo (cmd.begin Fixture.repoFiles)
              (fst (cmd.Run Fixture.envOk cmd.backendDeclined cmd.flagsRepo
                      (cmd.begin Fixture.repoFiles)))
              (snd (cmd.Run Fixture.envOk cmd.backendDeclined cmd.flagsRepo
                      (cmd.begin Fixture.repoFiles)))
              (trace (cmd.core (fst (cmd.Run Fixture.envOk cmd.backendDeclined
                                       cmd.flagsRepo
                                       (cmd.begin Fixture.repoFiles)))))
              (surjective_pairing _) eq_refl)
    as (_ & Hfail).
  destruct (Hfail "required model codellama not available" eq_refl)
    as (_ & Hout & _).
  split; [exact Hens|]. split; [reflexivity|]. split; [exact Hout|].
  reflexivity.
Defined.

(** X12.  With an endpoint that does not parse the root command exits with
    status 1 before anything happens: no call on the backend, no file
    read or written, whatever the flags and the directory. *)
Theorem run_with_malformed_endpoint_exits_at_once
  (env : Env) (be : cmd.Backend) (flags : cmd.Flags) (st : cmd.CmdState)
  (e : error) :
  urlParse env (cfg_OllamaHost (viper env)) = Err e ->
  exists message,
    cmd.Run env be flags st = (st, cmd.Exited 1 ("Error: " +++ message +++ nl))
    /\ (cfg_model (viper env) <> "" -> message = "parse OllamaHost: " +++ e).
Proof.
  intros Hurl. unfold cmd.Run, cmd.ensureModel. rewrite Hurl.
  destruct (String.eqb_spec (cfg_model (viper env)) "") as [Hm|Hm].
  - exists "model is not specified". split; [reflexivity|]. now intros H.
  - exists ("parse OllamaHost: " +++ e). split; reflexivity.
Qed.

Lemma run_with_malformed_endpoint_exits_at_once_witness :
  exists message,
    cmd.Run Fixture.envBadHostIdle cmd.backendReady cmd.flagsRepo
      (cmd.begin Fixture.idleFiles)
    = (cmd.begin Fixture.idleFiles,
       cmd.Exited 1 ("Error: " +++ message +++ nl)).
Proof.
  destruct (run_with_malformed_endpoint_exits_at_once Fixture.envBadHostIdle
              cmd.backendReady cmd.flagsRepo (cmd.begin Fixture.idleFiles)
              Fixture.badHostError eq_refl)
    as (message & HRun & _).
  exists message. exact HRun.
Defined.

(** X13.  When the root command returns, the output file holds the document of
    the report, and the model check had passed. *)
Theorem run_returns_with_report_written
  (env : Env) (be : cmd.Backend) (flags : cmd.Flags) (st st' : cmd.CmdState) :
  cmd.Run env be flags st = (st', cmd.Returned) ->
  snd (cmd.ensureModel env be st) = None
  /\ disk (cmd.core st') (cmd.cfg_output flags)
     = Ok (document (report (cmd.core st')))
  /\ cmd.calls st' = cmd.calls (fst (cmd.ensureModel env be st)).
Proof.
  intros HRun. unfold cmd.Run in HRun.
  destruct (cmd.ensureModel env be st) as [st1 [e|]]; cbn [fst snd] in *;
    [discriminate|].
  cbn [cmd.CheckErr] in HRun.
  destruct (Review env
              (if negb (String.eqb (cmd.flag_source flags) "")
               then cmd.flag_source flags else cmd.flag_repository flags)
              (cmd.cfg_output flags) (cmd.core st1))
    as [core2 [e|]] eqn:HReview; cbn [cmd.CheckErr] in HRun;
    [discriminate|].
  inversion HRun; subst st'. cbn [cmd.core cmd.calls].
  split; [reflexivity|]. split; [|reflexivity].
  now apply Review_nil_leaves_document in HReview.
Qed.

Lemma run_returns_with_report_written_witness :
  disk (cmd.core (fst (cmd.Run Fixture.envOk cmd.backendReady cmd.flagsRepo
                         (cmd.begin Fixture.repoFiles)))) "out.md"
  = Ok (document (report (cmd.core (fst (cmd.Run Fixture.envOk cmd.backendReady
                                           cmd.flagsRepo
                                           (cmd.begin Fixture.repoFiles)))))).
Proof.
  exact (proj1 (proj2
           (run_returns_with_report_written Fixture.envOk cmd.backendReady
              cmd.flagsRepo (cmd.begin Fixture.repoFiles)
              (fst (cmd.Run Fixture.envOk cmd.backendReady cmd.flagsRepo
                      (cmd.begin Fixture.repoFiles)))
              eq_refl))).
Defined.

(** ** The users handler *)

Lemma wrap_in_range (z : Z) :
  (- 2 ^ 63 <= z < 2 ^ 63)%Z -> handlers.wrap z = z.
Proof.
  intros Hz. unfold handlers.wrap.
  rewrite Z.mod_small; lia.
Qed.

Lemma store_fresh (id : Z) (u : handlers.User) (m : handlers.Users) :
  ~ In id (map fst m) -> handlers.store id u m = m ++ [(id, u)].
Proof.
  induction m as [|[k v] m IH]; intros Hnew; simpl; trivial.
  destruct (Z.eqb_spec k id) as [->|_].
  - exfalso. apply Hnew. now left.
  - rewrite IH; trivial. intros Hin. apply Hnew. now right.
Qed.

Lemma consistent_fresh (h : handlers.UsersHandler) :
  handlers.consistent h -> ~ In (handlers.nextID h) (map fst (handlers.users h)).
Proof.
  intros (_ & _ & Hall & _) Hin.
  apply in_map_iff in Hin as (entry & Heq & Hin).
  rewrite Forall_forall in Hall. destruct (Hall entry Hin) as [_ Hrange].
  lia.
Qed.

(** What a request that creates a user does to a consistent handler. *)
Lemma createUser_accepts (decode : bytes -> result string)
  (h : handlers.UsersHandler) (r : handlers.Request) (name : string) :
  handlers.consistent h ->
  (handlers.nextID h < handlers.maxInt)%Z ->
  decode (handlers.RequestBody r) = Ok name ->
  name <> "" ->
  let user := {| handlers.ID := handlers.nextID h; handlers.UserName := name |} in
  handlers.createUser decode h r
  = ({| handlers.nextID := (handlers.nextID h + 1)%Z;
        handlers.users := handlers.users h ++ [(handlers.nextID h, user)] |},
     {| handlers.Code := 201;
        handlers.ContentType := "application/json";
        handlers.Payload := handlers.JSONUser user |}).
Proof.
  intros Hcons Hmax Hdec Hname user. unfold handlers.createUser.
  rewrite Hdec. apply String.eqb_neq in Hname. rewrite Hname.
  fold user. rewrite store_fresh by now apply consistent_fresh.
  rewrite wrap_in_range; [reflexivity|].
  destruct Hcons as (H1 & _). unfold handlers.maxInt in Hmax. lia.
Qed.

(** X14.  A request changes the handler only when it is answered [201]: a
    method other than GET and POST is answered [405], a body that does not
    decode or gives no name is answered [400], a GET is answered [200],
    and in all these cases the users and the next identifier are as
    before, so a rejected request uses up no identifier. *)
Theorem rejected_request_leaves_handler_unchanged
  (decode : bytes -> result string) (order : handlers.Users -> handlers.Users)
  (h : handlers.UsersHandler) (r : handlers.Request) :
  handlers.Code (snd (handlers.ServeHTTP decode order h r)) <> 201 ->
  fst (handlers.ServeHTTP decode order h r) = h
  /\ (handlers.Method r <> "GET" -> handlers.Method r <> "POST" ->
      snd (handlers.ServeHTTP decode order h r)
      = handlers.httpError "method not allowed" 405)
  /\ (handlers.Method r = "POST" ->
      handlers.Code (snd (handlers.ServeHTTP decode order h r)) = 400
      /\ (decode (handlers.RequestBody r) = Ok ""
          \/ exists e, decode (handlers.RequestBody r) = Err e))
  /\ (handlers.Method r = "GET" ->
      handlers.Code (snd (handlers.ServeHTTP decode order h r)) = 200).
Proof.
  unfold handlers.ServeHTTP, handlers.createUser, handlers.listUsers.
  destruct (String.eqb_spec (handlers.Method r) "GET") as [Hget|Hget].
  - intros _. cbn [fst snd handlers.Code]. repeat split; try congruence.
  - destruct (String.eqb_spec (handlers.Method r) "POST") as [Hpost|Hpost].
    + destruct (decode (handlers.RequestBody r)) as [name|e].
      * destruct (String.eqb_spec name "") as [->|Hname];
          cbn [fst snd handlers.Code handlers.httpError]; intros Hcode.
        -- repeat split; try congruence. now left.
        -- now contradiction Hcode.
      * intros _. cbn [fst snd handlers.Code handlers.httpError].
        repeat split; try congruence. right. now exists e.
    + intros _. cbn [fst snd]. repeat split; congruence.
Qed.

Lemma rejected_request_leaves_handler_unchanged_witness :
  fst (handlers.ServeHTTP handlers.decodeTest (fun m => m)
         handlers.NewUsersHandler (handlers.post ""))
  = handlers.NewUsersHandler.
Proof.
  assert (Hcode : handlers.Code
                    (snd (handlers.ServeHTTP handlers.decodeTest (fun m => m)
                            handlers.NewUsersHandler (handlers.post "")))
                  <> 201) by discriminate.
  exact (proj1 (rejected_request_leaves_handler_unchanged handlers.decodeTest
                  (fun m => m) handlers.NewUsersHandler (handlers.post "")
                  Hcode)).
Defined.

(** X15.  Serving a request keeps the store consistent, as long as the
    identifiers have not run out: every user stays filed under its own
    identifier, no identifier is given twice, and the identifiers in use
    are those from 1 up to the one before [nextID]. *)
Theorem ServeHTTP_keeps_store_consistent
  (decode : bytes -> result string) (order : handlers.Users -> handlers.Users)
  (h : handlers.UsersHandler) (r : handlers.Request) :
  handlers.consistent h ->
  (handlers.nextID h < handlers.maxInt)%Z ->
  handlers.consistent (fst (handlers.ServeHTTP decode order h r)).
Proof.
  intros Hcons Hmax.
  unfold handlers.ServeHTTP, handlers.listUsers.
  destruct (String.eqb (handlers.Method r) "GET"); [exact Hcons|].
  destruct (String.eqb (handlers.Method r) "POST"); [|exact Hcons].
  destruct (decode (handlers.RequestBody r)) as [name|e] eqn:Hdec.
  2:{ unfold handlers.createUser. now rewrite Hdec. }
  destruct (String.eqb_spec name "") as [->|Hname].
  { unfold handlers.createUser. now rewrite Hdec. }
  rewrite (createUser_accepts decode h r name Hcons Hmax Hdec Hname).
  cbn [fst].
  pose proof (consistent_fresh h Hcons) as Hfresh.
  destruct Hcons as (H1 & Hnd & Hall & Hlen).
  unfold handlers.consistent. cbn [handlers.nextID handlers.users].
  split; [lia|]. split.
  { rewrite map_app. simpl. apply NoDup_app; trivial.
    - constructor; [intros []|constructor].
    - intros k Hk [<- | []]. now apply Hfresh. }
  split.
  { apply Forall_app. split.
    - eapply Forall_impl; [|exact Hall]. intros entry [Hid Hr]. split; [exact Hid|lia].
    - constructor; [|constructor]. simpl. split; [reflexivity|lia]. }
  rewrite length_app. simpl. lia.
Qed.

Lemma ServeHTTP_keeps_store_consistent_witness :
  handlers.consistent
    (fst (handlers.ServeHTTP handlers.decodeTest (fun m => m)
            handlers.NewUsersHandler (handlers.post "Alice"))).
Proof.
  apply ServeHTTP_keeps_store_consistent.
  - unfold handlers.consistent. simpl.
    split; [lia|]. split; [constructor|]. split; [constructor|reflexivity].
  - reflexivity.
Defined.

Lemma listUsers_lists (order : handlers.Users -> handlers.Users)
  (h : handlers.UsersHandler) :
  handlers.listUsers order h
  = (h, {| handlers.Code := 200;
           handlers.ContentType := "application/json";
           handlers.Payload :=
             handlers.JSONList (map snd (order (handlers.users h))) |}).
Proof.
  unfold handlers.listUsers. do 3 f_equal.
  assert (H : forall l acc,
             fold_left (fun acc (entry : Z * handlers.User) => acc ++ [snd entry])
                       l acc
             = acc ++ map snd l).
  { induction l as [|entry l IH]; intros acc; simpl.
    - now rewrite app_nil_r.
    - now rewrite IH, <- app_assoc. }
  apply (H _ []).
Qed.

(** The step of [serveAll_from] for a request that changes nothing. *)
Ltac same_handler Hu Hn Hc Hcr Hl :=
  split; [exact Hu|]; split; [exact Hn|]; split; [exact Hc|];
  split; [exact Hcr|simpl; now rewrite Hl].

(** The effect of a list of requests on a consistent handler with enough
    identifiers left. *)
Lemma serveAll_from (decode : bytes -> result string)
  (orders : nat -> handlers.Users -> handlers.Users)
  (reqs : list handlers.Request) :
  forall n h,
    handlers.consistent h ->
    (handlers.nextID h + Z.of_nat (List.length reqs) <= handlers.maxInt)%Z ->
    let names := handlers.accepted decode reqs in
    let out := handlers.serveAll decode orders n reqs h in
    handlers.users (fst out)
    = handlers.users h
        ++ map (fun u => (handlers.ID u, u))
             (handlers.numbered (handlers.nextID h) names)
    /\ handlers.nextID (fst out)
       = (handlers.nextID h + Z.of_nat (List.length names))%Z
    /\ handlers.consistent (fst out)
    /\ handlers.created (snd out)
       = handlers.numbered (handlers.nextID h) names
    /\ List.length (snd out) = List.length reqs.
Proof.
  induction reqs as [|r rest IH]; intros n h Hcons Hroom names out.
  - subst names out. simpl. rewrite app_nil_r, Z.add_0_r. auto.
  - subst names out. cbn [handlers.serveAll handlers.accepted].
    cbn [List.length] in Hroom.
    assert (Hmax : (handlers.nextID h < handlers.maxInt)%Z) by lia.
    pose proof (ServeHTTP_keeps_store_consistent decode (orders n) h r Hcons Hmax)
      as Hcons1.
    unfold handlers.ServeHTTP in *.
    destruct (String.eqb_spec (handlers.Method r) "GET") as [Hget|Hget].
    + (* a GET *)
      assert (Hpost : String.eqb (handlers.Method r) "POST" = false)
        by (rewrite Hget; reflexivity).
      rewrite Hpost, listUsers_lists in *. cbn [fst] in Hcons1.
      assert (Hroom' : (handlers.nextID h + Z.of_nat (List.length rest)
                        <= handlers.maxInt)%Z) by lia.
      destruct (IH (S n) h Hcons Hroom') as (Hu & Hn & Hc & Hcr & Hl).
      destruct (handlers.serveAll decode orders (S n) rest h) as [h2 resps].
      cbn [fst snd] in *. same_handler Hu Hn Hc Hcr Hl.
    + destruct (String.eqb_spec (handlers.Method r) "POST") as [Hpost|Hpost].
      * destruct (decode (handlers.RequestBody r)) as [name|e] eqn:Hdec.
        -- destruct (String.eqb_spec name "") as [->|Hname].
           ++ (* no name *)
              unfold handlers.createUser in *. rewrite Hdec in *.
              cbn [String.eqb fst] in *.
              assert (Hroom' : (handlers.nextID h + Z.of_nat (List.length rest)
                                <= handlers.maxInt)%Z) by lia.
              destruct (IH (S n) h Hcons Hroom') as (Hu & Hn & Hc & Hcr & Hl).
              destruct (handlers.serveAll decode orders (S n) rest h)
                as [h2 resps].
              cbn [fst snd] in *. same_handler Hu Hn Hc Hcr Hl.
           ++ (* a user is created *)
              rewrite (createUser_accepts decode h r name Hcons Hmax Hdec Hname)
                in *.
              cbn [fst] in Hcons1.
              match type of Hcons1 with
              | handlers.consistent ?h1 =>
                  assert (Hroom' : (handlers.nextID h1
                                    + Z.of_nat (List.length rest)
                                    <= handlers.maxInt)%Z)
                    by (cbn [handlers.nextID]; lia);
                  destruct (IH (S n) h1 Hcons1 Hroom')
                    as (Hu & Hn & Hc & Hcr & Hl);
                  destruct (handlers.serveAll decode orders (S n) rest h1)
                    as [h2 resps]
              end.
              cbn [fst snd handlers.nextID handlers.users] in *.
              cbn [handlers.numbered map List.length].
              rewrite Hu, Hn, <- app_assoc.
              split; [reflexivity|].
              split; [rewrite Nat2Z.inj_succ; lia|].
              split; [exact Hc|].
              split; [|simpl; now rewrite Hl].
              unfold handlers.created in *.
              cbn [flat_map handlers.Payload handlers.Code Nat.eqb app].
              now rewrite Hcr.
        -- (* a body that does not decode *)
           unfold handlers.createUser in *. rewrite Hdec in *. cbn [fst] in *.
           assert (Hroom' : (handlers.nextID h + Z.of_nat (List.length rest)
                             <= handlers.maxInt)%Z) by lia.
           destruct (IH (S n) h Hcons Hroom') as (Hu & Hn & Hc & Hcr & Hl).
           destruct (handlers.serveAll decode orders (S n) rest h) as [h2 resps].
           cbn [fst snd] in *. same_handler Hu Hn Hc Hcr Hl.
      * (* another method *)
        assert (Hroom' : (handlers.nextID h + Z.of_nat (List.length rest)
                          <= handlers.maxInt)%Z) by lia.
        destruct (IH (S n) h Hcons Hroom') as (Hu & Hn & Hc & Hcr & Hl).
        destruct (handlers.serveAll decode orders (S n) rest h) as [h2 resps].
        cbn [fst snd] in *. same_handler Hu Hn Hc Hcr Hl.
Qed.

Lemma NewUsersHandler_consistent : handlers.consistent handlers.NewUsersHandler.
Proof.
  unfold handlers.consistent. simpl.
  split; [lia|]. split; [constructor|]. split; [constructor|reflexivity].
Qed.

(** X16.  Requests served one after the other on a consistent handler: the
    users created get the next identifiers one by one in the order of
    their requests, whatever rejected requests and listings come between
    them; and a GET afterwards lists the users there were and the users
    created, each once, in the order the map iteration happens to take. *)
Theorem created_users_are_numbered_in_order
  (decode : bytes -> result string)
  (orders : nat -> handlers.Users -> handlers.Users)
  (order : handlers.Users -> handlers.Users)
  (reqs : list handlers.Request) (h : handlers.UsersHandler) :
  handlers.consistent h ->
  (handlers.nextID h + Z.of_nat (List.length reqs) <= handlers.maxInt)%Z ->
  (forall m, Permutation (order m) m) ->
  let names := handlers.accepted decode reqs in
  let out := handlers.serveAll decode orders 0 reqs h in
  handlers.created (snd out) = handlers.numbered (handlers.nextID h) names
  /\ handlers.nextID (fst out)
     = (handlers.nextID h + Z.of_nat (List.length names))%Z
  /\ exists listed,
      handlers.ServeHTTP decode order (fst out) handlers.get
      = (fst out,
         {| handlers.Code := 200;
            handlers.ContentType := "application/json";
            handlers.Payload := handlers.JSONList listed |})
      /\ Permutation listed
           (map snd (handlers.users h)
              ++ handlers.numbered (handlers.nextID h) names).
Proof.
  intros Hcons Hroom Horder names out.
  destruct (serveAll_from decode orders reqs 0 h Hcons Hroom)
    as (Hu & Hn & _ & Hcr & _).
  fold names out in Hu, Hn, Hcr.
  split; [exact Hcr|]. split; [exact Hn|].
  exists (map snd (order (handlers.users (fst out)))).
  split.
  - unfold handlers.ServeHTTP. cbn [handlers.Method handlers.get String.eqb
      Ascii.eqb Bool.eqb]. apply listUsers_lists.
  - apply Permutation_trans with (map snd (handlers.users (fst out))).
    + apply Permutation_map, Horder.
    + rewrite Hu, map_app, map_map. cbn [snd]. now rewrite map_id.
Qed.

Lemma created_users_are_numbered_in_order_witness :
  handlers.created
    (snd (handlers.serveAll handlers.decodeTest (fun _ m => m) 0
            [ handlers.get; handlers.post "Alice"; handlers.post "";
              handlers.post "{"; handlers.post "Bob" ]
            handlers.NewUsersHandler))
  = [ {| handlers.ID := 1%Z; handlers.UserName := "Alice" |};
      {| handlers.ID := 2%Z; handlers.UserName := "Bob" |} ].
Proof.
  assert (Hrev : forall m : handlers.Users, Permutation (List.rev m) m).
  { intros m. apply Permutation_sym, Permutation_rev. }
  assert (Hroom : (handlers.nextID handlers.NewUsersHandler
                   + Z.of_nat (List.length
                                 [ handlers.get; handlers.post "Alice";
                                   handlers.post ""; handlers.post "{";
                                   handlers.post "Bob" ])
                   <= handlers.maxInt)%Z) by (vm_compute; discriminate).
  exact (proj1 (created_users_are_numbered_in_order handlers.decodeTest
                  (fun _ m => m) (@List.rev _)
                  [ handlers.get; handlers.post "Alice"; handlers.post "";
                    handlers.post "{"; handlers.post "Bob" ]
                  handlers.NewUsersHandler NewUsersHandler_consistent
                  Hroom Hrev)).
Defined.
